(** * Document extraction pipeline: a shallow embedding and its properties

    The development follows the Go packages of the repository:
    [strings] (the part of Go's library the code calls), [models],
    [analysis] (aggregator, address comparison, Gemini client), [files],
    [ocr] and [batch].  Go values are embedded as follows.

    - [string] is Go's [string], read as a sequence of bytes; [int] and
      [time.Duration] are [Z] (no computation here comes near 2^63, the
      places where Go saturates are written out);
    - [error] is [option string]: [None] is [nil], [Some msg] an error whose
      [Error()] text is [msg]; a call returning [(T, error)] whose error
      paths all return the zero value is a sum [T + string];
    - [map[string]interface{}] is [gmap string JSON];
    - a [time.Time] is an instant in nanoseconds, a pointer field
      ([*time.Time], [*MoneyVND]) is an [option];
    - calls that leave the process (HTTP, subprocesses, the file system, the
      clock, environment variables) are read from an environment record,
      one outcome per call site. *)

From Stdlib Require Import ZArith Lia Ascii String List Bool.
From stdpp Require Import gmap strings list fin_maps pretty.

#[local] Set Warnings "-register-all".
#[local] Open Scope string_scope.

(** ** Go's [strings] package (the functions the repository calls)

    The byte-level definitions agree with Go's on ASCII text.  Go's versions
    also treat the non-ASCII Unicode white space and letter cases: module
    [text] below has [ToLower], [TrimSpace] and [Fields] for any text. *)
Module strings.

Definition len (s : string) : Z := Z.of_nat (String.length s).

(** [asciiSpace]: tab, line feed, vertical tab, form feed, carriage return, space. *)
Definition isSpace (c : ascii) : bool :=
  let n := nat_of_ascii c in
  Nat.eqb n 32 || (Nat.leb 9 n && Nat.leb n 13).

Definition toLowerByte (c : ascii) : ascii :=
  let n := nat_of_ascii c in
  if Nat.leb 65 n && Nat.leb n 90 then ascii_of_nat (n + 32) else c.

Fixpoint ToLower (s : string) : string :=
  match s with
  | EmptyString => EmptyString
  | String c r => String (toLowerByte c) (ToLower r)
  end.

Fixpoint trimLeft (s : string) : string :=
  match s with
  | EmptyString => EmptyString
  | String c r => if isSpace c then trimLeft r else s
  end.

Fixpoint trimRight (s : string) : string :=
  match s with
  | EmptyString => EmptyString
  | String c r =>
      match trimRight r with
      | EmptyString => if isSpace c then EmptyString else String c EmptyString
      | r' => String c r'
      end
  end.

Definition TrimSpace (s : string) : string := trimRight (trimLeft s).

Fixpoint drop (n : nat) (s : string) : string :=
  match n, s with
  | O, _ => s
  | S k, EmptyString => EmptyString
  | S k, String _ r => drop k r
  end.

(** [s[lo:hi]] *)
Definition slice (s : string) (lo hi : Z) : string :=
  substring (Z.to_nat lo) (Z.to_nat (hi - lo)) s.

Definition HasPrefix (s pre : string) : bool := String.prefix pre s.

Definition HasSuffix (s suf : string) : bool :=
  Nat.leb (String.length suf) (String.length s)
  && String.eqb (drop (String.length s - String.length suf) s) suf.

Definition TrimPrefix (s pre : string) : string :=
  if HasPrefix s pre then drop (String.length pre) s else s.

Definition TrimSuffix (s suf : string) : string :=
  if HasSuffix s suf
  then substring 0 (String.length s - String.length suf) s
  else s.

Definition byteIn (c : ascii) (chars : string) : bool :=
  existsb (Ascii.eqb c) (list_ascii_of_string chars).

Fixpoint indexAnyFrom (s chars : string) (i : Z) : Z :=
  match s with
  | EmptyString => (-1)%Z
  | String c r => if byteIn c chars then i else indexAnyFrom r chars (i + 1)%Z
  end.

Definition IndexAny (s chars : string) : Z := indexAnyFrom s chars 0.

Fixpoint Contains (s substr : string) : bool :=
  String.prefix substr s
  || match s with
     | EmptyString => false
     | String _ r => Contains r substr
     end.

(** Left-to-right, non-overlapping replacement; [skip] counts the bytes of a
    match that are still to be passed over. *)
Fixpoint replaceFrom (s old new : string) (skip : nat) : string :=
  match s with
  | EmptyString => EmptyString
  | String c r =>
      match skip with
      | S k => replaceFrom r old new k
      | O =>
          if String.prefix old s
          then new ++ replaceFrom r old new (String.length old - 1)
          else String c (replaceFrom r old new 0)
      end
  end.

(** With an empty [old] Go inserts [new] before every UTF-8 sequence and at
    the end (every byte, on ASCII text); the repository passes no empty [old]. *)
Fixpoint interleave (s new : string) : string :=
  match s with
  | EmptyString => new
  | String c r => new ++ String c (interleave r new)
  end.

Definition ReplaceAll (s old new : string) : string :=
  match old with
  | EmptyString => interleave s new
  | _ => replaceFrom s old new 0
  end.

(** Splits around runs of bytes satisfying [f]; no empty field. *)
Fixpoint FieldsFunc (f : ascii -> bool) (s : string) : list string :=
  match s with
  | EmptyString => []
  | String c r =>
      if f c then FieldsFunc f r
      else match r with
           | EmptyString => [String c EmptyString]
           | String c' _ =>
               if f c' then String c EmptyString :: FieldsFunc f r
               else match FieldsFunc f r with
                    | w :: ws => String c w :: ws
                    | [] => [String c EmptyString]
                    end
           end
  end.

Definition Fields (s : string) : list string := FieldsFunc isSpace s.

(** Byte-wise [s < t], the order of [sort.Strings]. *)
Fixpoint ltb (s t : string) : bool :=
  match s, t with
  | _, EmptyString => false
  | EmptyString, String _ _ => true
  | String a s', String b t' =>
      let x := nat_of_ascii a in
      let y := nat_of_ascii b in
      Nat.ltb x y || (Nat.eqb x y && ltb s' t')
  end.

End strings.

(** ** JSON values as [encoding/json] decodes them into [interface{}] *)
Inductive JSON (F : Type) : Type :=
| JNull
| JBool (b : bool)
| JNum (f : F)
| JStr (s : string)
| JArr (items : list (JSON F))
| JObj (fields : gmap string (JSON F)).

Arguments JNull {F}.
Arguments JBool {F} b.
Arguments JNum {F} f.
Arguments JStr {F} s.
Arguments JArr {F} items.
Arguments JObj {F} fields.

(** ** The library calls the code relies on and that are kept abstract:
    [float64] with the two operations used on it, [time.Parse],
    [time.ParseDuration], [json.Unmarshal], three [path/filepath]
    functions, and what three [strings] functions make of text beyond
    ASCII. *)
Class GoRuntime := {
  float64 : Type;
  (** the conversion [MoneyVND(f)] of a [float64] to [int64] *)
  float64_to_int64 : float64 -> Z;
  (** [f > 0] *)
  float64_pos : float64 -> bool;
  (** [time.Parse(layout, value)] as an instant in nanoseconds; [None] when
      it returns an error *)
  time_Parse : string -> string -> option Z;
  (** [time.ParseDuration(s)] in nanoseconds; [None] when it returns an error *)
  time_ParseDuration : string -> option Z;
  (** [json.Unmarshal] into an [interface{}]; [inr msg] when the text is not
      JSON, [msg] being the text of the syntax error *)
  json_Unmarshal : string -> JSON float64 + string;
  (** [json.Unmarshal(body, &errorResp)] of the 429 branch: the [RetryDelay]
      of every entry of [Error.Details], [None] when it returns an error *)
  json_retryDelays : string -> option (list string);
  (** [json.NewDecoder(body).Decode(&geminiResp)]: the message of [Error]
      and, for every candidate, the texts of its parts *)
  json_GeminiResponse : string -> (string * list (list string)) + string;
  filepath_Dir : string -> string;
  filepath_Base : string -> string;
  filepath_Join : string -> string -> string;
  (** [strings.ToLower], [strings.TrimSpace] and [strings.Fields] on text
      that has a byte beyond ASCII, where Go goes by the Unicode tables of
      its standard library ([unicode.ToLower], [unicode.IsSpace]) *)
  unicode_ToLower : string -> string;
  unicode_TrimSpace : string -> string;
  unicode_Fields : string -> list string
}.

(** ** [strings.ToLower], [strings.TrimSpace] and [strings.Fields] on any text

    The three functions work on runes.  Each has a path of its own for
    text whose bytes are all below [utf8.RuneSelf], on which it is the
    byte-wise function of module [strings]; on any other text the answer is
    the one of the Unicode tables, which the run time supplies.  The address
    comparison, which meets Vietnamese text, is written with them. *)
Module text.

Definition isASCII (s : string) : bool :=
  forallb (fun c => Nat.ltb (nat_of_ascii c) 128) (list_ascii_of_string s).

Definition ToLower `{rt : GoRuntime} (s : string) : string :=
  if isASCII s then strings.ToLower s else unicode_ToLower s.

Definition TrimSpace `{rt : GoRuntime} (s : string) : string :=
  if isASCII s then strings.TrimSpace s else unicode_TrimSpace s.

Definition Fields `{rt : GoRuntime} (s : string) : list string :=
  if isASCII s then strings.Fields s else unicode_Fields s.

End text.

(** ** Package [models] *)
Module models.

Definition MoneyVND := Z.

Definition TriState := string.
Definition TriStateEmpty : TriState := "".
Definition TriNA : TriState := "na".
Definition TriYes : TriState := "yes".
Definition TriNo : TriState := "no".

Definition YesNo := string.
Definition YesNoNA : YesNo := "".
Definition Yes : YesNo := "yes".
Definition No : YesNo := "no".

Definition ClientType := string.
Definition ClientTypeCorporateEntity : ClientType := "corporate_entity".
Definition ClientTypePrivateIndividual : ClientType := "private_individual".

Definition CustomerType := string.
Definition CustomerTypeNA : CustomerType := "na_private_individual".
Definition CustomerTypeManufacturing : CustomerType := "manufacturing_production".
Definition CustomerTypeTrading : CustomerType := "trading_commercial".
Definition CustomerTypeConstruction : CustomerType := "construction_real_estate".
Definition CustomerTypeServices : CustomerType := "services".
Definition CustomerTypeAgriculture : CustomerType := "agriculture_forestry_fishery".
Definition CustomerTypeTechnology : CustomerType := "technology_it_software".
Definition CustomerTypeEnergy : CustomerType := "energy_utilities".
Definition CustomerTypeFinance : CustomerType := "finance_insurance_banking".
Definition CustomerTypeHealthcare : CustomerType := "healthcare_pharmaceuticals".
Definition CustomerTypeMedia : CustomerType := "media_entertainment".

Definition SourceOfClient := string.

Definition OwnershipBracket := string.
Definition Ownership100 : OwnershipBracket := "100".
Definition OwnershipGT50 : OwnershipBracket := "gt_50".
Definition OwnershipLT50 : OwnershipBracket := "lt_50".
Definition OwnershipNA : OwnershipBracket := "na".

Definition LandOwnershipSituation := string.
Definition LandOwner : LandOwnershipSituation := "land_owner".
Definition RentalAgreement : LandOwnershipSituation := "rental_agreement".
Definition Unknown : LandOwnershipSituation := "unknown".

Definition CompanySignboardStatus := string.
Definition SignboardMatches : CompanySignboardStatus := "available_matches_client_info".
Definition SignboardMismatched : CompanySignboardStatus := "available_does_not_match_client_info".
Definition SignboardNotAvail : CompanySignboardStatus := "not_available_or_not_checked".

Definition LoanType := string.
Definition LoanTypeEmpty : LoanType := "".
Definition LoanTypeShortTerm : LoanType := "short_term_loan".
Definition LoanTypeMediumTerm : LoanType := "medium_term_loan".
Definition LoanTypeLongTerm : LoanType := "long_term_loan".
Definition LoanTypeCreditCard : LoanType := "credit_card".
Definition LoanTypeOverdrafts : LoanType := "overdrafts".
Definition LoanTypeGuarantee : LoanType := "guarantee".
Definition LoanTypeFinancialLeasing : LoanType := "financial_leasing".
Definition LoanTypeFactoring : LoanType := "factoring".
Definition LoanTypeConsumerLoan : LoanType := "consumer_loan".
Definition LoanTypeOtherCredit : LoanType := "other_credit_facility".

Definition DebtClassification := string.
Definition DebtClassificationEmpty : DebtClassification := "".
Definition DebtClassificationGroup1 : DebtClassification := "group_1_current_debt".
Definition DebtClassificationGroup2 : DebtClassification := "group_2_special_mention_debt".
Definition DebtClassificationGroup3 : DebtClassification := "group_3_substandard_debt".
Definition DebtClassificationGroup4 : DebtClassification := "group_4_doubtful_debt".
Definition DebtClassificationGroup5 : DebtClassification := "group_5_loss_debt".

Record GeneralCorporateInfo := {
  ClientName : string;
  ClientType_ : ClientType;
  TaxCodeMST : string;
  BusinessLicenseGPKD : TriState;
  BusinessAddress : string;
  RegisteredShareCapital : option MoneyVND;
  CustomerType_ : CustomerType;
  BusinessOperations : string
}.

Record CorporateHistory := {
  IncorporationDate : option Z;
  HistoryDescription : string
}.

Record RelationshipBackground := { Source : SourceOfClient }.

Record OwnershipInfo := {
  OwnersName : string;
  OwnershipCategory : OwnershipBracket;
  CompanyDirectorName : string;
  KeyDecisionMaker : string
}.

Record CorporateInfo := {
  General : GeneralCorporateInfo;
  History : CorporateHistory;
  Relationship : RelationshipBackground;
  Ownership : OwnershipInfo
}.

Record EVNInformation := {
  BillingAddress : string;
  BillingAddressMatchesClient : YesNo;
  BillingAmount : option MoneyVND;
  BilledAmountsMatchExpenses : TriState
}.

Record LandOwnershipInformation := {
  Situation : LandOwnershipSituation;
  LandownerIsSignatory : YesNo;
  LeaseExpirationDate : option Z;
  OwnedDocsComplete : YesNo
}.

Record LandInfo := {
  EVN : EVNInformation;
  LandOwnership : LandOwnershipInformation
}.

(** The [[5]MoneyVND] arrays are lists; the zero value has five zeros. *)
Record PLInfo := {
  TotalRevenues : list MoneyVND;
  TotalCosts : list MoneyVND;
  TotalEnergyCosts : list MoneyVND
}.

Record BalanceSheetInfo := {
  TotalAssets : list MoneyVND;
  TotalDebt : list MoneyVND
}.

Record LoanInfo := {
  LoanType_ : LoanType;
  DebtClassification_ : DebtClassification;
  OutstandingAmount : option MoneyVND;
  AnnualInterestCost : option MoneyVND;
  AnnualAmortization : option MoneyVND;
  Maturity : option Z;
  PaymentHistory : string
}.

Record FinancialInfo := {
  FinancialStatementDate : option Z;
  PL : PLInfo;
  BalanceSheet : BalanceSheetInfo;
  Loans : list LoanInfo
}.

Record SiteVisit := { CompanySignboard : CompanySignboardStatus }.

Record AdditionalInfo := { SiteVisit_ : SiteVisit }.

Record CustomerCheck := {
  CheckCompletedAt : option Z;
  Corporate : CorporateInfo;
  Land : LandInfo;
  Financial : FinancialInfo;
  Additional : AdditionalInfo
}.

(** The zero value [&models.CustomerCheck{}]. *)
Definition zeroMoney5 : list MoneyVND := [0; 0; 0; 0; 0]%Z.

Definition zeroCustomerCheck : CustomerCheck :=
  {| CheckCompletedAt := None;
     Corporate :=
       {| General :=
            {| ClientName := ""; ClientType_ := ""; TaxCodeMST := "";
               BusinessLicenseGPKD := TriStateEmpty; BusinessAddress := "";
               RegisteredShareCapital := None; CustomerType_ := "";
               BusinessOperations := "" |};
          History := {| IncorporationDate := None; HistoryDescription := "" |};
          Relationship := {| Source := "" |};
          Ownership :=
            {| OwnersName := ""; OwnershipCategory := "";
               CompanyDirectorName := ""; KeyDecisionMaker := "" |} |};
     Land :=
       {| EVN :=
            {| BillingAddress := ""; BillingAddressMatchesClient := YesNoNA;
               BillingAmount := None; BilledAmountsMatchExpenses := TriStateEmpty |};
          LandOwnership :=
            {| Situation := ""; LandownerIsSignatory := YesNoNA;
               LeaseExpirationDate := None; OwnedDocsComplete := YesNoNA |} |};
     Financial :=
       {| FinancialStatementDate := None;
          PL := {| TotalRevenues := zeroMoney5; TotalCosts := zeroMoney5;
                   TotalEnergyCosts := zeroMoney5 |};
          BalanceSheet := {| TotalAssets := zeroMoney5; TotalDebt := zeroMoney5 |};
          Loans := [] |};
     Additional := {| SiteVisit_ := {| CompanySignboard := "" |} |} |}.

End models.

(** ** Package [analysis]: document kinds and the aggregator *)
Module analysis.
Import models.

Definition DocumentSource := string.
Definition SourceBusinessLicense : DocumentSource := "business_license".
Definition SourceEVNBill : DocumentSource := "evn_bill".
Definition SourceLandCertificate : DocumentSource := "land_certificate".
Definition SourceIDCheck : DocumentSource := "id_check".
Definition SourceFinancialStatement : DocumentSource := "financial_statement".
Definition SourceSiteVisitPhotos : DocumentSource := "site_visit_photos".
Definition SourceCICReport : DocumentSource := "cic_report".
Definition SourceCICReport2 : DocumentSource := "cic_report_2".
Definition SourceUnknown : DocumentSource := "unknown".

(** A [switch] over string constants: the value of the first case equal to
    [s], [default] when none is. *)
Definition switchOr {A : Type} (cases : list (string * A)) (s : string) (default : A) : A :=
  match List.find (fun p => String.eqb s (fst p)) cases with
  | Some p => snd p
  | None => default
  end.

Section Aggregator.
Context `{rt : GoRuntime}.

Abbreviation json := (JSON float64).

(** The type assertions [v.(string)], [v.(float64)], [v.([]interface{})] and
    [v.(map[string]interface{})] on a map entry; a missing key is [nil]. *)
Definition asString (v : option json) : option string :=
  match v with Some (JStr s) => Some s | _ => None end.

Definition asFloat (v : option json) : option float64 :=
  match v with Some (JNum f) => Some f | _ => None end.

Definition asSlice (v : option json) : option (list json) :=
  match v with Some (JArr l) => Some l | _ => None end.

Definition asMap (v : option json) : option (gmap string json) :=
  match v with Some (JObj m) => Some m | _ => None end.

Definition dateLayout : string := "2006-01-02".

Definition updateFromBusinessLicense (info : CorporateInfo) (data : gmap string json)
  : CorporateInfo :=
  let g := General info in
  let h := History info in
  let o := Ownership info in
  {| General :=
       {| ClientName :=
            match asString (data !! "client_name") with
            | Some clientName => clientName
            | None => ClientName g
            end;
          ClientType_ :=
            match asString (data !! "client_type") with
            | Some clientType =>
                switchOr [("corporate_entity", ClientTypeCorporateEntity);
                          ("private_individual", ClientTypePrivateIndividual)]
                  (strings.ToLower clientType) (ClientType_ g)
            | None => ClientType_ g
            end;
          TaxCodeMST :=
            match asString (data !! "tax_code_mst") with
            | Some taxCode => taxCode
            | None => TaxCodeMST g
            end;
          BusinessLicenseGPKD :=
            match asString (data !! "business_license_gpkd") with
            | Some license =>
                switchOr [("yes", TriYes); ("no", TriNo); ("na", TriNA); ("n/a", TriNA)]
                  (strings.ToLower license) (BusinessLicenseGPKD g)
            | None => BusinessLicenseGPKD g
            end;
          BusinessAddress :=
            match asString (data !! "business_address") with
            | Some address => address
            | None => BusinessAddress g
            end;
          RegisteredShareCapital :=
            match asFloat (data !! "registered_share_capital") with
            | Some capital => Some (float64_to_int64 capital)
            | None => RegisteredShareCapital g
            end;
          CustomerType_ :=
            match asString (data !! "customer_type") with
            | Some customerType =>
                switchOr [("manufacturing_production", CustomerTypeManufacturing);
                          ("trading_commercial", CustomerTypeTrading);
                          ("construction_real_estate", CustomerTypeConstruction);
                          ("services", CustomerTypeServices);
                          ("agriculture_forestry_fishery", CustomerTypeAgriculture);
                          ("technology_it_software", CustomerTypeTechnology);
                          ("energy_utilities", CustomerTypeEnergy);
                          ("finance_insurance_banking", CustomerTypeFinance);
                          ("healthcare_pharmaceuticals", CustomerTypeHealthcare);
                          ("media_entertainment", CustomerTypeMedia);
                          ("na_private_individual", CustomerTypeNA)]
                  customerType (CustomerType_ g)
            | None => CustomerType_ g
            end;
          BusinessOperations :=
            match asString (data !! "business_operations") with
            | Some operations => operations
            | None => BusinessOperations g
            end |};
     History :=
       {| IncorporationDate :=
            match asString (data !! "incorporation_date") with
            | Some date =>
                match time_Parse dateLayout date with
                | Some t => Some t
                | None => IncorporationDate h
                end
            | None => IncorporationDate h
            end;
          HistoryDescription := HistoryDescription h |};
     Relationship := Relationship info;
     Ownership :=
       {| OwnersName :=
            match asString (data !! "owners_name") with
            | Some owner => owner
            | None => OwnersName o
            end;
          OwnershipCategory :=
            match asString (data !! "ownership_category") with
            | Some ownership =>
                switchOr [("100", Ownership100);
                          ("gt_50", OwnershipGT50); (">50%", OwnershipGT50);
                          ("lt_50", OwnershipLT50); ("<50%", OwnershipLT50);
                          ("na", OwnershipNA); ("n/a", OwnershipNA)]
                  ownership (OwnershipCategory o)
            | None => OwnershipCategory o
            end;
          CompanyDirectorName := CompanyDirectorName o;
          KeyDecisionMaker :=
            match asString (data !! "key_decision_maker") with
            | Some decisionMaker => decisionMaker
            | None => KeyDecisionMaker o
            end |} |}.

Definition updateFromEVNBill (info : EVNInformation) (data : gmap string json)
  : EVNInformation :=
  {| BillingAddress :=
       match asString (data !! "billing_address") with
       | Some address => address
       | None => BillingAddress info
       end;
     BillingAddressMatchesClient :=
       match asString (data !! "billing_address_matches_client") with
       | Some matches =>
           switchOr [("yes", Yes); ("true", Yes); ("1", Yes);
                     ("no", No); ("false", No); ("0", No)]
             (strings.ToLower (strings.TrimSpace matches)) No
       | None => BillingAddressMatchesClient info
       end;
     BillingAmount :=
       match asFloat (data !! "billing_amount") with
       | Some amount => Some (float64_to_int64 amount)
       | None => BillingAmount info
       end;
     BilledAmountsMatchExpenses :=
       match asString (data !! "billed_amounts_match_expenses") with
       | Some matches =>
           switchOr [("yes", TriYes); ("true", TriYes); ("1", TriYes);
                     ("match", TriYes); ("matches", TriYes);
                     ("no", TriNo); ("false", TriNo); ("0", TriNo);
                     ("does not match", TriNo); ("doesn't match", TriNo)]
             (strings.ToLower (strings.TrimSpace matches)) TriNo
       | None => BilledAmountsMatchExpenses info
       end |}.

Definition updateFromLandCertificate (info : LandOwnershipInformation)
    (data : gmap string json) : LandOwnershipInformation :=
  {| Situation :=
       match asString (data !! "situation") with
       | Some situation =>
           switchOr [("land_owner", LandOwner);
                     ("rental_agreement", RentalAgreement);
                     ("unknown", Unknown)]
             (strings.ToLower situation) Unknown
       | None => Unknown
       end;
     LandownerIsSignatory :=
       match asString (data !! "landowner_is_signatory") with
       | Some signatory =>
           switchOr [("yes", Yes); ("true", Yes); ("1", Yes);
                     ("no", No); ("false", No); ("0", No)]
             (strings.ToLower (strings.TrimSpace signatory)) YesNoNA
       | None => LandownerIsSignatory info
       end;
     LeaseExpirationDate :=
       match asString (data !! "lease_expiration_date") with
       | Some date =>
           if negb (String.eqb date "0000-00-00") && negb (String.eqb date "")
           then match time_Parse dateLayout date with
                | Some t => Some t
                | None => LeaseExpirationDate info
                end
           else LeaseExpirationDate info
       | None => LeaseExpirationDate info
       end;
     OwnedDocsComplete :=
       match asString (data !! "documentation_complete") with
       | Some complete =>
           switchOr [("yes", Yes); ("true", Yes); ("1", Yes); ("complete", Yes);
                     ("no", No); ("false", No); ("0", No); ("incomplete", No)]
             (strings.ToLower (strings.TrimSpace complete)) YesNoNA
       | None => OwnedDocsComplete info
       end |}.

Definition updateFromIDCheck (info : OwnershipInfo) (data : gmap string json)
  : OwnershipInfo :=
  {| OwnersName := OwnersName info;
     OwnershipCategory := OwnershipCategory info;
     CompanyDirectorName :=
       match asString (data !! "company_director_name") with
       | Some director => director
       | None => CompanyDirectorName info
       end;
     KeyDecisionMaker :=
       match asString (data !! "key_decision_maker") with
       | Some decisionMaker => decisionMaker
       | None => KeyDecisionMaker info
       end |}.

Definition updateFromSiteVisit (info : SiteVisit) (data : gmap string json) : SiteVisit :=
  {| CompanySignboard :=
       match asString (data !! "company_signboard") with
       | Some signboard =>
           switchOr [("available_matches_client_info", SignboardMatches);
                     ("available_does_not_match_client_info", SignboardMismatched);
                     ("not_available_or_not_checked", SignboardNotAvail)]
             signboard (CompanySignboard info)
       | None => CompanySignboard info
       end |}.

(** [for i, v := range vs { if amount, ok := v.(float64); ok { arr[i] = MoneyVND(amount) } }] *)
Fixpoint assignMoney (vs : list json) (i : nat) (arr : list MoneyVND) : list MoneyVND :=
  match vs with
  | [] => arr
  | v :: vs' =>
      assignMoney vs' (S i)
        match v with
        | JNum amount => <[i := float64_to_int64 amount]> arr
        | _ => arr
        end
  end.

Definition updateMoney5 (v : option json) (arr : list MoneyVND) : list MoneyVND :=
  match asSlice v with
  | Some vs => if Nat.eqb (length vs) 5 then assignMoney vs 0 arr else arr
  | None => arr
  end.

Definition updateFromFinancialStatement (info : FinancialInfo) (data : gmap string json)
  : FinancialInfo :=
  {| FinancialStatementDate :=
       match asString (data !! "financial_statement_date") with
       | Some date =>
           match time_Parse dateLayout date with
           | Some t => Some t
           | None => FinancialStatementDate info
           end
       | None => FinancialStatementDate info
       end;
     PL :=
       {| TotalRevenues := updateMoney5 (data !! "total_revenues") (TotalRevenues (PL info));
          TotalCosts := updateMoney5 (data !! "total_costs") (TotalCosts (PL info));
          TotalEnergyCosts :=
            updateMoney5 (data !! "total_energy_costs") (TotalEnergyCosts (PL info)) |};
     BalanceSheet :=
       {| TotalAssets :=
            updateMoney5 (data !! "total_assets") (TotalAssets (BalanceSheet info));
          TotalDebt := updateMoney5 (data !! "total_debt") (TotalDebt (BalanceSheet info)) |};
     Loans := Loans info |}.

(** An amount of a loan: zero unless the entry is a positive number. *)
Definition loanAmount (v : option json) : option MoneyVND :=
  match asFloat v with
  | Some amount => if float64_pos amount then Some (float64_to_int64 amount) else Some 0%Z
  | None => Some 0%Z
  end.

Definition loanFromMap (loanMap : gmap string json) : LoanInfo :=
  {| LoanType_ :=
       match asString (loanMap !! "loan_type") with
       | Some loanType =>
           switchOr [("short_term_loan", LoanTypeShortTerm);
                     ("medium_term_loan", LoanTypeMediumTerm);
                     ("long_term_loan", LoanTypeLongTerm);
                     ("credit_card", LoanTypeCreditCard);
                     ("overdrafts", LoanTypeOverdrafts);
                     ("guarantee", LoanTypeGuarantee);
                     ("financial_leasing", LoanTypeFinancialLeasing);
                     ("factoring", LoanTypeFactoring);
                     ("consumer_loan", LoanTypeConsumerLoan);
                     ("other_credit_facility", LoanTypeOtherCredit)]
             (strings.ToLower loanType) LoanTypeOtherCredit
       | None => LoanTypeOtherCredit
       end;
     DebtClassification_ :=
       match asString (loanMap !! "debt_classification") with
       | Some debtClass =>
           switchOr [("group_1_current_debt", DebtClassificationGroup1);
                     ("group_2_special_mention_debt", DebtClassificationGroup2);
                     ("group_3_substandard_debt", DebtClassificationGroup3);
                     ("group_4_doubtful_debt", DebtClassificationGroup4);
                     ("group_5_loss_debt", DebtClassificationGroup5)]
             (strings.ToLower debtClass) DebtClassificationGroup1
       | None => DebtClassificationGroup1
       end;
     OutstandingAmount := loanAmount (loanMap !! "outstanding_amount");
     AnnualInterestCost := loanAmount (loanMap !! "annual_interest_cost");
     AnnualAmortization := loanAmount (loanMap !! "annual_amortization");
     Maturity :=
       match asString (loanMap !! "maturity") with
       | Some maturity =>
           if negb (String.eqb maturity "0000-00-00") && negb (String.eqb maturity "")
           then time_Parse dateLayout maturity
           else None
       | None => None
       end;
     PaymentHistory :=
       match asString (loanMap !! "payment_history") with
       | Some description => description
       | None => "No payment history found"
       end |}.

(** The [info *models.CorporateHistory] argument is not written to. *)
Definition updateFromCICReport (info : CorporateHistory) (loans : list LoanInfo)
    (data : gmap string json) : CorporateHistory * list LoanInfo :=
  match asSlice (data !! "loans") with
  | Some loansData =>
      (info,
       fold_left
         (fun loans loanData =>
            match loanData with
            | JObj loanMap => (loans ++ [loanFromMap loanMap])%list
            | _ => loans
            end)
         loansData loans)
  | None => (info, loans)
  end.

Definition withCorporate (check : CustomerCheck) (c : CorporateInfo) : CustomerCheck :=
  {| CheckCompletedAt := CheckCompletedAt check; Corporate := c; Land := Land check;
     Financial := Financial check; Additional := Additional check |}.

Definition withLand (check : CustomerCheck) (l : LandInfo) : CustomerCheck :=
  {| CheckCompletedAt := CheckCompletedAt check; Corporate := Corporate check; Land := l;
     Financial := Financial check; Additional := Additional check |}.

Definition withFinancial (check : CustomerCheck) (f : FinancialInfo) : CustomerCheck :=
  {| CheckCompletedAt := CheckCompletedAt check; Corporate := Corporate check;
     Land := Land check; Financial := f; Additional := Additional check |}.

Definition withAdditional (check : CustomerCheck) (a : AdditionalInfo) : CustomerCheck :=
  {| CheckCompletedAt := CheckCompletedAt check; Corporate := Corporate check;
     Land := Land check; Financial := Financial check; Additional := a |}.

(** [UpdateCustomerCheck] writes through [check]; here it returns the record
    after the call. *)
Definition UpdateCustomerCheck (check : CustomerCheck) (extractedData : gmap string json)
    (source : DocumentSource) : CustomerCheck :=
  if String.eqb source SourceBusinessLicense then
    withCorporate check (updateFromBusinessLicense (Corporate check) extractedData)
  else if String.eqb source SourceEVNBill then
    withLand check
      {| EVN := updateFromEVNBill (EVN (Land check)) extractedData;
         LandOwnership := LandOwnership (Land check) |}
  else if String.eqb source SourceLandCertificate then
    withLand check
      {| EVN := EVN (Land check);
         LandOwnership := updateFromLandCertificate (LandOwnership (Land check)) extractedData |}
  else if String.eqb source SourceIDCheck then
    withCorporate check
      {| General := General (Corporate check);
         History := History (Corporate check);
         Relationship := Relationship (Corporate check);
         Ownership := updateFromIDCheck (Ownership (Corporate check)) extractedData |}
  else if String.eqb source SourceSiteVisitPhotos then
    withAdditional check
      {| SiteVisit_ := updateFromSiteVisit (SiteVisit_ (Additional check)) extractedData |}
  else if String.eqb source SourceFinancialStatement then
    withFinancial check (updateFromFinancialStatement (Financial check) extractedData)
  else if String.eqb source SourceCICReport then
    let '(history, loans) :=
      updateFromCICReport (History (Corporate check)) (Loans (Financial check)) extractedData in
    withFinancial
      (withCorporate check
         {| General := General (Corporate check);
            History := history;
            Relationship := Relationship (Corporate check);
            Ownership := Ownership (Corporate check) |})
      {| FinancialStatementDate := FinancialStatementDate (Financial check);
         PL := PL (Financial check);
         BalanceSheet := BalanceSheet (Financial check);
         Loans := loans |}
  else check.


End Aggregator.

(** *** The Gemini client: rate limiter, retries, JSON extraction *)

Definition Second : Z := 1000000000.
Definition geminiTimeout : Z := 600 * Second.
Definition geminiRateLimitDelay : Z := 35 * Second.

(** Instants are nanoseconds on the process clock, a [time.Duration] is a
    number of nanoseconds.  [Time.Sub] saturates at the ends of [int64]. *)
Definition maxDuration : Z := 2 ^ 63 - 1.
Definition minDuration : Z := - 2 ^ 63.

Definition time_Sub (t u : Z) : Z := Z.max minDuration (Z.min maxDuration (t - u)).

(** The package variable [lastGeminiRequest] (guarded by [geminiMutex]) and
    the clock [time.Now] reads. *)
Record Limiter := {
  now : Z;
  lastGeminiRequest : Z
}.

(** Time passing: [d] nanoseconds, never backwards. *)
Definition advance (d : Z) (st : Limiter) : Limiter :=
  {| now := now st + Z.max 0 d; lastGeminiRequest := lastGeminiRequest st |}.

(** [time.Sleep(d)] returns after at least [d]; [over] is the time it takes beyond [d]. *)
Definition time_Sleep (d : Z) (over : N) (st : Limiter) : Limiter :=
  advance (Z.max 0 d + Z.of_N over) st.

(** [geminiMutex.Lock(); lastGeminiRequest = time.Now(); geminiMutex.Unlock()] *)
Definition restamp (st : Limiter) : Limiter :=
  {| now := now st; lastGeminiRequest := now st |}.

Inductive Event : Type :=
| EvRateLimitSleep (d : Z)   (* the [time.Sleep] of [enforceRateLimit] *)
| EvAccepted (stamp : Z)     (* [enforceRateLimit] stamped and returned *)
| EvRetryAfterSleep (d : Z)  (* the [time.Sleep] of the 429 branch *)
| EvBackoffSleep (d : Z).    (* the [time.Sleep] of the 503 branch *)

(** The body of [enforceRateLimit], run with [geminiMutex] held from the
    first line to the last.  [over] is the time that passes between the two
    readings of the clock beyond the requested sleep. *)
Definition enforceRateLimit (over : N) (st : Limiter) : Limiter * list Event :=
  let now_ := now st in
  let timeSinceLastRequest := time_Sub now_ (lastGeminiRequest st) in
  if (timeSinceLastRequest <? geminiRateLimitDelay)%Z then
    let sleepDuration := (geminiRateLimitDelay - timeSinceLastRequest)%Z in
    let st := time_Sleep sleepDuration over st in
    (restamp st, [EvRateLimitSleep sleepDuration; EvAccepted (now st)])
  else
    let st := advance (Z.of_N over) st in
    (restamp st, [EvAccepted (now st)]).

Record GeminiClient := {
  apiKey : string;
  model : string
}.

Definition NewGeminiClient (getenv : string -> string) : GeminiClient + string :=
  let apiKey := strings.TrimSpace (getenv "GEMINI_API_KEY") in
  if String.eqb apiKey "" then
    inr "GEMINI_API_KEY is not set; set it in your environment or .env"
  else
    let model := strings.TrimSpace (getenv "GEMINI_MODEL") in
    let model := if String.eqb model "" then "gemini-2.5-pro" else model in
    inl {| apiKey := apiKey; model := model |}.

(** The loop of [extractJSONFromGemini] from index [i], over the bytes
    [rest = content[i:]]: the value of [end] when the loop is left. *)
Fixpoint matchClose (rest : string) (openChar closeChar : ascii) (i openCount : Z) : Z :=
  match rest with
  | EmptyString => 0%Z
  | String ch rest' =>
      if Ascii.eqb ch openChar then
        matchClose rest' openChar closeChar (i + 1)%Z (openCount + 1)%Z
      else if Ascii.eqb ch closeChar then
        let openCount := (openCount - 1)%Z in
        if (openCount =? 0)%Z then (i + 1)%Z
        else matchClose rest' openChar closeChar (i + 1)%Z openCount
      else matchClose rest' openChar closeChar (i + 1)%Z openCount
  end.

Definition byteAt (s : string) (i : Z) : option ascii := String.get (Z.to_nat i) s.

Definition extractJSONFromGemini (content : string) : string :=
  let content := strings.TrimSpace content in
  let content :=
    if strings.HasPrefix content "```json" then
      strings.TrimSuffix (strings.TrimPrefix content "```json") "```"
    else if strings.HasPrefix content "```" then
      strings.TrimSuffix (strings.TrimPrefix content "```") "```"
    else content in
  let start := strings.IndexAny content "{[" in
  if (start =? -1)%Z then "" else
  let '(openChar, closeChar) :=
    match byteAt content start with
    | Some "{"%char => ("{"%char, "}"%char)
    | _ => ("["%char, "]"%char)
    end in
  let end_ :=
    matchClose (strings.drop (Z.to_nat start) content) openChar closeChar start 0 in
  if (end_ =? 0)%Z then "" else strings.TrimSpace (strings.slice content start end_).

Section Client.
Context `{rt : GoRuntime}.

Abbreviation json := (JSON float64).

(** [for i, item := range arr { result[fmt.Sprintf("item_%d", i)] = item }] *)
Fixpoint wrapFrom (arr : list json) (i : nat) (result : gmap string json)
  : gmap string json :=
  match arr with
  | [] => result
  | item :: arr' => wrapFrom arr' (S i) (<["item_" ++ pretty i := item]> result)
  end.

(** The word [encoding/json] uses for a value in its type errors. *)
Definition jsonKind (v : json) : string :=
  match v with
  | JNull => "null"
  | JBool _ => "bool"
  | JNum _ => "number"
  | JStr _ => "string"
  | JArr _ => "array"
  | JObj _ => "object"
  end.

(** Lines 226-241: unmarshal as an object first, then as an array whose
    items are keyed by position.  A JSON [null] unmarshals into either
    without an error and leaves the nil map. *)
Definition unmarshalResult (jsonStr : string) : gmap string json + string :=
  match json_Unmarshal jsonStr with
  | inr err => inr ("unmarshal response: " ++ err)
  | inl (JObj result) => inl result
  | inl JNull => inl ∅
  | inl (JArr arr) => inl (wrapFrom arr 0 ∅)
  | inl v =>
      inr ("unmarshal response: json: cannot unmarshal " ++ jsonKind v
           ++ " into Go value of type []interface {}")
  end.

(** Lines 203-241: what [analyzeDocumentWithRetry] makes of a 2xx body. *)
Definition decodeBody (body : string) : gmap string json + string :=
  match json_GeminiResponse body with
  | inr err => inr ("decode response: " ++ err)
  | inl (errorMessage, candidates) =>
      if negb (String.eqb errorMessage "") then inr ("gemini error: " ++ errorMessage)
      else
        match candidates with
        | (content :: _) :: _ =>
            let jsonStr := extractJSONFromGemini content in
            if String.eqb jsonStr "" then
              inr ("could not extract JSON from response: " ++ content)
            else unmarshalResult jsonStr
        | _ => inr "gemini: empty response"
        end
  end.

(** The retry-after duration the 429 branch reads from the body. *)
Definition retryAfter (respBody : string) : option Z :=
  match json_retryDelays respBody with
  | Some (retryDelay :: _) =>
      if String.eqb retryDelay "" then None else time_ParseDuration retryDelay
  | _ => None
  end.

Record HttpResponse := {
  StatusCode : Z;
  Status : string;
  Body : string
}.

Inductive HttpOutcome : Type :=
| MarshalError (err : string)     (* [json.Marshal(req)] failed *)
| BuildError (err : string)       (* [http.NewRequestWithContext] failed *)
| DoError (err : string)          (* [client.Do] failed *)
| Response (resp : HttpResponse).

(** One pass through [analyzeDocumentWithRetry] as the world answers it. *)
Record Attempt := {
  limiter_over : N;   (* see [enforceRateLimit] *)
  outcome : HttpOutcome;
  rtt : N;            (* the time the HTTP exchange takes *)
  sleep_over : N      (* the time a retry sleep takes beyond its argument *)
}.

(** [analyzeDocumentWithRetry]: the recursion of the Go function is the
    recursion on [script], the answers to its successive requests.  [None]
    only when the script ends before the function returns.  [retryCount]
    starts at 0 in [AnalyzeDocument] and grows by one per retry. *)
Fixpoint analyzeDocumentWithRetry (c : GeminiClient) (script : list Attempt)
    (text : string) (source : DocumentSource) (retryCount : Z) (st : Limiter)
  : option ((gmap string json + string) * Limiter * list Event) :=
  match script with
  | [] => None
  | a :: script' =>
      let '(st, ev) := enforceRateLimit (limiter_over a) st in
      match outcome a with
      | MarshalError err => Some (inr ("marshal request: " ++ err), st, ev)
      | BuildError err => Some (inr ("build http request: " ++ err), st, ev)
      | DoError err =>
          Some (inr ("gemini request: " ++ err), advance (Z.of_N (rtt a)) st, ev)
      | Response resp =>
          let st := advance (Z.of_N (rtt a)) st in
          if (StatusCode resp <? 200)%Z || (300 <=? StatusCode resp)%Z then
            let respBody := Body resp in
            match (if (StatusCode resp =? 429)%Z then retryAfter respBody else None) with
            | Some duration =>
                let st := time_Sleep duration (sleep_over a) st in
                let st := restamp st in
                match analyzeDocumentWithRetry c script' text source (retryCount + 1)%Z st with
                | Some (r, st', ev') =>
                    Some (r, st', (ev ++ EvRetryAfterSleep duration :: ev')%list)
                | None => None
                end
            | None =>
                if (StatusCode resp =? 503)%Z && (retryCount <? 3)%Z then
                  let retryDelay := (5 * Z.shiftl 1 retryCount * Second)%Z in
                  let st := time_Sleep retryDelay (sleep_over a) st in
                  let st := restamp st in
                  match analyzeDocumentWithRetry c script' text source (retryCount + 1)%Z st with
                  | Some (r, st', ev') =>
                      Some (r, st', (ev ++ EvBackoffSleep retryDelay :: ev')%list)
                  | None => None
                  end
                else
                  Some (inr ("gemini http error: " ++ Status resp ++ " - " ++ respBody),
                        st, ev)
            end
          else Some (decodeBody (Body resp), st, ev)
      end
  end.

Definition AnalyzeDocument (c : GeminiClient) (script : list Attempt) (text : string)
    (source : DocumentSource) (st : Limiter) :=
  analyzeDocumentWithRetry c script text source 0 st.

End Client.

(** *** The limiter under concurrent callers

    [geminiMutex] makes the body of [enforceRateLimit] and the re-stamp of a
    retry branch indivisible with respect to each other, so a run of any
    number of callers is a sequence of these, with time passing in between. *)
Inductive LimiterAction : Type :=
| Tick (d : N)          (* [d] nanoseconds pass *)
| Enforce (over : N)    (* a caller runs [enforceRateLimit] *)
| Restamp.              (* a caller re-stamps after its retry sleep *)

Definition limiterStep (st : Limiter) (a : LimiterAction) : Limiter * list Event :=
  match a with
  | Tick d => (advance (Z.of_N d) st, [])
  | Enforce over => enforceRateLimit over st
  | Restamp => (restamp st, [])
  end.

Fixpoint limiterRun (actions : list LimiterAction) (st : Limiter) : Limiter * list Event :=
  match actions with
  | [] => (st, [])
  | a :: actions' =>
      let '(st, ev) := limiterStep st a in
      let '(st', ev') := limiterRun actions' st in
      (st', (ev ++ ev')%list)
  end.

(** The start stamps of the accepted calls, in order. *)
Fixpoint acceptedStamps (events : list Event) : list Z :=
  match events with
  | [] => []
  | EvAccepted stamp :: events' => stamp :: acceptedStamps events'
  | _ :: events' => acceptedStamps events'
  end.

(** The arguments of the 503 branch's sleeps, in order. *)
Fixpoint backoffSleeps (events : list Event) : list Z :=
  match events with
  | [] => []
  | EvBackoffSleep d :: events' => d :: backoffSleeps events'
  | _ :: events' => backoffSleeps events'
  end.

(** Every two neighbours of [stamps] are at least [gap] apart. *)
Fixpoint spaced (gap : Z) (stamps : list Z) : Prop :=
  match stamps with
  | [] => True
  | s1 :: rest =>
      match rest with
      | [] => True
      | s2 :: _ => (gap <= s2 - s1)%Z /\ spaced gap rest
      end
  end.

(** *** Address comparison (post-processing after the batch joins) *)

(** The literal of [normalizeAddress], in the order it is written.  Go visits
    a map in an order it does not specify: [normalizeAddress] takes the order
    of the visit as an argument, a permutation of this list. *)
Definition replacements : list (string * string) :=
  [("ho chi minh city", "hcmc");
   ("ho chi minh", "hcmc");
   ("tp. ho chi minh", "hcmc");
   ("tp ho chi minh", "hcmc");
   ("thanh pho ho chi minh", "hcmc");
   ("quan", "q");
   ("phuong", "p");
   ("to", "t");
   ("ap", "a")].

(** [for strings.Contains(normalized, "  ") { normalized = strings.ReplaceAll(normalized, "  ", " ") }];
    every turn shortens the string, so [fuel = len(normalized)] turns are enough
    ([collapseSpaces_done] below). *)
Fixpoint collapseSpaces (fuel : nat) (normalized : string) : string :=
  match fuel with
  | O => normalized
  | S fuel' =>
      if strings.Contains normalized "  "
      then collapseSpaces fuel' (strings.ReplaceAll normalized "  " " ")
      else normalized
  end.

Definition normalizeAddress `{rt : GoRuntime} (order : list (string * string))
    (address : string) : string :=
  let normalized :=
    fold_left (fun normalized r => strings.ReplaceAll normalized (fst r) (snd r))
      order address in
  let normalized := strings.ReplaceAll normalized "," "" in
  let normalized := strings.ReplaceAll normalized "." "" in
  let normalized := strings.ReplaceAll normalized "-" "" in
  let normalized := strings.ReplaceAll normalized "_" "" in
  let normalized := collapseSpaces (String.length normalized) normalized in
  text.TrimSpace normalized.

(** The nested loops of [addressesMatch]: the words of [words1] that are
    longer than two bytes and occur in [words2]. *)
Definition countMatches (words1 words2 : list string) : Z :=
  fold_left
    (fun matches w1 =>
       if existsb (fun w2 => String.eqb w1 w2 && (2 <? strings.len w1)%Z) words2
       then (matches + 1)%Z
       else matches)
    words1 0%Z.

(** [order1] and [order2] are the map orders of the two [normalizeAddress]
    calls.  The test [float64(matches)/float64(maxWords) > 0.5] is written
    [2 * matches > maxWords]: both operands are word counts, far below 2^53,
    where the two tests agree. *)
Definition addressesMatch `{rt : GoRuntime} (order1 order2 : list (string * string))
    (address1 address2 : string) : bool :=
  let addr1 := text.ToLower (text.TrimSpace address1) in
  let addr2 := text.ToLower (text.TrimSpace address2) in
  if String.eqb addr1 addr2 then true else
  let addr1 := normalizeAddress order1 addr1 in
  let addr2 := normalizeAddress order2 addr2 in
  if String.eqb addr1 addr2 then true else
  if strings.Contains addr1 addr2 || strings.Contains addr2 addr1 then true else
  let words1 := text.Fields addr1 in
  let words2 := text.Fields addr2 in
  if (0 <? Z.of_nat (length words1))%Z && (0 <? Z.of_nat (length words2))%Z then
    let matches := countMatches words1 words2 in
    let maxWords := Z.of_nat (length words1) in
    let maxWords :=
      if (maxWords <? Z.of_nat (length words2))%Z then Z.of_nat (length words2) else maxWords in
    if (maxWords <? 2 * matches)%Z then true else false
  else false.

(** What one run of [CompareAddresses] meets outside the process. *)
Record CompareEnv `{rt : GoRuntime} := {
  (** [os.Getenv] *)
  cmp_getenv : string -> string;
  (** [client.AnalyzeDocument(ctx, prompt, SourceBusinessLicense)] *)
  cmp_analyze :
    GeminiClient -> string -> DocumentSource -> gmap string (JSON float64) + string;
  (** the order in which [range result] visits the entries *)
  cmp_range : gmap string (JSON float64) -> list (string * JSON float64);
  (** [fmt]'s [%v] of the result map *)
  cmp_fmt : gmap string (JSON float64) -> string;
  (** the map orders of the two [normalizeAddress] calls *)
  cmp_order1 : list (string * string);
  cmp_order2 : list (string * string)
}.

Section AddressComparison.
Context `{rt : GoRuntime}.

Abbreviation json := (JSON float64).

Definition dq : string := String (ascii_of_nat 34) EmptyString.

Definition comparePrompt (businessAddress billingAddress : string) : string :=
  "Compare these two addresses and determine if they refer to the same location:

Address 1: " ++ dq ++ businessAddress ++ dq ++ "
Address 2: " ++ dq ++ billingAddress ++ dq ++ "

Rules:
- BE GENEROUS in matching
- Ignore minor differences in formatting, abbreviations, punctuation, word order
- Consider these as MATCHES: " ++ dq ++ "Street" ++ dq ++ " vs " ++ dq ++ "St" ++ dq
  ++ ", " ++ dq ++ "District" ++ dq ++ " vs " ++ dq ++ "Dist" ++ dq
  ++ ", " ++ dq ++ "Ward" ++ dq ++ " vs " ++ dq ++ "W" ++ dq
  ++ ", " ++ dq ++ "Ho Chi Minh City" ++ dq ++ " vs " ++ dq ++ "HCMC" ++ dq ++ "
- Only return " ++ dq ++ "no" ++ dq ++ " if addresses clearly refer to different locations

Return ONLY: " ++ dq ++ "yes" ++ dq ++ " or " ++ dq ++ "no" ++ dq.

(** The first entry, in the order of the visit, that is the string yes or no
    in any letter case; the empty string when there is none. *)
Definition firstYesNo (entries : list (string * json)) : string :=
  match
    List.find
      (fun kv =>
         match snd kv with
         | JStr str =>
             String.eqb (text.ToLower str) "yes" || String.eqb (text.ToLower str) "no"
         | _ => false
         end)
      entries
  with
  | Some (_, JStr str) => str
  | _ => ""
  end.

(** [inl b]: the call answered [b]; [inr msg]: it returned the error [msg].
    [AnalyzeDocument] returns no nil map without an error, so the test
    [result == nil] has no case here. *)
Definition compareAddressesWithGemini (env : CompareEnv)
    (businessAddress billingAddress : string) : bool + string :=
  match NewGeminiClient (cmp_getenv env) with
  | inr err => inr ("failed to create Gemini client: " ++ err)
  | inl client =>
      match cmp_analyze env client (comparePrompt businessAddress billingAddress)
              SourceBusinessLicense with
      | inr err => inr ("failed to analyze addresses with Gemini: " ++ err)
      | inl result =>
          let response :=
            match asString (result !! "addresses_match") with
            | Some text => text
            | None =>
                match asString (result !! "result") with
                | Some text => text
                | None =>
                    match asString (result !! "match") with
                    | Some text => text
                    | None => firstYesNo (cmp_range env result)
                    end
                end
            end in
          let response := text.ToLower (text.TrimSpace response) in
          if String.eqb response "yes" || String.eqb response "true" || String.eqb response "1"
          then inl true
          else if String.eqb response "no" || String.eqb response "false"
                  || String.eqb response "0"
          then inl false
          else inr ("could not parse Gemini response: " ++ cmp_fmt env result)
      end
  end.

Definition withBillingAddressMatchesClient (check : CustomerCheck) (v : YesNo)
  : CustomerCheck :=
  withLand check
    {| EVN :=
         {| BillingAddress := BillingAddress (EVN (Land check));
            BillingAddressMatchesClient := v;
            BillingAmount := BillingAmount (EVN (Land check));
            BilledAmountsMatchExpenses := BilledAmountsMatchExpenses (EVN (Land check)) |};
       LandOwnership := LandOwnership (Land check) |}.

Definition CompareAddresses (env : CompareEnv) (check : CustomerCheck) : CustomerCheck :=
  let business := BusinessAddress (General (Corporate check)) in
  let billing := BillingAddress (EVN (Land check)) in
  if negb (String.eqb business "") && negb (String.eqb billing "") then
    match compareAddressesWithGemini env business billing with
    | inr _ =>
        if addressesMatch (cmp_order1 env) (cmp_order2 env) business billing
        then withBillingAddressMatchesClient check Yes
        else withBillingAddressMatchesClient check No
    | inl matches =>
        if matches
        then withBillingAddressMatchesClient check Yes
        else withBillingAddressMatchesClient check No
    end
  else check.

End AddressComparison.
End analysis.

(** ** Package [files]: the file classifier *)
Module files.

Inductive FileType : Type :=
| FileTypeUnknown
| FileTypeImage
| FileTypeText
| FileTypePDF
| FileTypeWord
| FileTypeExcel
| FileTypePowerPoint
| FileTypeArchive
| FileTypeVideo
| FileTypeAudio.

Definition FileType_String (t : FileType) : string :=
  match t with
  | FileTypeImage => "image"
  | FileTypeText => "text"
  | FileTypePDF => "pdf"
  | FileTypeWord => "word"
  | FileTypeExcel => "excel"
  | FileTypePowerPoint => "powerpoint"
  | FileTypeArchive => "archive"
  | FileTypeVideo => "video"
  | FileTypeAudio => "audio"
  | FileTypeUnknown => "unknown"
  end.

Definition hasPrefix (s prefix : string) : bool :=
  Nat.leb (String.length prefix) (String.length s)
  && String.eqb (substring 0 (String.length prefix) s) prefix.

(** [filepath.Ext] with [/] as the path separator: the suffix from the last
    dot of the last path element.  The second component tells that the scan
    from the right has stopped (at a dot or at a separator). *)
Fixpoint extScan (path : string) : string * bool :=
  match path with
  | EmptyString => ("", false)
  | String c r =>
      let '(e, stopped) := extScan r in
      if stopped then (e, true)
      else if Ascii.eqb c "/"%char then ("", true)
      else if Ascii.eqb c "."%char then (path, true)
      else ("", false)
  end.

Definition filepath_Ext (path : string) : string := fst (extScan path).

Definition oneOf (s : string) (l : list string) : bool := existsb (String.eqb s) l.

Definition DetectFileType (filename mediaType : string) : FileType :=
  let byExt :=
    let ext := filepath_Ext filename in
    if oneOf ext [".png"; ".jpg"; ".jpeg"; ".tif"; ".tiff"; ".bmp"; ".gif"; ".webp";
                  ".heic"; ".svg"; ".jfif"; ".pjpeg"; ".pjp"; ".ico"; ".cur"; ".tga";
                  ".psd"; ".raw"; ".cr2"; ".nef"; ".orf"; ".sr2"; ".dng"; ".arw";
                  ".rw2"; ".pef"; ".srw"; ".x3f"; ".mrw"; ".raf"; ".dcr"; ".kdc";
                  ".erf"; ".mef"; ".iiq"; ".3fr"; ".fff"; ".hdr"; ".exr"; ".dds";
                  ".ktx"; ".pkm"; ".pvr"; ".astc"]
    then FileTypeImage
    else if oneOf ext [".txt"; ".md"; ".csv"; ".json"; ".xml"; ".yaml"; ".yml"]
    then FileTypeText
    else if oneOf ext [".pdf"] then FileTypePDF
    else if oneOf ext [".doc"; ".docx"] then FileTypeWord
    else if oneOf ext [".xls"; ".xlsx"; ".xlsm"] then FileTypeExcel
    else if oneOf ext [".ppt"; ".pptx"; ".pptm"] then FileTypePowerPoint
    else if oneOf ext [".zip"; ".rar"; ".7z"; ".tar"; ".gz"; ".bz2"] then FileTypeArchive
    else if oneOf ext [".mp4"; ".avi"; ".mov"; ".wmv"; ".flv"; ".webm"; ".mkv"]
    then FileTypeVideo
    else if oneOf ext [".mp3"; ".wav"; ".flac"; ".aac"; ".ogg"; ".m4a"] then FileTypeAudio
    else FileTypeUnknown in
  if negb (String.eqb mediaType "") then
    if hasPrefix mediaType "image/" then FileTypeImage
    else if oneOf mediaType
              ["image/jpeg"; "image/jpg"; "image/png"; "image/gif"; "image/bmp";
               "image/webp"; "image/tiff"; "image/svg+xml"; "image/heic"; "image/heif";
               "image/avif"; "image/jxl"; "image/vnd.microsoft.icon"; "image/x-icon"]
    then FileTypeImage
    else if String.eqb mediaType "text/plain" then FileTypeText
    else if String.eqb mediaType "application/pdf" then FileTypePDF
    else if hasPrefix mediaType "application/vnd.openxmlformats-officedocument.wordprocessingml"
            || String.eqb mediaType "application/msword"
    then FileTypeWord
    else if hasPrefix mediaType "application/vnd.openxmlformats-officedocument.spreadsheetml"
            || String.eqb mediaType "application/vnd.ms-excel"
    then FileTypeExcel
    else if hasPrefix mediaType "application/vnd.openxmlformats-officedocument.presentationml"
            || String.eqb mediaType "application/vnd.ms-powerpoint"
    then FileTypePowerPoint
    else if hasPrefix mediaType "video/" then FileTypeVideo
    else if hasPrefix mediaType "audio/" then FileTypeAudio
    else if hasPrefix mediaType "application/zip"
            || hasPrefix mediaType "application/x-rar"
            || hasPrefix mediaType "application/x-7z"
    then FileTypeArchive
    else byExt
  else byExt.

Definition IsProcessableFileType (fileType : FileType) : bool :=
  match fileType with
  | FileTypeImage | FileTypeText | FileTypePDF
  | FileTypeWord | FileTypeExcel | FileTypePowerPoint => true
  | _ => false
  end.

End files.

(** ** Package [ocr] *)
Module ocr.

(** One entry of the [responses] array of the Vision API. *)
Record visionSingleResponse := {
  FullTextAnnotation_Text : string;
  TextAnnotations : list string;   (* the [Description] of each annotation *)
  Error_Message : string
}.

(** What one call of [ExtractTextFromImageVision] meets. *)
Inductive VisionHttp : Type :=
| VisionMarshalError (err : string)
| VisionBuildError (err : string)
| VisionDoError (err : string)
| VisionStatus (StatusCode : Z) (Status : string)
    (decoded : list visionSingleResponse + string).

Record OcrEnv := {
  ocr_getenv : string -> string;
  (** [os.ReadFile(imagePath)]: [inr msg] on error *)
  ocr_readimage : string -> unit + string;
  (** the HTTP exchange for the image at a path *)
  ocr_vision : string -> VisionHttp;
  (** [runPdfToText]'s [cmd.Run]: the standard output, or the error with the
      standard error output *)
  ocr_pdftotext : string -> string + (string * string);
  (** [os.MkdirTemp] *)
  ocr_mkdirtemp : string + string;
  (** [pdftoppm] at a resolution, for a PDF, to a prefix: [Some (err, stderr)]
      when [cmd.Run] fails *)
  ocr_pdftoppm : Z -> string -> string -> option (string * string);
  (** [filepath.Glob(pattern)] after the run at a resolution *)
  ocr_glob : Z -> string -> list string + string;
  (** [tesseract]'s [cmd.Run] for an image and a language: the standard
      output, or the error with the standard error output *)
  ocr_tesseract : string -> string -> string + (string * string)
}.

Section Ocr.
Context `{rt : GoRuntime}.

Definition ExtractTextFromImageVision (env : OcrEnv) (imagePath lang : string)
  : string + string :=
  let apiKey := strings.TrimSpace (ocr_getenv env "GOOGLE_VISION_API_KEY") in
  if String.eqb apiKey "" then
    inr "GOOGLE_VISION_API_KEY is not set; set it in your environment or .env"
  else if String.eqb imagePath "" then inr "image path is empty"
  else
    match ocr_readimage env imagePath with
    | inr err => inr ("read image: " ++ err)
    | inl _ =>
        match ocr_vision env imagePath with
        | VisionMarshalError err => inr ("marshal request: " ++ err)
        | VisionBuildError err => inr ("build http request: " ++ err)
        | VisionDoError err => inr ("vision request: " ++ err)
        | VisionStatus code status decoded =>
            if (code <? 200)%Z || (300 <=? code)%Z then inr ("vision http error: " ++ status)
            else
              match decoded with
              | inr err => inr ("decode response: " ++ err)
              | inl [] => inr "vision: empty response"
              | inl (res :: _) =>
                  if negb (String.eqb (Error_Message res) "") then
                    inr ("vision error: " ++ Error_Message res)
                  else if negb (String.eqb (FullTextAnnotation_Text res) "") then
                    inl (FullTextAnnotation_Text res)
                  else
                    match TextAnnotations res with
                    | d :: _ =>
                        if negb (String.eqb (strings.TrimSpace d) "") then inl d else inl ""
                    | [] => inl ""
                    end
              end
        end
    end.

(** [tesseractLangToBCP47Hints]: the language hints sent to Vision.  A nil
    slice and an empty one are both the empty list. *)
Definition tesseractLangToBCP47Hints (lang : string) : list string :=
  let lang := strings.TrimSpace lang in
  if String.eqb lang "" then []
  else
    let parts :=
      strings.FieldsFunc
        (fun r => Ascii.eqb r "+"%char || Ascii.eqb r ","%char
                  || Ascii.eqb r ";"%char || Ascii.eqb r " "%char) lang in
    fold_left
      (fun hints p =>
         let p := strings.ToLower (strings.TrimSpace p) in
         if String.eqb p "" then hints
         else
           match
             analysis.switchOr
               [("eng", Some "en"); ("vie", Some "vi"); ("vin", Some "vi");
                ("jpn", Some "ja"); ("zho", Some "zh"); ("chi_sim", Some "zh");
                ("chi_tra", Some "zh"); ("spa", Some "es"); ("fra", Some "fr");
                ("fre", Some "fr"); ("deu", Some "de"); ("ger", Some "de");
                ("ita", Some "it"); ("rus", Some "ru"); ("ara", Some "ar");
                ("hin", Some "hi"); ("tha", Some "th"); ("kor", Some "ko");
                ("por", Some "pt")]
               p None
           with
           | Some hint => (hints ++ [hint])%list
           | None =>
               if (strings.len p =? 2)%Z || (strings.len p =? 3)%Z
               then (hints ++ [p])%list
               else hints
           end)
      parts [].

(** [sort.Strings]: insertion into a sorted list. *)
Fixpoint insertSorted (s : string) (l : list string) : list string :=
  match l with
  | [] => [s]
  | t :: l' => if strings.ltb t s then t :: insertSorted s l' else s :: l
  end.

Definition sort_Strings (l : list string) : list string :=
  fold_right insertSorted [] l.

(** The page loop of [ExtractTextFromPDFVision]; [b] is the builder's content. *)
Fixpoint ocrPages (env : OcrEnv) (images : list string) (lang : string) (b : string)
  : string :=
  match images with
  | [] => b
  | img :: images' =>
      match ExtractTextFromImageVision env img lang with
      | inr _ => ocrPages env images' lang b
      | inl text =>
          let s := strings.TrimSpace text in
          if negb (String.eqb s "") then
            let b := if (0 <? strings.len b)%Z
                     then b ++ String (ascii_of_nat 10) (String (ascii_of_nat 10) EmptyString)
                     else b in
            ocrPages env images' lang (b ++ s)
          else ocrPages env images' lang b
      end
  end.

Definition ExtractTextFromPDFVision (env : OcrEnv) (pdfPath lang : string) (dpi : Z)
  : string + string :=
  let apiKey := strings.TrimSpace (ocr_getenv env "GOOGLE_VISION_API_KEY") in
  if String.eqb apiKey "" then
    inr "GOOGLE_VISION_API_KEY is not set; set it in your environment or .env"
  else
    match ocr_mkdirtemp env with
    | inr err => inr ("ocr fallback: mkdir temp: " ++ err)
    | inl tmpDir =>
        let dpi := if (dpi <=? 0)%Z then 300%Z else dpi in
        let prefix := filepath_Join tmpDir "page" in
        match ocr_pdftoppm env dpi pdfPath prefix with
        | Some (err, stderr) =>
            inr ("pdftoppm error: " ++ err ++ ": " ++ strings.TrimSpace stderr)
        | None =>
            match ocr_glob env dpi (prefix ++ "-*.png") with
            | inr err => inr ("ocr fallback: glob images: " ++ err)
            | inl [] => inr "ocr fallback: no images produced from PDF"
            | inl images => inl (ocrPages env (sort_Strings images) lang "")
            end
        end
    end.

Definition runPdfToText (env : OcrEnv) (pdfPath : string) : string + string :=
  match ocr_pdftotext env pdfPath with
  | inr (err, stderr) => inr ("pdftotext error: " ++ err ++ ": " ++ strings.TrimSpace stderr)
  | inl stdout => inl stdout
  end.

Definition ExtractTextFromPDF (env : OcrEnv) (pdfPath lang : string) (dpi : Z)
  : string + string :=
  match runPdfToText env pdfPath with
  | inl txt =>
      if (10 <? strings.len (strings.TrimSpace txt))%Z then inl txt
      else
        let dpi := if (dpi <=? 0)%Z then 300%Z else dpi in
        ExtractTextFromPDFVision env pdfPath lang dpi
  | inr _ =>
      let dpi := if (dpi <=? 0)%Z then 300%Z else dpi in
      ExtractTextFromPDFVision env pdfPath lang dpi
  end.

(** The language [ExtractTextFromImageTesseract] passes to the binary. *)
Definition tesseractLang (lang : string) : string :=
  if negb (String.eqb lang "") then
    match strings.FieldsFunc
            (fun r => Ascii.eqb r "+"%char || Ascii.eqb r ","%char
                      || Ascii.eqb r ";"%char || Ascii.eqb r " "%char) lang with
    | part :: _ =>
        analysis.switchOr
          [("vie", "vie"); ("vin", "vie"); ("jpn", "jpn"); ("chi_sim", "chi_sim");
           ("chi_tra", "chi_tra"); ("spa", "spa"); ("fra", "fra"); ("fre", "fra");
           ("deu", "deu"); ("ger", "deu"); ("ita", "ita"); ("rus", "rus");
           ("ara", "ara"); ("hin", "hin"); ("tha", "tha"); ("kor", "kor");
           ("por", "por")]
          (strings.ToLower part) "eng"
    | [] => "eng"
    end
  else "eng".

Definition ExtractTextFromImageTesseract (env : OcrEnv) (imagePath lang : string)
  : string + string :=
  if String.eqb imagePath "" then inr "image path is empty"
  else
    match ocr_tesseract env imagePath (tesseractLang lang) with
    | inr (err, stderr) => inr ("tesseract error: " ++ err ++ ", stderr: " ++ stderr)
    | inl stdout =>
        let text := strings.TrimSpace stdout in
        if String.eqb text "" then inr "no text extracted from image" else inl text
    end.

End Ocr.
End ocr.

(** ** Package [types] *)
Module types.

Record FileResult := {
  SourceURL : string;
  LocalPath : string;
  FileName : string;
  FileType : string;
  ExtractedText : string;
  Error : string;
  ProcessedAt : Z;
  ProcessingTime : Z;
  FileSize : Z;
  DocumentSource : string
}.

Record BatchResult := {
  TotalFiles : Z;
  ProcessedFiles : Z;
  FailedFiles : Z;
  SkippedFiles : Z;
  Results : list FileResult;
  StartTime : Z;
  EndTime : Z;
  TotalDuration : Z;
  CustomerCheck : models.CustomerCheck
}.

End types.

(** ** Package [batch] *)
Module batch.

Record ProgressUpdate := {
  CurrentFile : Z;
  TotalFiles : Z;
  CurrentFileURL : string;
  Status : string;
  Error : option string
}.

(** [ProgressChan] is [None] for a nil channel and [Some n] for a channel
    with a buffer of [n] updates; what the buffer holds is part of the state
    of a run. *)
Record Processor := {
  MaxConcurrency : Z;
  SkipAnalysis : bool;
  Lang : string;
  DPI : Z;
  Source : analysis.DocumentSource;
  ProgressChan : option nat
}.

Definition NewProcessor (maxConcurrency : Z) (skipAnalysis : bool) (lang : string)
    (dpi : Z) (source : analysis.DocumentSource) : Processor :=
  let maxConcurrency := if (maxConcurrency <=? 0)%Z then 3%Z else maxConcurrency in
  {| MaxConcurrency := maxConcurrency;
     SkipAnalysis := skipAnalysis;
     Lang := lang;
     DPI := dpi;
     Source := source;
     ProgressChan := Some 100%nat |}.

(** What [xfer.DownloadToTemp] returns. *)
Record Download := {
  d_localPath : string;
  d_sourceURL : string;
  d_filename : string;
  d_mediaType : string;
  d_err : option string
}.

(** What one task meets outside the process. *)
Record TaskEnv `{rt : GoRuntime} := {
  t_download : Download;
  (** [os.Stat(localPath)]: the size, [None] on error *)
  t_stat : option Z;
  t_ocr : ocr.OcrEnv;
  (** [cmd.Run] of ImageMagick's [convert] and of [ffmpeg]: [Some msg] on error *)
  t_convert : option string;
  t_ffmpeg : option string;
  (** [os.Stat(convertedPath)]: the size, [None] on error *)
  t_converted_stat : option Z;
  (** [os.ReadFile(localPath)] *)
  t_readfile : string + string;
  t_getenv : string -> string;
  (** [client.AnalyzeDocument(ctx, text, source)] *)
  t_analyze :
    analysis.GeminiClient -> string -> analysis.DocumentSource
    -> gmap string (JSON float64) + string;
  (** the two readings of the clock when the result is built *)
  t_processedAt : Z;
  t_processingTime : Z
}.

(** The calls of the image branch to OCR engines and converters, in order. *)
Inductive Call : Type :=
| CallVision (imagePath : string)
| CallImageMagick (imagePath : string)
| CallFfmpeg (imagePath : string)
| CallTesseract (imagePath : string).

Section Batch.
Context `{rt : GoRuntime}.

Definition sentinelText : string :=
  "No signboard visible or signboard unclear in site visit photos".

(** A Go pair [(text, err)] from a call whose error paths return [""]. *)
Definition textErr (r : string + string) : string * option string :=
  match r with
  | inl text => (text, None)
  | inr err => ("", Some err)
  end.

Definition convertImageToStandardFormat (env : TaskEnv) (imagePath : string)
  : (string + string) * list Call :=
  let tmpDir := filepath_Dir imagePath in
  let convertedPath :=
    filepath_Join tmpDir ("converted_" ++ filepath_Base imagePath ++ ".png") in
  let checked : string + string :=
    match t_converted_stat env with
    | Some size =>
        if (size =? 0)%Z then inr "converted image file is empty or doesn't exist"
        else inl convertedPath
    | None => inr "converted image file is empty or doesn't exist"
    end in
  match t_convert env with
  | None => (checked, [CallImageMagick imagePath])
  | Some _ =>
      match t_ffmpeg env with
      | None => (checked, [CallImageMagick imagePath; CallFfmpeg imagePath])
      | Some err =>
          (inr ("image conversion failed: " ++ err),
           [CallImageMagick imagePath; CallFfmpeg imagePath])
      end
  end.

(** Lines 233-270, the [files.FileTypeImage] case. *)
Definition extractImage (p : Processor) (env : TaskEnv) (localPath : string)
    (source : analysis.DocumentSource) : string * option string * list Call :=
  let '(text, extractErr) :=
    textErr (ocr.ExtractTextFromImageVision (t_ocr env) localPath (Lang p)) in
  let log := [CallVision localPath] in
  match extractErr with
  | Some err0 =>
      if strings.Contains err0 "Bad image data" then
        let '(converted, clog) := convertImageToStandardFormat env localPath in
        let log := (log ++ clog)%list in
        let '(text, extractErr, log) :=
          match converted with
          | inl convertedPath =>
              if negb (String.eqb convertedPath "") then
                let '(text, extractErr) :=
                  textErr (ocr.ExtractTextFromImageVision (t_ocr env) convertedPath (Lang p)) in
                (text, extractErr, (log ++ [CallVision convertedPath])%list)
              else (text, extractErr, log)
          | inr _ => (text, extractErr, log)
          end in
        let '(text, extractErr, log) :=
          match extractErr with
          | Some _ =>
              let log := (log ++ [CallTesseract localPath])%list in
              match ocr.ExtractTextFromImageTesseract (t_ocr env) localPath (Lang p) with
              | inl tesseractText =>
                  if negb (String.eqb (strings.TrimSpace tesseractText) "")
                  then (tesseractText, None, log)
                  else (text, extractErr, log)
              | inr _ => (text, extractErr, log)
              end
          | None => (text, extractErr, log)
          end in
        match extractErr with
        | Some err =>
            if String.eqb source analysis.SourceSiteVisitPhotos then
              (sentinelText, None, log)
            else
              (text,
               Some ("image file appears to be corrupted or in an unsupported format, tried multiple processing methods: "
                     ++ err),
               log)
        | None => (text, None, log)
        end
      else (text, extractErr, log)
  | None => (text, extractErr, log)
  end.

(** The file type the task is processed as (lines 221-226). *)
Definition taskFileType (filename mediaType : string) (source : analysis.DocumentSource)
  : files.FileType :=
  let ft := files.DetectFileType filename mediaType in
  match ft with
  | files.FileTypeUnknown =>
      if String.eqb source analysis.SourceSiteVisitPhotos then files.FileTypeImage else ft
  | _ => ft
  end.

(** Lines 228-286: the text and the error of the extraction, with the calls made. *)
Definition extractText (p : Processor) (env : TaskEnv) (localPath : string)
    (ft : files.FileType) (source : analysis.DocumentSource)
  : string * option string * list Call :=
  if negb (files.IsProcessableFileType ft) then
    ("", Some ("unsupported file type: " ++ files.FileType_String ft), [])
  else
    match ft with
    | files.FileTypeImage => extractImage p env localPath source
    | files.FileTypeText =>
        match t_readfile env with
        | inr err => ("", Some err, [])
        | inl b => (b, None, [])
        end
    | files.FileTypePDF =>
        let '(text, extractErr) :=
          textErr (ocr.ExtractTextFromPDF (t_ocr env) localPath (Lang p) (DPI p)) in
        (text, extractErr, [])
    | files.FileTypeWord | files.FileTypeExcel | files.FileTypePowerPoint =>
        ("",
         Some ("office document processing not yet implemented for "
               ++ files.FileType_String ft),
         [])
    | _ => ("", Some ("unsupported file type: " ++ files.FileType_String ft), [])
    end.

(** [processOneFileWithSource] with a non-nil [checkMutex]: the result, the
    aggregate after the call (the merge is the only write to [check]), and
    the calls of the image branch. *)
Definition processOneFileWithSource (p : Processor) (env : TaskEnv) (input : string)
    (check : models.CustomerCheck) (source : analysis.DocumentSource)
  : types.FileResult * models.CustomerCheck * list Call :=
  let d := t_download env in
  match d_err d with
  | Some err =>
      ({| types.SourceURL := d_sourceURL d;
          types.LocalPath := "";
          types.FileName := d_filename d;
          types.FileType := d_mediaType d;
          types.ExtractedText := "";
          types.Error := err;
          types.ProcessedAt := t_processedAt env;
          types.ProcessingTime := t_processingTime env;
          types.FileSize := 0;
          types.DocumentSource := "" |},
       check, [])
  | None =>
      let localPath := d_localPath d in
      let fileSize := match t_stat env with Some size => size | None => 0%Z end in
      let ft := taskFileType (d_filename d) (d_mediaType d) source in
      let '(text, extractErr, log) := extractText p env localPath ft source in
      let res (error : string) : types.FileResult :=
        {| types.SourceURL := d_sourceURL d;
           types.LocalPath := localPath;
           types.FileName := d_filename d;
           types.FileType := files.FileType_String ft;
           types.ExtractedText := text;
           types.Error := error;
           types.ProcessedAt := t_processedAt env;
           types.ProcessingTime := t_processingTime env;
           types.FileSize := fileSize;
           types.DocumentSource := source |} in
      let error := match extractErr with Some err => err | None => "" end in
      if negb (String.eqb text "") && negb (SkipAnalysis p) then
        match analysis.NewGeminiClient (t_getenv env) with
        | inr clientErr =>
            (res ("Gemini client initialization error: " ++ clientErr), check, log)
        | inl client =>
            match t_analyze env client text source with
            | inr err => (res ("Gemini analysis error: " ++ err), check, log)
            | inl extractedData =>
                (res error, analysis.UpdateCustomerCheck check extractedData source, log)
            end
        end
      else (res error, check, log)
  end.


(** *** The scheduler of [ProcessFilesWithSources]

    Every input gets a goroutine.  A goroutine is at one of five places; the
    steps between them are the blocking operations of lines 85-133. *)
Inductive Pc : Type :=
| PcSpawned                               (* before [semaphore <- struct{}{}] *)
| PcAcquired                              (* before the "processing" update *)
| PcAnnounced                             (* before [processOneFileWithSource] *)
| PcProcessed (result : types.FileResult) (* result sent; before the completion update *)
| PcDone.                                 (* slot released, [wg.Done()] called *)

Record Run := {
  r_pcs : list Pc;
  (** the number of slots taken in [semaphore] *)
  r_semaphore : nat;
  (** the buffer of [p.ProgressChan] *)
  r_progress : list ProgressUpdate;
  (** the updates a reader has received from [p.ProgressChan] *)
  r_delivered : list ProgressUpdate;
  (** the buffer of [resultsChan]; its capacity is [len(inputs)] *)
  r_results : list types.FileResult;
  (** the shared [check], written under [checkMutex] *)
  r_check : models.CustomerCheck;
  (** the calls of the image branches *)
  r_calls : list Call
}.

(** What the scheduler of the Go runtime and the reader of the progress
    channel do next: goroutine [index] takes its next step, or the reader
    receives one update. *)
Inductive Action : Type :=
| Go (index : nat)
| Recv.

(** [p.ProgressChan <- u], skipped for a nil channel; [None] while the
    buffer is full. *)
Definition sendProgress (p : Processor) (u : ProgressUpdate) (st : Run) : option Run :=
  match ProgressChan p with
  | None => Some st
  | Some cap =>
      if Nat.ltb (length (r_progress st)) cap then
        Some {| r_pcs := r_pcs st; r_semaphore := r_semaphore st;
                r_progress := (r_progress st ++ [u])%list;
                r_delivered := r_delivered st; r_results := r_results st;
                r_check := r_check st; r_calls := r_calls st |}
      else None
  end.

Definition setPc (index : nat) (pc : Pc) (st : Run) : Run :=
  {| r_pcs := <[index := pc]> (r_pcs st); r_semaphore := r_semaphore st;
     r_progress := r_progress st; r_delivered := r_delivered st;
     r_results := r_results st; r_check := r_check st; r_calls := r_calls st |}.

Definition fileSourceOf (p : Processor)
    (fileSources : option (gmap string analysis.DocumentSource)) (inputURL : string)
  : analysis.DocumentSource :=
  match fileSources with
  | Some m =>
      match m !! inputURL with
      | Some specificSource => specificSource
      | None => Source p
      end
  | None => Source p
  end.

(** The completion update.  The code passes [result.Error] to [fmt.Errorf]
    as a format; the text is taken as it is here. *)
Definition completionUpdate (index : nat) (total : Z) (inputURL : string)
    (result : types.FileResult) : ProgressUpdate :=
  let failed := negb (String.eqb (types.Error result) "") in
  {| CurrentFile := Z.of_nat index + 1;
     TotalFiles := total;
     CurrentFileURL := inputURL;
     Status := if failed then "failed" else "completed";
     Error := if failed then Some (types.Error result) else None |}.

(** One step; [None] when the step is blocked (or there is nothing to do). *)
Definition step (p : Processor) (inputs : list string)
    (fileSources : option (gmap string analysis.DocumentSource))
    (envs : nat -> TaskEnv) (st : Run) (a : Action) : option Run :=
  match a with
  | Recv =>
      match r_progress st with
      | [] => None
      | u :: rest =>
          Some {| r_pcs := r_pcs st; r_semaphore := r_semaphore st;
                  r_progress := rest; r_delivered := (r_delivered st ++ [u])%list;
                  r_results := r_results st; r_check := r_check st;
                  r_calls := r_calls st |}
      end
  | Go index =>
      match inputs !! index, r_pcs st !! index with
      | Some inputURL, Some PcSpawned =>
          if (Z.of_nat (r_semaphore st) <? MaxConcurrency p)%Z then
            Some {| r_pcs := <[index := PcAcquired]> (r_pcs st);
                    r_semaphore := S (r_semaphore st);
                    r_progress := r_progress st; r_delivered := r_delivered st;
                    r_results := r_results st; r_check := r_check st;
                    r_calls := r_calls st |}
          else None
      | Some inputURL, Some PcAcquired =>
          match
            sendProgress p
              {| CurrentFile := Z.of_nat index + 1;
                 TotalFiles := Z.of_nat (length inputs);
                 CurrentFileURL := inputURL;
                 Status := "processing";
                 Error := None |} st
          with
          | Some st => Some (setPc index PcAnnounced st)
          | None => None
          end
      | Some inputURL, Some PcAnnounced =>
          let fileSource := fileSourceOf p fileSources inputURL in
          let '(result, check, calls) :=
            processOneFileWithSource p (envs index) inputURL (r_check st) fileSource in
          Some {| r_pcs := <[index := PcProcessed result]> (r_pcs st);
                  r_semaphore := r_semaphore st;
                  r_progress := r_progress st; r_delivered := r_delivered st;
                  r_results := (r_results st ++ [result])%list;
                  r_check := check;
                  r_calls := (r_calls st ++ calls)%list |}
      | Some inputURL, Some (PcProcessed result) =>
          match
            sendProgress p
              (completionUpdate index (Z.of_nat (length inputs)) inputURL result) st
          with
          | Some st =>
              Some {| r_pcs := <[index := PcDone]> (r_pcs st);
                      r_semaphore := pred (r_semaphore st);
                      r_progress := r_progress st; r_delivered := r_delivered st;
                      r_results := r_results st; r_check := r_check st;
                      r_calls := r_calls st |}
          | None => None
          end
      | _, _ => None
      end
  end.

(** A schedule is run action by action; a blocked action leaves the state as it is. *)
Fixpoint run (p : Processor) (inputs : list string)
    (fileSources : option (gmap string analysis.DocumentSource))
    (envs : nat -> TaskEnv) (sched : list Action) (st : Run) : Run :=
  match sched with
  | [] => st
  | a :: sched' =>
      match step p inputs fileSources envs st a with
      | Some st' => run p inputs fileSources envs sched' st'
      | None => run p inputs fileSources envs sched' st
      end
  end.

Definition isDone (pc : Pc) : bool :=
  match pc with PcDone => true | _ => false end.

(** Lines 157-170. *)
Definition countStats (results : list types.FileResult) : Z * Z * Z :=
  fold_left
    (fun '(processedFiles, failedFiles, skippedFiles) result =>
       if negb (String.eqb (types.Error result) "") then
         (processedFiles, failedFiles + 1, skippedFiles)%Z
       else if String.eqb (types.ExtractedText result) "" then
         (processedFiles, failedFiles, skippedFiles + 1)%Z
       else (processedFiles + 1, failedFiles, skippedFiles)%Z)
    results (0, 0, 0)%Z.

Definition initialRun (n : nat) (now_ : Z) : Run :=
  {| r_pcs := replicate n PcSpawned;
     r_semaphore := 0;
     r_progress := [];
     r_delivered := [];
     r_results := [];
     r_check :=
       {| models.CheckCompletedAt := Some now_;
          models.Corporate := models.Corporate models.zeroCustomerCheck;
          models.Land := models.Land models.zeroCustomerCheck;
          models.Financial := models.Financial models.zeroCustomerCheck;
          models.Additional := models.Additional models.zeroCustomerCheck |};
     r_calls := [] |}.

(** [ProcessFilesWithSources] under a schedule: [wg.Wait()] returns, the
    channels are closed and the results collected once every goroutine is
    done; [None] when the schedule ends before that, the function having
    not returned.  [errorChan] is never sent to.  [startTime], [now_] and
    [endTime] are the readings of the clock. *)
Definition ProcessFilesWithSources (p : Processor) (inputs : list string)
    (fileSources : option (gmap string analysis.DocumentSource))
    (envs : nat -> TaskEnv) (cmp : analysis.CompareEnv)
    (startTime now_ endTime : Z) (sched : list Action) : option types.BatchResult :=
  let st := run p inputs fileSources envs sched (initialRun (length inputs) now_) in
  if forallb isDone (r_pcs st) then
    let results := r_results st in
    let '(processedFiles, failedFiles, skippedFiles) := countStats results in
    Some {| types.TotalFiles := Z.of_nat (length inputs);
            types.ProcessedFiles := processedFiles;
            types.FailedFiles := failedFiles;
            types.SkippedFiles := skippedFiles;
            types.Results := results;
            types.StartTime := startTime;
            types.EndTime := endTime;
            types.TotalDuration := analysis.time_Sub endTime startTime;
            types.CustomerCheck := analysis.CompareAddresses cmp (r_check st) |}
  else None.

(** The schedule that runs the goroutines one after the other, a reader
    taking every update as soon as it is sent. *)
Fixpoint sequentialSchedule (from n : nat) : list Action :=
  match n with
  | O => []
  | S n' =>
      [Go from; Go from; Recv; Go from; Go from; Recv] ++ sequentialSchedule (S from) n'
  end%list.


(** *** The merge under [checkMutex] (lines 304-330)

    The tail of [processOneFileWithSource] for every task of a batch, as
    threads over the shared [check].  [UpdateCustomerCheck] is taken as a
    load of the record followed by a store of the updated record, so that a
    merge is indivisible only through the mutex. *)
Inductive MergePc : Type :=
| MAnalyzing                              (* in [client.AnalyzeDocument]: network I/O *)
| MWaiting                                (* before [checkMutex.Lock()] *)
| MLocked                                 (* holds the mutex; before the load *)
| MLoaded (local : models.CustomerCheck)  (* holds the mutex; before the store *)
| MStored                                 (* holds the mutex; before [checkMutex.Unlock()] *)
| MFinished                               (* returned after its merge *)
| MFailed.                                (* returned with "Gemini analysis error" *)

Record MergeTask := {
  (** what [client.AnalyzeDocument] returns to the task *)
  m_analysis : gmap string (JSON float64) + string;
  m_source : analysis.DocumentSource
}.

Record MergeState := {
  m_pcs : list MergePc;
  (** the holder of [checkMutex] *)
  m_mutex : option nat;
  m_check : models.CustomerCheck
}.

Definition mergeStep (tasks : list MergeTask) (st : MergeState) (i : nat)
  : option MergeState :=
  match tasks !! i, m_pcs st !! i with
  | Some task, Some MAnalyzing =>
      Some {| m_pcs :=
                <[i := match m_analysis task with inl _ => MWaiting | inr _ => MFailed end]>
                  (m_pcs st);
              m_mutex := m_mutex st; m_check := m_check st |}
  | Some task, Some MWaiting =>
      match m_mutex st with
      | None =>
          Some {| m_pcs := <[i := MLocked]> (m_pcs st);
                  m_mutex := Some i; m_check := m_check st |}
      | Some _ => None
      end
  | Some task, Some MLocked =>
      Some {| m_pcs := <[i := MLoaded (m_check st)]> (m_pcs st);
              m_mutex := m_mutex st; m_check := m_check st |}
  | Some task, Some (MLoaded local) =>
      match m_analysis task with
      | inl extractedData =>
          Some {| m_pcs := <[i := MStored]> (m_pcs st);
                  m_mutex := m_mutex st;
                  m_check := analysis.UpdateCustomerCheck local extractedData (m_source task) |}
      | inr _ => None
      end
  | Some task, Some MStored =>
      Some {| m_pcs := <[i := MFinished]> (m_pcs st);
              m_mutex := None; m_check := m_check st |}
  | _, _ => None
  end.

Fixpoint mergeRun (tasks : list MergeTask) (sched : list nat) (st : MergeState)
  : MergeState :=
  match sched with
  | [] => st
  | i :: sched' =>
      match mergeStep tasks st i with
      | Some st' => mergeRun tasks sched' st'
      | None => mergeRun tasks sched' st
      end
  end.

Definition mergeInit (tasks : list MergeTask) (check : models.CustomerCheck) : MergeState :=
  {| m_pcs := replicate (length tasks) MAnalyzing; m_mutex := None; m_check := check |}.

Definition holdsMutex (pc : MergePc) : bool :=
  match pc with
  | MLocked | MLoaded _ | MStored => true
  | _ => false
  end.

Definition isReturned (pc : MergePc) : bool :=
  match pc with
  | MFinished | MFailed => true
  | _ => false
  end.

End Batch.
End batch.

(** ** Vocabulary of the statements *)
Module spec.

(** The seven kinds [UpdateCustomerCheck] has a case for. *)
Definition mappedKinds : list analysis.DocumentSource :=
  [analysis.SourceBusinessLicense; analysis.SourceEVNBill;
   analysis.SourceLandCertificate; analysis.SourceIDCheck;
   analysis.SourceSiteVisitPhotos; analysis.SourceFinancialStatement;
   analysis.SourceCICReport].

(** The number of opening brackets of [s] minus the number of closing ones. *)
Fixpoint depth (openChar closeChar : ascii) (s : string) : Z :=
  match s with
  | EmptyString => 0%Z
  | String ch r =>
      ((if Ascii.eqb ch openChar then 1
        else if Ascii.eqb ch closeChar then -1 else 0)
       + depth openChar closeChar r)%Z
  end.

(** [p] is one block [openChar ... closeChar] whose brackets of that kind
    nest: inside, no prefix closes more than it opens, and the whole of the
    inside closes as many as it opens. *)
Definition balancedBlock (openChar closeChar : ascii) (p : string) : Prop :=
  exists body,
    p = String openChar (body ++ String closeChar EmptyString)
    /\ depth openChar closeChar body = 0%Z
    /\ forall q r, body = q ++ r -> (0 <= depth openChar closeChar q)%Z.

(** No byte of [s] opens an object or an array. *)
Fixpoint bracketFree (s : string) : Prop :=
  match s with
  | EmptyString => True
  | String ch r => ch <> "{"%char /\ ch <> "["%char /\ bracketFree r
  end.

(** The two kinds of brackets the scanner pairs. *)
Definition bracketPair (openChar closeChar : ascii) : Prop :=
  (openChar = "{"%char /\ closeChar = "}"%char)
  \/ (openChar = "["%char /\ closeChar = "]"%char).

(** The content holds the block, with nothing that opens a bracket before it. *)
Definition shape (o c : ascii) (body content : string) : Prop :=
  exists pre rest,
    content = (pre ++ String o (body ++ String c rest))%string /\ bracketFree pre.

(** The key [fmt.Sprintf("item_%d", i)]. *)
Definition itemKey (i : nat) : string := "item_" ++ pretty i.

(** A line feed. *)
Definition nl : string := String (ascii_of_nat 10) EmptyString.

(** The test of the inner loop of [addressesMatch] for one word of the first list. *)
Definition sharedWith (words2 : list string) (w1 : string) : bool :=
  existsb (fun w2 => String.eqb w1 w2 && (2 <? strings.len w1)%Z) words2.

(** The words the shared-word step can count: those longer than two bytes. *)
Definition longWords (words : list string) : list string :=
  List.filter (fun w => (2 <? strings.len w)%Z) words.

(** The last element of a clean path with a directory part, and the path
    before it. *)
Fixpoint pathBase (path : string) : string :=
  match path with
  | EmptyString => EmptyString
  | String ch r =>
      if strings.Contains r "/" then pathBase r
      else if Ascii.eqb ch "/" then r else path
  end.

Definition pathDir (path : string) : string :=
  substring 0 (String.length path - String.length (pathBase path) - 1) path.

(** A runtime to compute examples with: numbers are integers, no text is a
    date or a duration, the only JSON text is the array of 7 and 8, paths
    are clean and have a directory part, and the examples hold ASCII text
    only (text beyond ASCII would be read byte by byte). *)
Definition demoRuntime : GoRuntime :=
  {| float64 := Z;
     float64_to_int64 := fun f => f;
     float64_pos := Z.ltb 0;
     time_Parse := fun _ _ => None;
     time_ParseDuration := fun _ => None;
     json_Unmarshal :=
       fun s =>
         if String.eqb s "[7, 8]" then inl (JArr [JNum 7%Z; JNum 8%Z])
         else inr "invalid character";
     json_retryDelays := fun _ => None;
     json_GeminiResponse := fun _ => inr "EOF";
     filepath_Dir := pathDir;
     filepath_Base := pathBase;
     filepath_Join := fun dir name => dir ++ "/" ++ name;
     unicode_ToLower := strings.ToLower;
     unicode_TrimSpace := strings.TrimSpace;
     unicode_Fields := strings.Fields |}.

(** An environment in which no Gemini client can be made (the key is not
    set), with the map orders of the literal. *)
Definition offlineCompareEnv : analysis.CompareEnv (rt := demoRuntime) :=
  {| analysis.cmp_getenv := fun _ => "";
     analysis.cmp_analyze := fun _ _ _ => inr "unreachable";
     analysis.cmp_range := fun _ => [];
     analysis.cmp_fmt := fun _ => "";
     analysis.cmp_order1 := analysis.replacements;
     analysis.cmp_order2 := analysis.replacements |}.

(** The aggregate after a business license and a bill with the given addresses. *)
Definition checkWithAddresses (business billing : string)
  : models.CustomerCheck :=
  analysis.UpdateCustomerCheck (rt := demoRuntime)
    (analysis.UpdateCustomerCheck (rt := demoRuntime) models.zeroCustomerCheck
       {[ "business_address" := JStr business ]} analysis.SourceBusinessLicense)
    {[ "billing_address" := JStr billing ]} analysis.SourceEVNBill.

(** The answer to an attempt is an HTTP 503. *)
Definition is503 (a : analysis.Attempt) : Prop :=
  exists resp, analysis.outcome a = analysis.Response resp /\ analysis.StatusCode resp = 503%Z.

(** The limiter after an attempt that ends in a retry sleep of [d]. *)
Definition afterRetry (a : analysis.Attempt) (d : Z) (st : analysis.Limiter) : analysis.Limiter :=
  analysis.restamp
    (analysis.time_Sleep d (analysis.sleep_over a)
       (analysis.advance (Z.of_N (analysis.rtt a)) (fst (analysis.enforceRateLimit (analysis.limiter_over a) st)))).

(** An attempt answered by an HTTP 503. *)
Definition unavailable : analysis.Attempt :=
  {| analysis.limiter_over := 0;
     analysis.outcome :=
       analysis.Response
         {| analysis.StatusCode := 503;
            analysis.Status := "503 Service Unavailable";
            analysis.Body := "overloaded" |};
     analysis.rtt := 1000000;
     analysis.sleep_over := 0 |}.

(** Three tasks of a batch whose analyses succeed, each with one field. *)
Definition threeTasks : list (batch.MergeTask (rt := demoRuntime)) :=
  [ {| batch.m_analysis := inl {[ "client_name" := JStr "ACME" ]};
       batch.m_source := analysis.SourceBusinessLicense |};
    {| batch.m_analysis := inl {[ "billing_address" := JStr "12 Nguyen Hue" ]};
       batch.m_source := analysis.SourceEVNBill |};
    {| batch.m_analysis := inl {[ "company_director_name" := JStr "Lan" ]};
       batch.m_source := analysis.SourceIDCheck |} ].

(** The field of task [i] of [threeTasks] is in the record. *)
Definition threePresent (i : nat) (check : models.CustomerCheck) : Prop :=
  match i with
  | 0%nat => models.ClientName (models.General (models.Corporate check)) = "ACME"
  | 1%nat => models.BillingAddress (models.EVN (models.Land check)) = "12 Nguyen Hue"
  | 2%nat =>
      models.CompanyDirectorName (models.Ownership (models.Corporate check)) = "Lan"
  | _ => True
  end.

(** A task whose image Vision rejects as bad image data, before and after a
    conversion that succeeds, and on which Tesseract fails. *)
Definition corruptOcrEnv : ocr.OcrEnv :=
  {| ocr.ocr_getenv := fun _ => "key";
     ocr.ocr_readimage := fun _ => inl tt;
     ocr.ocr_vision :=
       fun _ =>
         ocr.VisionStatus 200 "200 OK"
           (inl [ {| ocr.FullTextAnnotation_Text := "";
                     ocr.TextAnnotations := [];
                     ocr.Error_Message := "Bad image data." |} ]);
     ocr.ocr_pdftotext := fun _ => inr ("exit status 1", "");
     ocr.ocr_mkdirtemp := inl "/tmp/pdf-ocr-vision-1";
     ocr.ocr_pdftoppm := fun _ _ _ => None;
     ocr.ocr_glob := fun _ _ => inl [];
     ocr.ocr_tesseract := fun _ _ => inr ("exit status 1", "Error during processing.") |}.

Definition corruptTaskEnv : batch.TaskEnv (rt := demoRuntime) :=
  {| batch.t_download :=
       {| batch.d_localPath := "/tmp/xfer-1.jpg";
          batch.d_sourceURL := "https://example.com/site.jpg";
          batch.d_filename := "site.jpg";
          batch.d_mediaType := "image/jpeg";
          batch.d_err := None |};
     batch.t_stat := Some 1024%Z;
     batch.t_ocr := corruptOcrEnv;
     batch.t_convert := None;
     batch.t_ffmpeg := None;
     batch.t_converted_stat := Some 2048%Z;
     batch.t_readfile := inr "not read";
     batch.t_getenv := fun _ => "";
     batch.t_analyze := fun _ _ _ => inr "not called";
     batch.t_processedAt := 0%Z;
     batch.t_processingTime := 0%Z |}.

(** A site-visit photo that arrives under a name and a media type that tell
    nothing, and that Vision cannot read. *)
Definition unknownPhotoEnv : batch.TaskEnv (rt := demoRuntime) :=
  {| batch.t_download :=
       {| batch.d_localPath := "/tmp/xfer-3.bin";
          batch.d_sourceURL := "https://example.com/photo.bin";
          batch.d_filename := "photo.bin";
          batch.d_mediaType := "application/octet-stream";
          batch.d_err := None |};
     batch.t_stat := Some 1024%Z;
     batch.t_ocr := corruptOcrEnv;
     batch.t_convert := Some "exit status 1";
     batch.t_ffmpeg := Some "exit status 1";
     batch.t_converted_stat := None;
     batch.t_readfile := inr "not read";
     batch.t_getenv := fun _ => "";
     batch.t_analyze := fun _ _ _ => inr "not called";
     batch.t_processedAt := 0%Z;
     batch.t_processingTime := 0%Z |}.

(** The number of bytes of [s] that are not white space. *)
Fixpoint nonSpaceCount (s : string) : Z :=
  match s with
  | EmptyString => 0%Z
  | String ch r => ((if strings.isSpace ch then 0 else 1) + nonSpaceCount r)%Z
  end.

(** The embedded text of a scanned PDF whose text layer is a page footer:
    the footer, a line feed and a form feed. *)
Definition footerText : string :=
  "Page 1 of 3" ++ String (ascii_of_nat 10) (String (ascii_of_nat 12) EmptyString).

(** A scanned PDF of two pages: [pdftotext] prints the footer, the pages
    rasterize, and Vision reads both. *)
Definition scannedPdfEnv : ocr.OcrEnv :=
  {| ocr.ocr_getenv := fun _ => "key";
     ocr.ocr_readimage := fun _ => inl tt;
     ocr.ocr_vision :=
       fun imagePath =>
         ocr.VisionStatus 200 "200 OK"
           (inl [ {| ocr.FullTextAnnotation_Text :=
                       if String.eqb imagePath "/tmp/pdf-ocr-vision-1/page-1.png"
                       then "HOP DONG THUE DAT" else "Dieu 2. Thoi han thue";
                     ocr.TextAnnotations := [];
                     ocr.Error_Message := "" |} ]);
     ocr.ocr_pdftotext := fun _ => inl footerText;
     ocr.ocr_mkdirtemp := inl "/tmp/pdf-ocr-vision-1";
     ocr.ocr_pdftoppm := fun _ _ _ => None;
     ocr.ocr_glob :=
       fun _ _ =>
         inl ["/tmp/pdf-ocr-vision-1/page-2.png"; "/tmp/pdf-ocr-vision-1/page-1.png"];
     ocr.ocr_tesseract := fun _ _ => inr ("exit status 1", "") |}.

(** The progress updates a goroutine has sent when it is at a place. *)
Definition sentUpdates (pc : batch.Pc) : nat :=
  match pc with
  | batch.PcSpawned | batch.PcAcquired => 0
  | batch.PcAnnounced | batch.PcProcessed _ => 1
  | batch.PcDone => 2
  end.

(** The results a goroutine has sent when it is at a place. *)
Definition sentResults (pc : batch.Pc) : nat :=
  match pc with
  | batch.PcProcessed _ | batch.PcDone => 1
  | _ => 0
  end.

(** The three classes of results the statistics count. *)
Definition isFailed (result : types.FileResult) : bool :=
  negb (String.eqb (types.Error result) "").

Definition isSkipped (result : types.FileResult) : bool :=
  String.eqb (types.Error result) "" && String.eqb (types.ExtractedText result) "".

Definition isProcessed (result : types.FileResult) : bool :=
  String.eqb (types.Error result) "" && negb (String.eqb (types.ExtractedText result) "").

(** A batch of 51 photos for a processor made by [NewProcessor], whose
    progress channel nobody reads. *)
Definition manyInputs : list string :=
  List.map (fun i => "https://example.com/photo-" ++ pretty i ++ ".jpg") (seq 1 51).

Definition defaultProcessor : batch.Processor :=
  batch.NewProcessor 3 true "vie" 300 analysis.SourceSiteVisitPhotos.

(** Every goroutine in turn, as far as it can go, and no reader. *)
Definition noReaderSchedule : list batch.Action :=
  flat_map (fun i => [batch.Go i; batch.Go i; batch.Go i; batch.Go i]) (seq 0 51).

(** Every goroutine has sent its result by the time it is past the processing. *)
Definition resultsInv (inputs : list string) (st : batch.Run) : Prop :=
  length (batch.r_results st) = sum_list (List.map sentResults (batch.r_pcs st))
  /\ length (batch.r_pcs st) = length inputs.

(** With a progress channel of capacity [cap]: every update sent is in the
    buffer or with the reader, and the buffer never holds more than [cap]. *)
Definition progressInv (inputs : list string) (cap : nat) (st : batch.Run) : Prop :=
  (length (batch.r_progress st) + length (batch.r_delivered st)
   = sum_list (List.map sentUpdates (batch.r_pcs st)))%nat
  /\ (length (batch.r_progress st) <= cap)%nat
  /\ length (batch.r_pcs st) = length inputs.

(** The second photo of the batch is filed as a bill. *)
Definition oneBill : gmap string analysis.DocumentSource :=
  {[ "https://example.com/photo-2.jpg" := analysis.SourceEVNBill ]}.

(** What holds in every state of a run of the merges, [present i] being the
    mark the merge of task [i] leaves in the record. *)
Record mergeInv (present : nat -> models.CustomerCheck -> Prop)
    (st : batch.MergeState) : Prop := {
  inv_holder :
    forall i pc,
      batch.m_pcs st !! i = Some pc -> batch.holdsMutex pc = true ->
      batch.m_mutex st = Some i;
  inv_held :
    forall i, batch.m_mutex st = Some i ->
      exists pc, batch.m_pcs st !! i = Some pc /\ batch.holdsMutex pc = true;
  inv_local :
    forall i local,
      batch.m_pcs st !! i = Some (batch.MLoaded local) -> local = batch.m_check st;
  inv_present :
    forall i pc,
      batch.m_pcs st !! i = Some pc -> (pc = batch.MStored \/ pc = batch.MFinished) ->
      present i (batch.m_check st)
}.

(** *** Vocabulary for the aggregator *)

(** The keys of the extracted-data map that the update of a kind looks up. *)
Definition keysRead (source : analysis.DocumentSource) : list string :=
  analysis.switchOr
    [(analysis.SourceBusinessLicense,
      ["client_name"; "client_type"; "tax_code_mst"; "business_license_gpkd";
       "business_address"; "registered_share_capital"; "business_operations";
       "customer_type"; "incorporation_date"; "owners_name"; "ownership_category";
       "key_decision_maker"]);
     (analysis.SourceEVNBill,
      ["billing_address"; "billing_address_matches_client"; "billing_amount";
       "billed_amounts_match_expenses"]);
     (analysis.SourceLandCertificate,
      ["situation"; "landowner_is_signatory"; "documentation_complete";
       "lease_expiration_date"]);
     (analysis.SourceIDCheck, ["company_director_name"; "key_decision_maker"]);
     (analysis.SourceSiteVisitPhotos, ["company_signboard"]);
     (analysis.SourceFinancialStatement,
      ["financial_statement_date"; "total_revenues"; "total_costs";
       "total_energy_costs"; "total_assets"; "total_debt"]);
     (analysis.SourceCICReport, ["loans"])]
    source [].

(** A field of an enumerated type holds its zero value or one of the constants. *)
Definition zeroOr (values : list string) (v : string) : Prop := v = "" \/ In v values.

Definition loanTypes : list models.LoanType :=
  [models.LoanTypeShortTerm; models.LoanTypeMediumTerm; models.LoanTypeLongTerm;
   models.LoanTypeCreditCard; models.LoanTypeOverdrafts; models.LoanTypeGuarantee;
   models.LoanTypeFinancialLeasing; models.LoanTypeFactoring;
   models.LoanTypeConsumerLoan; models.LoanTypeOtherCredit].

Definition debtGroups : list models.DebtClassification :=
  [models.DebtClassificationGroup1; models.DebtClassificationGroup2;
   models.DebtClassificationGroup3; models.DebtClassificationGroup4;
   models.DebtClassificationGroup5].

(** A loan as the CIC update builds it: a type and a debt group that are
    constants of their types, and the three amounts set. *)
Definition loanComplete (loan : models.LoanInfo) : Prop :=
  In (models.LoanType_ loan) loanTypes
  /\ In (models.DebtClassification_ loan) debtGroups
  /\ models.OutstandingAmount loan <> None
  /\ models.AnnualInterestCost loan <> None
  /\ models.AnnualAmortization loan <> None.

(** Every enumerated field of the record holds its zero value or a constant
    of its type, every loan is complete, and the five-period arrays have
    five entries. *)
Definition enumsLegal (check : models.CustomerCheck) : Prop :=
  let g := models.General (models.Corporate check) in
  let o := models.Ownership (models.Corporate check) in
  let e := models.EVN (models.Land check) in
  let l := models.LandOwnership (models.Land check) in
  let f := models.Financial check in
  zeroOr [models.ClientTypeCorporateEntity; models.ClientTypePrivateIndividual]
    (models.ClientType_ g)
  /\ zeroOr [models.TriYes; models.TriNo; models.TriNA] (models.BusinessLicenseGPKD g)
  /\ zeroOr [models.CustomerTypeNA; models.CustomerTypeManufacturing;
             models.CustomerTypeTrading; models.CustomerTypeConstruction;
             models.CustomerTypeServices; models.CustomerTypeAgriculture;
             models.CustomerTypeTechnology; models.CustomerTypeEnergy;
             models.CustomerTypeFinance; models.CustomerTypeHealthcare;
             models.CustomerTypeMedia] (models.CustomerType_ g)
  /\ zeroOr [models.Ownership100; models.OwnershipGT50; models.OwnershipLT50;
             models.OwnershipNA] (models.OwnershipCategory o)
  /\ zeroOr [models.Yes; models.No] (models.BillingAddressMatchesClient e)
  /\ zeroOr [models.TriYes; models.TriNo; models.TriNA]
       (models.BilledAmountsMatchExpenses e)
  /\ zeroOr [models.LandOwner; models.RentalAgreement; models.Unknown]
       (models.Situation l)
  /\ zeroOr [models.Yes; models.No] (models.LandownerIsSignatory l)
  /\ zeroOr [models.Yes; models.No] (models.OwnedDocsComplete l)
  /\ zeroOr [models.SignboardMatches; models.SignboardMismatched;
             models.SignboardNotAvail]
       (models.CompanySignboard (models.SiteVisit_ (models.Additional check)))
  /\ Forall loanComplete (models.Loans f)
  /\ (length (models.TotalRevenues (models.PL f)) = 5
      /\ length (models.TotalCosts (models.PL f)) = 5
      /\ length (models.TotalEnergyCosts (models.PL f)) = 5
      /\ length (models.TotalAssets (models.BalanceSheet f)) = 5
      /\ length (models.TotalDebt (models.BalanceSheet f)) = 5)%nat.

(** The entries of a JSON array that are objects. *)
Fixpoint objectsOf {F : Type} (items : list (JSON F)) : list (gmap string (JSON F)) :=
  match items with
  | [] => []
  | JObj m :: items' => m :: objectsOf items'
  | _ :: items' => objectsOf items'
  end.

(** *** Vocabulary for the Gemini client *)

(** The answer to an attempt is an HTTP 429 whose body carries the retry
    delay [d]. *)
Definition is429 `{rt : GoRuntime} (a : analysis.Attempt) (d : Z) : Prop :=
  exists resp,
    analysis.outcome a = analysis.Response resp
    /\ analysis.StatusCode resp = 429%Z
    /\ analysis.retryAfter (analysis.Body resp) = Some d.

(** The arguments of the 429 branch's sleeps, in order. *)
Fixpoint retryAfterSleeps (events : list analysis.Event) : list Z :=
  match events with
  | [] => []
  | analysis.EvRetryAfterSleep d :: events' => d :: retryAfterSleeps events'
  | _ :: events' => retryAfterSleeps events'
  end.

(** The number of sleeps of the two retry branches. *)
Definition retrySleeps (events : list analysis.Event) : nat :=
  length (retryAfterSleeps events) + length (analysis.backoffSleeps events).

(** The time the sleeps of the delays [delays] take at least: a negative
    delay makes [time.Sleep] return at once. *)
Definition slept (delays : list Z) : Z :=
  fold_right (fun d total => (Z.max 0 d + total)%Z) 0%Z delays.

(** A text between double quotes. *)
Definition quoted (s : string) : string := analysis.dq ++ s ++ analysis.dq.

(** A 429 body that asks to come back in seven seconds, and a 2xx body
    whose first part is the empty object. *)
Definition tooManyBody : string :=
  "{" ++ quoted "error" ++ ":{" ++ quoted "details" ++ ":[{" ++ quoted "retryInfo"
  ++ ":{" ++ quoted "retryDelay" ++ ":" ++ quoted "7s" ++ "}}]}}".

Definition okBody : string :=
  "{" ++ quoted "candidates" ++ ":[{" ++ quoted "content" ++ ":{" ++ quoted "parts"
  ++ ":[{" ++ quoted "text" ++ ":" ++ quoted "{}" ++ "}]}}]}".

(** A runtime that decodes these two bodies. *)
Definition retryRuntime : GoRuntime :=
  {| float64 := Z;
     float64_to_int64 := fun f => f;
     float64_pos := Z.ltb 0;
     time_Parse := fun _ _ => None;
     time_ParseDuration :=
       fun s => if String.eqb s "7s" then Some (7 * analysis.Second)%Z else None;
     json_Unmarshal :=
       fun s => if String.eqb s "{}" then inl (JObj ∅) else inr "invalid character";
     json_retryDelays :=
       fun body => if String.eqb body tooManyBody then Some ["7s"] else None;
     json_GeminiResponse :=
       fun body => if String.eqb body okBody then inl ("", [["{}"]]) else inr "EOF";
     filepath_Dir := pathDir;
     filepath_Base := pathBase;
     filepath_Join := fun dir name => dir ++ "/" ++ name;
     unicode_ToLower := strings.ToLower;
     unicode_TrimSpace := strings.TrimSpace;
     unicode_Fields := strings.Fields |}.

Definition tooMany : analysis.Attempt :=
  {| analysis.limiter_over := 0;
     analysis.outcome :=
       analysis.Response
         {| analysis.StatusCode := 429;
            analysis.Status := "429 Too Many Requests";
            analysis.Body := tooManyBody |};
     analysis.rtt := 1000000;
     analysis.sleep_over := 0 |}.

Definition answered : analysis.Attempt :=
  {| analysis.limiter_over := 0;
     analysis.outcome :=
       analysis.Response
         {| analysis.StatusCode := 200;
            analysis.Status := "200 OK";
            analysis.Body := okBody |};
     analysis.rtt := 1000000;
     analysis.sleep_over := 0 |}.

(** *** Examples for the tasks of a batch *)

(** A text file that downloads, reads and is analysed: the analysis finds
    the client name. *)
Definition licenceTaskEnv : batch.TaskEnv (rt := demoRuntime) :=
  {| batch.t_download :=
       {| batch.d_localPath := "/tmp/xfer-2.txt";
          batch.d_sourceURL := "https://example.com/licence.txt";
          batch.d_filename := "licence.txt";
          batch.d_mediaType := "text/plain";
          batch.d_err := None |};
     batch.t_stat := Some 64%Z;
     batch.t_ocr := corruptOcrEnv;
     batch.t_convert := None;
     batch.t_ffmpeg := None;
     batch.t_converted_stat := None;
     batch.t_readfile := inl "GIAY CHUNG NHAN DANG KY DOANH NGHIEP - CONG TY ACME";
     batch.t_getenv := fun k => if String.eqb k "GEMINI_API_KEY" then "key" else "";
     batch.t_analyze := fun _ _ _ => inl {[ "client_name" := JStr "ACME" ]};
     batch.t_processedAt := 0%Z;
     batch.t_processingTime := 0%Z |}.

(** A processor with the analysis on. *)
Definition analysingProcessor : batch.Processor :=
  batch.NewProcessor 2 false "vie" 300 analysis.SourceBusinessLicense.

(** *** Vocabulary for the scheduler *)

(** A goroutine between [semaphore <- struct{}{}] and [<-semaphore] holds a slot. *)
Definition holdsSlot (pc : batch.Pc) : nat :=
  match pc with
  | batch.PcAcquired | batch.PcAnnounced | batch.PcProcessed _ => 1
  | _ => 0
  end.

(** A progress update of a batch of [total] files: the file number is
    between 1 and [total], and the update is a start, a completion, or a
    failure with its error. *)
Definition updateOK (total : nat) (u : batch.ProgressUpdate) : Prop :=
  (1 <= batch.CurrentFile u <= Z.of_nat total)%Z
  /\ batch.TotalFiles u = Z.of_nat total
  /\ ((batch.Status u = "processing" /\ batch.Error u = None)
      \/ (batch.Status u = "completed" /\ batch.Error u = None)
      \/ (batch.Status u = "failed" /\ batch.Error u <> None)).

(** The merges of a list of replies, in order. *)
Definition applyMerges `{rt : GoRuntime}
    (merges : list (gmap string (JSON float64) * analysis.DocumentSource))
    (check : models.CustomerCheck) : models.CustomerCheck :=
  fold_left (fun check m => analysis.UpdateCustomerCheck check (fst m) (snd m))
    merges check.

(** The slots taken are the goroutines that hold one, within the capacity
    of the semaphore. *)
Definition slotsInv (p : batch.Processor) (st : batch.Run) : Prop :=
  batch.r_semaphore st = sum_list (List.map holdsSlot (batch.r_pcs st))
  /\ (Z.of_nat (batch.r_semaphore st) <= Z.max 0 (batch.MaxConcurrency p))%Z.

(** The aggregate is the initial record after some merges, none when the
    analysis is skipped.  Each merged map is a reply of the analysis: what
    [AnalyzeDocument] returned for one of the inputs, on the text extracted
    from that input and for its source. *)
Definition mergedFrom `{rt : GoRuntime} (p : batch.Processor) (inputs : list string)
    (fileSources : option (gmap string analysis.DocumentSource))
    (envs : nat -> batch.TaskEnv)
    (check0 check : models.CustomerCheck) : Prop :=
  exists merges : list (gmap string (JSON float64) * analysis.DocumentSource),
    check = applyMerges merges check0
    /\ Forall
         (fun m =>
            exists index inputURL client,
              inputs !! index = Some inputURL
              /\ snd m = batch.fileSourceOf p fileSources inputURL
              /\ analysis.NewGeminiClient (batch.t_getenv (envs index)) = inl client
              /\ batch.t_analyze (envs index) client
                   (types.ExtractedText
                      (fst (fst (batch.processOneFileWithSource p (envs index) inputURL
                                   check0 (snd m)))))
                   (snd m)
                 = inl (fst m))
         merges
    /\ (batch.SkipAnalysis p = true -> merges = []).

(** *** Vocabulary for the OCR package *)





End spec.

(** * Properties *)

(** ** The aggregator *)
Section AggregatorFacts.
Context `{rt : GoRuntime}.
Import analysis models.

(** C9: for every record and every extracted-data map, [UpdateCustomerCheck]
    with a document source that is not one of the seven mapped kinds leaves
    every field of the record unchanged. *)
Theorem UpdateCustomerCheck_unmapped_source
    (check : CustomerCheck) (extractedData : gmap string (JSON float64))
    (source : DocumentSource) :
  source ∉ spec.mappedKinds ->
  UpdateCustomerCheck check extractedData source = check.
Proof.
  intros Hnot. unfold UpdateCustomerCheck.
  repeat
    match goal with
    | |- context [String.eqb source ?k] =>
        destruct (String.eqb_spec source k) as [->|_];
        [exfalso; apply Hnot; unfold spec.mappedKinds; set_solver|]
    end.
  reflexivity.
Qed.

End AggregatorFacts.

Lemma UpdateCustomerCheck_unmapped_source_witness :
  (("cic_report_2" ∉ spec.mappedKinds) /\ ("unknown" ∉ spec.mappedKinds))
  /\ analysis.UpdateCustomerCheck (rt := spec.demoRuntime) models.zeroCustomerCheck
       {[ "client_name" := JStr "ACME" ]} analysis.SourceCICReport2
     = models.zeroCustomerCheck
  /\ analysis.UpdateCustomerCheck (rt := spec.demoRuntime) models.zeroCustomerCheck
       {[ "client_name" := JStr "ACME" ]} analysis.SourceUnknown
     = models.zeroCustomerCheck.
Proof.
  split; [split; compute_done|].
  split; apply UpdateCustomerCheck_unmapped_source; compute_done.
Defined.

(** ** The deterministic address comparison *)
Section AddressFacts.
Context `{rt : GoRuntime}.
Import analysis.

Lemma countMatches_from (words1 words2 : list string) (acc : Z) :
  fold_left
    (fun matches w1 =>
       if existsb (fun w2 => String.eqb w1 w2 && (2 <? strings.len w1)%Z) words2
       then (matches + 1)%Z else matches)
    words1 acc
  = (acc + Z.of_nat (length (List.filter (spec.sharedWith words2) words1)))%Z.
Proof.
  revert acc. induction words1 as [|w ws IH]; intros acc; simpl.
  - lia.
  - rewrite IH. unfold spec.sharedWith at 2.
    destruct (existsb _ words2); simpl; lia.
Qed.

Lemma countMatches_filter (words1 words2 : list string) :
  countMatches words1 words2
  = Z.of_nat (length (List.filter (spec.sharedWith words2) words1)).
Proof. unfold countMatches. rewrite countMatches_from. lia. Qed.

Lemma sharedWith_true (words2 : list string) (w : string) :
  spec.sharedWith words2 w = true <-> In w words2 /\ (2 < strings.len w)%Z.
Proof.
  unfold spec.sharedWith. rewrite existsb_exists. split.
  - intros (w2 & Hin & Hb). apply andb_true_iff in Hb as [He Hl].
    apply String.eqb_eq in He. subst w2. split; [assumption|lia].
  - intros [Hin Hl]. exists w. split; [assumption|].
    rewrite String.eqb_refl. simpl. lia.
Qed.

(** The shared words of a list are among its long words. *)
Lemma shared_of_long (words1 words2 : list string) :
  List.filter (spec.sharedWith words2) words1
  = List.filter (spec.sharedWith words2) (spec.longWords words1).
Proof.
  unfold spec.longWords. induction words1 as [|w ws IH]; [reflexivity|].
  cbn [List.filter]. destruct (spec.sharedWith words2 w) eqn:Hs.
  - apply sharedWith_true in Hs as Hs'. destruct Hs' as [_ Hl].
    replace (2 <? strings.len w)%Z with true by (symmetry; apply Z.ltb_lt; exact Hl).
    cbn [List.filter]. rewrite Hs, IH. reflexivity.
  - destruct (2 <? strings.len w)%Z; [cbn [List.filter]; rewrite Hs|]; exact IH.
Qed.

Lemma countMatches_sym (words1 words2 : list string) :
  NoDup (spec.longWords words1) -> NoDup (spec.longWords words2) ->
  countMatches words1 words2 = countMatches words2 words1.
Proof.
  intros Hd1 Hd2. rewrite !countMatches_filter. f_equal.
  apply Permutation_length, NoDup_Permutation.
  - rewrite shared_of_long. now apply NoDup_ListNoDup, List.NoDup_filter, NoDup_ListNoDup.
  - rewrite shared_of_long. now apply NoDup_ListNoDup, List.NoDup_filter, NoDup_ListNoDup.
  - intros w. rewrite !list_elem_of_In, !filter_In, !sharedWith_true. tauto.
Qed.

(** [addressesMatch] gives the same answer for [(a, b)] and for [(b, a)]
    whenever neither address, once normalised, has the same word of more
    than two bytes twice (each address being normalised with the same map
    order in both calls).  Short words may repeat. *)
Theorem addressesMatch_symmetric_long_words
    (order1 order2 : list (string * string)) (a b : string) :
  NoDup (spec.longWords
           (text.Fields (normalizeAddress order1 (text.ToLower (text.TrimSpace a))))) ->
  NoDup (spec.longWords
           (text.Fields (normalizeAddress order2 (text.ToLower (text.TrimSpace b))))) ->
  addressesMatch order1 order2 a b = addressesMatch order2 order1 b a.
Proof.
  intros Hd1 Hd2. unfold addressesMatch.
  set (addr1 := text.ToLower (text.TrimSpace a)) in *.
  set (addr2 := text.ToLower (text.TrimSpace b)) in *.
  set (n1 := normalizeAddress order1 addr1) in *.
  set (n2 := normalizeAddress order2 addr2) in *.
  rewrite (String.eqb_sym addr2 addr1), (String.eqb_sym n2 n1).
  rewrite (orb_comm (strings.Contains n2 n1)).
  rewrite (andb_comm (0 <? Z.of_nat (length (text.Fields n2)))%Z).
  rewrite (countMatches_sym _ _ Hd2 Hd1).
  destruct (String.eqb addr1 addr2); [reflexivity|].
  destruct (String.eqb n1 n2); [reflexivity|].
  destruct (strings.Contains n1 n2 || strings.Contains n2 n1); [reflexivity|].
  destruct (_ && _); [|reflexivity].
  assert (Hmax : forall x y : Z, (if (x <? y)%Z then y else x) = Z.max x y)
    by (intros x y; destruct (Z.ltb_spec x y); lia).
  rewrite !Hmax, Z.max_comm. reflexivity.
Qed.

(** A pattern that does not occur is not replaced. *)
Lemma replaceFrom_absent (s old new : string) :
  strings.Contains s old = false -> strings.replaceFrom s old new 0 = s.
Proof.
  induction s as [|c s IH]; intros Hc; [reflexivity|].
  cbn [strings.Contains] in Hc. apply orb_false_iff in Hc as [Hp Hc].
  cbn [strings.replaceFrom]. rewrite Hp, (IH Hc). reflexivity.
Qed.

Lemma ReplaceAll_absent (s old new : string) :
  strings.Contains s old = false -> strings.ReplaceAll s old new = s.
Proof.
  intros Hc. unfold strings.ReplaceAll. destruct old as [|c old].
  - destruct s; discriminate Hc.
  - now apply replaceFrom_absent.
Qed.

(** On an address that holds none of the keys of the replacement map, the
    order of the visit plays no part. *)
Lemma normalizeAddress_no_key (order : list (string * string)) (s : string) :
  incl order replacements ->
  forallb (fun r => negb (strings.Contains s (fst r))) replacements = true ->
  normalizeAddress order s = normalizeAddress [] s.
Proof.
  intros Hincl Hnone. unfold normalizeAddress. cbn [fold_left].
  replace (fold_left (fun normalized r => strings.ReplaceAll normalized (fst r) (snd r))
             order s) with s; [reflexivity|].
  symmetry. rewrite forallb_forall in Hnone.
  induction order as [|r order IH]; [reflexivity|]. cbn [fold_left].
  rewrite ReplaceAll_absent.
  - apply IH. intros r' Hr'. apply Hincl. now right.
  - apply negb_true_iff, Hnone, Hincl. now left.
Qed.

(** C10: [addressesMatch] is not symmetric.  The first address names its
    street twice (the ward is named after the street): four of its six words
    are found in the second address, two of the six words of the second are
    found in the first, and only the first count is more than half of six.
    No key of the replacement map occurs, so every order of the visit gives
    these answers. *)
Theorem addressesMatch_not_symmetric (order1 order2 : list (string * string)) :
  incl order1 replacements -> incl order2 replacements ->
  addressesMatch order1 order2
    "12 Nguyen Trai, Nguyen Trai Ward" "Nguyen Trai Street, District 5, Saigon" = true
  /\ addressesMatch order2 order1
       "Nguyen Trai Street, District 5, Saigon" "12 Nguyen Trai, Nguyen Trai Ward" = false.
Proof.
  intros H1 H2.
  assert (Ha : text.ToLower (text.TrimSpace "12 Nguyen Trai, Nguyen Trai Ward")
               = "12 nguyen trai, nguyen trai ward") by reflexivity.
  assert (Hb : text.ToLower (text.TrimSpace "Nguyen Trai Street, District 5, Saigon")
               = "nguyen trai street, district 5, saigon") by reflexivity.
  assert (Hna : normalizeAddress order1 "12 nguyen trai, nguyen trai ward"
                = "12 nguyen trai nguyen trai ward")
    by (rewrite (normalizeAddress_no_key order1 _ H1) by reflexivity; reflexivity).
  assert (Hnb : normalizeAddress order2 "nguyen trai street, district 5, saigon"
                = "nguyen trai street district 5 saigon")
    by (rewrite (normalizeAddress_no_key order2 _ H2) by reflexivity; reflexivity).
  unfold addressesMatch. rewrite Ha, Hb, Hna, Hnb. split; reflexivity.
Qed.

End AddressFacts.

Lemma addressesMatch_not_symmetric_witness :
  incl analysis.replacements analysis.replacements
  /\ incl (rev analysis.replacements) analysis.replacements
  /\ analysis.addressesMatch (rt := spec.demoRuntime)
       analysis.replacements (rev analysis.replacements)
       "12 Nguyen Trai, Nguyen Trai Ward" "Nguyen Trai Street, District 5, Saigon" = true
  /\ analysis.addressesMatch (rt := spec.demoRuntime)
       (rev analysis.replacements) analysis.replacements
       "Nguyen Trai Street, District 5, Saigon" "12 Nguyen Trai, Nguyen Trai Ward" = false.
Proof.
  assert (H1 : incl analysis.replacements analysis.replacements) by apply incl_refl.
  assert (H2 : incl (rev analysis.replacements) analysis.replacements)
    by (intros r Hr; now apply in_rev).
  split; [exact H1|]. split; [exact H2|].
  exact (addressesMatch_not_symmetric (rt := spec.demoRuntime) _ _ H1 H2).
Defined.

Lemma addressesMatch_symmetric_long_words_witness :
  let a := "45 Le Loi, Phuong 1, Quan 1, TP. Ho Chi Minh" in
  let b := "Le Loi, Quan 1, Ho Chi Minh City" in
  ~ NoDup (text.Fields (rt := spec.demoRuntime)
             (analysis.normalizeAddress (rt := spec.demoRuntime) analysis.replacements
                (text.ToLower (rt := spec.demoRuntime)
                   (text.TrimSpace (rt := spec.demoRuntime) a))))
  /\ analysis.addressesMatch (rt := spec.demoRuntime)
       analysis.replacements (rev analysis.replacements) a b
     = analysis.addressesMatch (rt := spec.demoRuntime)
         (rev analysis.replacements) analysis.replacements b a.
Proof.
  intros a b. split.
  - intros Hd. apply NoDup_ListNoDup in Hd. vm_compute in Hd.
    inversion Hd as [|? ? _ Hd1]; subst. inversion Hd1 as [|? ? _ Hd2]; subst.
    inversion Hd2 as [|? ? _ Hd3]; subst. inversion Hd3 as [|? ? _ Hd4]; subst.
    inversion Hd4 as [|? ? Hnin _]; subst. apply Hnin. 
    repeat (first [left; reflexivity|right]).
  - apply (addressesMatch_symmetric_long_words (rt := spec.demoRuntime)); compute_done.
Defined.

(** ** The address cross-check after the batch joins *)
Section CompareFacts.
Context `{rt : GoRuntime}.
Import analysis models.

Lemma prefix_refl (s : string) : String.prefix s s = true.
Proof.
  induction s as [|c s IH]; simpl; [reflexivity|].
  destruct (ascii_dec c c) as [_|Hne]; [assumption|congruence].
Qed.

Lemma Contains_refl (s : string) : strings.Contains s s = true.
Proof.
  pose proof (prefix_refl s) as Hp.
  destruct s; unfold strings.Contains; fold strings.Contains; rewrite Hp; reflexivity.
Qed.

Lemma shared_disjoint (words1 words2 : list string) :
  (forall w, w ∈ words1 -> w ∉ words2) ->
  List.filter (spec.sharedWith words2) words1 = [].
Proof.
  intros Hdis. induction words1 as [|w ws IH]; simpl; [reflexivity|].
  destruct (spec.sharedWith words2 w) eqn:Hs.
  - apply sharedWith_true in Hs as [Hin _].
    exfalso. apply (Hdis w); [left|now apply list_elem_of_In].
  - apply IH. intros w' Hw'. apply Hdis. now right.
Qed.

(** The steps of [addressesMatch], in the order they are tried; the nested
    loops count the words of the first address that are longer than two
    bytes and stand in the second. *)
Lemma addressesMatch_true_iff (order1 order2 : list (string * string)) (a b : string) :
  let addr1 := text.ToLower (text.TrimSpace a) in
  let addr2 := text.ToLower (text.TrimSpace b) in
  let n1 := normalizeAddress order1 addr1 in
  let n2 := normalizeAddress order2 addr2 in
  let words1 := text.Fields n1 in
  let words2 := text.Fields n2 in
  addressesMatch order1 order2 a b = true
  <-> addr1 = addr2
      \/ n1 = n2
      \/ strings.Contains n1 n2 = true
      \/ strings.Contains n2 n1 = true
      \/ (Nat.max (length words1) (length words2)
          < 2 * length (List.filter (spec.sharedWith words2) words1))%nat.
Proof.
  intros addr1 addr2 n1 n2 words1 words2. unfold addressesMatch.
  fold addr1 addr2. fold n1 n2. fold words1 words2.
  destruct (String.eqb_spec addr1 addr2) as [He|Hne]; [tauto|].
  destruct (String.eqb_spec n1 n2) as [He2|Hne2]; [tauto|].
  destruct (strings.Contains n1 n2) eqn:Hc1; [simpl; tauto|].
  destruct (strings.Contains n2 n1) eqn:Hc2; [simpl; tauto|]. simpl.
  assert (Hmax : forall x y : Z, (if (x <? y)%Z then y else x) = Z.max x y)
    by (intros x y; destruct (Z.ltb_spec x y); lia).
  rewrite Hmax, countMatches_filter.
  pose proof (filter_length_le (spec.sharedWith words2) words1) as Hle.
  assert (Hsub : forall w, In w (List.filter (spec.sharedWith words2) words1) ->
                           In w words2)
    by (intros w Hw; apply filter_In in Hw as [_ Hw]; now apply sharedWith_true in Hw).
  destruct (Z.ltb_spec 0 (Z.of_nat (length words1))) as [Hp1|Hz1];
    destruct (Z.ltb_spec 0 (Z.of_nat (length words2))) as [Hp2|Hz2]; simpl andb; cbv iota.
  - destruct (Z.ltb_spec (Z.max (Z.of_nat (length words1)) (Z.of_nat (length words2)))
                (2 * Z.of_nat (length (List.filter (spec.sharedWith words2) words1))))
      as [Hlt|Hge].
    + split; [|reflexivity]. intros _. do 4 right. lia.
    + split; [discriminate|]. intros [?|[?|[?|[?|Hlt]]]]; try congruence. lia.
  - split; [discriminate|]. intros [?|[?|[?|[?|Hlt]]]]; try congruence.
    destruct words2; [|simpl in Hz2; lia].
    destruct (List.filter (spec.sharedWith []) words1) as [|w ?] eqn:Hf;
      [simpl in Hlt; lia|]. destruct (Hsub w). now left.
  - split; [discriminate|]. intros [?|[?|[?|[?|Hlt]]]]; try congruence. lia.
  - split; [discriminate|]. intros [?|[?|[?|[?|Hlt]]]]; try congruence. lia.
Qed.

(** C7 (amended): when both addresses are present and the semantic
    comparison returns an error, [CompareAddresses] sets the flag to yes or
    to no, and to yes exactly when one step of the word comparison succeeds:
    the trimmed, lower-cased addresses are equal, or their normal forms are
    equal, or one normal form contains the other, or the words of the
    business address that are longer than two bytes and stand in the billing
    address are strictly more than half of the longer word list.  Equal
    inputs give yes; inputs with no word in common, neither normal form
    containing the other, give no. *)
Theorem CompareAddresses_fallback_decides
    (env : CompareEnv) (check : CustomerCheck) (err : string) :
  let business := BusinessAddress (General (Corporate check)) in
  let billing := BillingAddress (EVN (Land check)) in
  let addr1 := text.ToLower (text.TrimSpace business) in
  let addr2 := text.ToLower (text.TrimSpace billing) in
  let n1 := normalizeAddress (cmp_order1 env) addr1 in
  let n2 := normalizeAddress (cmp_order2 env) addr2 in
  let words1 := text.Fields n1 in
  let words2 := text.Fields n2 in
  let flag := BillingAddressMatchesClient (EVN (Land (CompareAddresses env check))) in
  business <> "" -> billing <> "" ->
  compareAddressesWithGemini env business billing = inr err ->
  (flag = Yes \/ flag = No)
  /\ (flag = Yes
      <-> addr1 = addr2
          \/ n1 = n2
          \/ strings.Contains n1 n2 = true
          \/ strings.Contains n2 n1 = true
          \/ (Nat.max (length words1) (length words2)
              < 2 * length (List.filter (spec.sharedWith words2) words1))%nat)
  /\ (business = billing -> flag = Yes)
  /\ (addr1 <> addr2 ->
      strings.Contains n1 n2 = false -> strings.Contains n2 n1 = false ->
      (forall w, w ∈ words1 -> w ∉ words2) ->
      flag = No).
Proof.
  intros business billing addr1 addr2 n1 n2 words1 words2 flag Hb1 Hb2 Hfail.
  pose proof (addressesMatch_true_iff (cmp_order1 env) (cmp_order2 env) business billing)
    as Hiff.
  cbv zeta in Hiff. fold addr1 addr2 in Hiff. fold n1 n2 in Hiff. fold words1 words2 in Hiff.
  assert (Hflag : flag = if addressesMatch (cmp_order1 env) (cmp_order2 env) business billing
                         then Yes else No).
  { unfold flag, CompareAddresses. fold business billing.
    destruct (String.eqb_spec business "") as [?|_]; [congruence|].
    destruct (String.eqb_spec billing "") as [?|_]; [congruence|].
    simpl. rewrite Hfail.
    destruct (addressesMatch _ _ business billing); reflexivity. }
  destruct (addressesMatch (cmp_order1 env) (cmp_order2 env) business billing) eqn:Hm;
    rewrite Hflag.
  - split; [now left|]. split; [split; [intros _; now apply Hiff|reflexivity]|].
    split; [reflexivity|].
    intros Hne Hc1 Hc2 Hdis. exfalso.
    destruct (proj1 Hiff eq_refl) as [?|[He|[?|[?|Hlt]]]]; try congruence.
    + assert (strings.Contains n1 n2 = true) by (rewrite He; apply Contains_refl).
      congruence.
    + rewrite (shared_disjoint _ _ Hdis) in Hlt. simpl in Hlt. lia.
  - split; [now right|]. split; [split; [discriminate|]|].
    + intros Hd. apply Hiff in Hd. discriminate.
    + split; [|reflexivity].
      intros Heq. exfalso.
      assert (addr1 = addr2) as Ha by (unfold addr1, addr2; now rewrite Heq).
      assert (false = true) by (apply Hiff; now left). discriminate.
Qed.

End CompareFacts.

Lemma CompareAddresses_fallback_decides_witness :
  let check := spec.checkWithAddresses "12 Nguyen Hue, Quan 1" "12 Nguyen Hue - Quan 1." in
  models.BusinessAddress (models.General (models.Corporate check)) <> ""
  /\ models.BillingAddress (models.EVN (models.Land check)) <> ""
  /\ analysis.compareAddressesWithGemini spec.offlineCompareEnv
       (models.BusinessAddress (models.General (models.Corporate check)))
       (models.BillingAddress (models.EVN (models.Land check)))
     = inr "failed to create Gemini client: GEMINI_API_KEY is not set; set it in your environment or .env"
  /\ models.BillingAddressMatchesClient
       (models.EVN (models.Land (analysis.CompareAddresses spec.offlineCompareEnv check)))
     = models.Yes.
Proof.
  intros check.
  assert (H1 : models.BusinessAddress (models.General (models.Corporate check)) <> "")
    by (vm_compute; discriminate).
  assert (H2 : models.BillingAddress (models.EVN (models.Land check)) <> "")
    by (vm_compute; discriminate).
  assert (H3 : analysis.compareAddressesWithGemini spec.offlineCompareEnv
                 (models.BusinessAddress (models.General (models.Corporate check)))
                 (models.BillingAddress (models.EVN (models.Land check)))
               = inr "failed to create Gemini client: GEMINI_API_KEY is not set; set it in your environment or .env")
    by (vm_compute; reflexivity).
  split; [exact H1|]. split; [exact H2|]. split; [exact H3|].
  apply (proj1 (proj2 (CompareAddresses_fallback_decides spec.offlineCompareEnv check _ H1 H2 H3))).
  right. left. vm_compute. reflexivity.
Defined.

(** C7, the claim as stated fails in its two particulars.  At a shared-word
    ratio of exactly 50% the flag is no: three of the six words of each
    address are shared words longer than two bytes.  And inputs with disjoint
    content can match: an address of punctuation only has the empty normal
    form, which every text contains, and [Hanoi] stands in [Hanoi-City]
    although the two addresses have no word in common.  The semantic
    comparison fails in all three runs. *)
Lemma CompareAddresses_half_and_disjoint :
  let flagOf business billing :=
    models.BillingAddressMatchesClient
      (models.EVN
         (models.Land
            (analysis.CompareAddresses spec.offlineCompareEnv
               (spec.checkWithAddresses business billing)))) in
  let wordsOf address :=
    text.Fields (rt := spec.demoRuntime)
      (analysis.normalizeAddress (rt := spec.demoRuntime) analysis.replacements
         (text.ToLower (rt := spec.demoRuntime)
            (text.TrimSpace (rt := spec.demoRuntime) address))) in
  (exists err,
     forall business billing,
       analysis.compareAddressesWithGemini spec.offlineCompareEnv business billing
       = inr err)
  /\ (let words1 := wordsOf "123 Nguyen Hue Street, District 1" in
      let words2 := wordsOf "123 Nguyen Hue St, Dist 1" in
      (2 * length (List.filter (spec.sharedWith words2) words1)
       = Nat.max (length words1) (length words2))%nat
      /\ flagOf "123 Nguyen Hue Street, District 1" "123 Nguyen Hue St, Dist 1"
         = models.No)
  /\ (wordsOf "-" = []
      /\ flagOf "-" "12 Le Loi" = models.Yes)
  /\ ((forall w, w ∈ wordsOf "Hanoi" -> w ∉ wordsOf "Hanoi-City")
      /\ flagOf "Hanoi" "Hanoi-City" = models.Yes).
Proof.
  cbv zeta. split; [eexists; intros business billing; reflexivity|].
  split; [split; vm_compute; reflexivity|].
  split; [split; vm_compute; reflexivity|].
  split; [|vm_compute; reflexivity].
  intros w Hw Hw'. vm_compute in Hw, Hw'.
  apply list_elem_of_In in Hw, Hw'.
  destruct Hw as [<-|[]]. destruct Hw' as [Hw'|[]]. discriminate Hw'.
Qed.

(** ** The Gemini client: pacing and retries *)
Section LimiterFacts.
Import analysis.

Lemma acceptedStamps_app (ev1 ev2 : list Event) :
  acceptedStamps (ev1 ++ ev2)%list = (acceptedStamps ev1 ++ acceptedStamps ev2)%list.
Proof.
  induction ev1 as [|e ev1 IH]; simpl; [reflexivity|].
  destruct e; simpl; rewrite IH; reflexivity.
Qed.

Lemma backoffSleeps_app (ev1 ev2 : list Event) :
  backoffSleeps (ev1 ++ ev2)%list = (backoffSleeps ev1 ++ backoffSleeps ev2)%list.
Proof.
  induction ev1 as [|e ev1 IH]; simpl; [reflexivity|].
  destruct e; simpl; rewrite IH; reflexivity.
Qed.

Lemma maxDuration_value : maxDuration = 9223372036854775807%Z.
Proof. reflexivity. Qed.

Lemma minDuration_value : minDuration = (-9223372036854775808)%Z.
Proof. reflexivity. Qed.

Lemma geminiRateLimitDelay_value : geminiRateLimitDelay = 35000000000%Z.
Proof. reflexivity. Qed.

(** One pass through [enforceRateLimit]: exactly one call is accepted, its
    stamp is the new [lastGeminiRequest], read from the clock at least the
    minimum spacing after the previous one. *)
Lemma enforceRateLimit_stamp (over : N) (st : Limiter) :
  (lastGeminiRequest st <= now st)%Z ->
  exists stamp,
    acceptedStamps (snd (enforceRateLimit over st)) = [stamp]
    /\ backoffSleeps (snd (enforceRateLimit over st)) = []
    /\ lastGeminiRequest (fst (enforceRateLimit over st)) = stamp
    /\ now (fst (enforceRateLimit over st)) = stamp
    /\ (lastGeminiRequest st + geminiRateLimitDelay <= stamp)%Z.
Proof.
  intros Hle. unfold enforceRateLimit, time_Sub.
  rewrite maxDuration_value, minDuration_value, geminiRateLimitDelay_value.
  destruct (Z.ltb_spec
              (Z.max (-9223372036854775808)
                 (Z.min 9223372036854775807 (now st - lastGeminiRequest st)))
              35000000000) as [Hlt|Hge];
    eexists; simpl; (split; [reflexivity|]); (split; [reflexivity|]);
    (split; [reflexivity|]); (split; [reflexivity|]); lia.
Qed.

Lemma spaced_tail (gap s : Z) (stamps : list Z) :
  spaced gap (s :: stamps) -> spaced gap stamps.
Proof. destruct stamps; simpl; [trivial|]. intros [_ H]. exact H. Qed.

Lemma limiterRun_spaced (actions : list LimiterAction) :
  forall (st : Limiter) (s0 : Z),
    (lastGeminiRequest st <= now st)%Z ->
    (s0 <= lastGeminiRequest st)%Z ->
    spaced geminiRateLimitDelay (s0 :: acceptedStamps (snd (limiterRun actions st))).
Proof.
  induction actions as [|a actions IH]; intros st s0 Hle Hs0; [exact I|].
  cbn [limiterRun].
  destruct (limiterStep st a) as [st1 ev] eqn:Hstep.
  destruct (limiterRun actions st1) as [st' ev'] eqn:Hrun.
  cbn [snd]. rewrite acceptedStamps_app.
  destruct a as [d|over|]; cbn [limiterStep] in Hstep.
  - injection Hstep as <- <-. cbn [acceptedStamps app].
    specialize (IH (advance (Z.of_N d) st) s0). rewrite Hrun in IH. apply IH.
    + unfold advance; simpl; lia.
    + exact Hs0.
  - destruct (enforceRateLimit_stamp over st Hle)
      as (stamp & Hacc & _ & Hlast & Hnow & Hgap).
    rewrite Hstep in Hacc, Hlast, Hnow. cbn [fst snd] in Hacc, Hlast, Hnow.
    rewrite Hacc. cbn [app].
    specialize (IH st1 stamp). rewrite Hrun in IH. cbn [snd] in IH.
    change (spaced geminiRateLimitDelay (s0 :: stamp :: acceptedStamps ev'))
      with ((geminiRateLimitDelay <= stamp - s0)%Z
            /\ spaced geminiRateLimitDelay (stamp :: acceptedStamps ev')).
    split; [lia|]. apply IH; lia.
  - injection Hstep as <- <-. cbn [acceptedStamps app].
    specialize (IH (restamp st) s0). rewrite Hrun in IH. apply IH.
    + unfold restamp; simpl; lia.
    + unfold restamp; simpl; lia.
Qed.

(** C4: in every run of concurrent callers through the limiter - calls of
    [enforceRateLimit], re-stamps of retry branches and time passing, in any
    order - the start stamps of two consecutive accepted calls are at least
    the minimum spacing of 35 seconds apart, and the first is that far from
    the last stamp before the run. *)
Theorem enforceRateLimit_minimum_spacing (actions : list LimiterAction) (st : Limiter) :
  (lastGeminiRequest st <= now st)%Z ->
  geminiRateLimitDelay = (35 * Second)%Z
  /\ spaced geminiRateLimitDelay
       (lastGeminiRequest st :: acceptedStamps (snd (limiterRun actions st))).
Proof.
  intros Hle. split; [reflexivity|]. apply limiterRun_spaced; [exact Hle|lia].
Qed.

End LimiterFacts.

Lemma enforceRateLimit_minimum_spacing_witness :
  let st := {| analysis.now := 1000; analysis.lastGeminiRequest := 0 |} in
  let actions :=
    [analysis.Enforce 0; analysis.Tick 5000000000; analysis.Enforce 7;
     analysis.Restamp; analysis.Enforce 0] in
  (analysis.lastGeminiRequest st <= analysis.now st)%Z
  /\ analysis.acceptedStamps (snd (analysis.limiterRun actions st))
     = [35000000000; 70000000007; 105000000007]%Z
  /\ analysis.spaced analysis.geminiRateLimitDelay
       (analysis.lastGeminiRequest st
        :: analysis.acceptedStamps (snd (analysis.limiterRun actions st))).
Proof.
  intros st actions.
  assert (H : (analysis.lastGeminiRequest st <= analysis.now st)%Z) by (simpl; lia).
  split; [exact H|]. split; [vm_compute; reflexivity|].
  exact (proj2 (enforceRateLimit_minimum_spacing actions st H)).
Defined.


Section RetryFacts.
Context `{rt : GoRuntime}.
Import analysis.

Lemma analyze_503_retry (c : GeminiClient) (a : Attempt) (script : list Attempt)
    (text : string) (source : DocumentSource) (retryCount : Z) (st : Limiter) :
  spec.is503 a -> (retryCount < 3)%Z ->
  analyzeDocumentWithRetry c (a :: script) text source retryCount st
  = match
      analyzeDocumentWithRetry c script text source (retryCount + 1)
        (spec.afterRetry a (5 * Z.shiftl 1 retryCount * Second) st)
    with
    | Some (r, st', ev') =>
        Some (r, st',
              (snd (enforceRateLimit (limiter_over a) st)
               ++ EvBackoffSleep (5 * Z.shiftl 1 retryCount * Second) :: ev')%list)
    | None => None
    end.
Proof.
  intros (resp & Hout & Hcode) Hrc. cbn [analyzeDocumentWithRetry]. unfold spec.afterRetry.
  destruct (enforceRateLimit (limiter_over a) st) as [st1 ev]. cbn [fst snd].
  rewrite Hout, Hcode. cbn [Z.ltb Z.leb Z.eqb Z.compare Pos.compare Pos.compare_cont
                            Pos.eqb orb andb].
  replace (retryCount <? 3)%Z with true by (symmetry; apply Z.ltb_lt; exact Hrc).
  reflexivity.
Qed.

Lemma analyze_503_terminal (c : GeminiClient) (a : Attempt) (script : list Attempt)
    (text : string) (source : DocumentSource) (retryCount : Z) (st : Limiter)
    (resp : HttpResponse) :
  outcome a = Response resp -> StatusCode resp = 503%Z -> (3 <= retryCount)%Z ->
  analyzeDocumentWithRetry c (a :: script) text source retryCount st
  = Some (inr ("gemini http error: " ++ Status resp ++ " - " ++ Body resp),
          advance (Z.of_N (rtt a)) (fst (enforceRateLimit (limiter_over a) st)),
          snd (enforceRateLimit (limiter_over a) st)).
Proof.
  intros Hout Hcode Hrc. cbn [analyzeDocumentWithRetry].
  destruct (enforceRateLimit (limiter_over a) st) as [st1 ev]. cbn [fst snd].
  rewrite Hout, Hcode. cbn [Z.ltb Z.leb Z.eqb Z.compare Pos.compare Pos.compare_cont
                            Pos.eqb orb andb].
  replace (retryCount <? 3)%Z with false by (symmetry; apply Z.ltb_ge; exact Hrc).
  reflexivity.
Qed.

Lemma enforceRateLimit_events (over : N) (st : Limiter) :
  backoffSleeps (snd (enforceRateLimit over st)) = []
  /\ length (acceptedStamps (snd (enforceRateLimit over st))) = 1%nat.
Proof.
  unfold enforceRateLimit.
  destruct (time_Sub (now st) (lastGeminiRequest st) <? geminiRateLimitDelay)%Z;
    split; reflexivity.
Qed.

(** After a retry sleep the stamp is the present instant, so the limiter
    holds the next request for the whole of its delay. *)
Lemma enforceRateLimit_afterRetry (a : Attempt) (d : Z) (over : N) (st : Limiter) :
  (0 <= d)%Z ->
  enforceRateLimit over (spec.afterRetry a d st)
  = (let t := (now (fst (enforceRateLimit (limiter_over a) st)) + Z.of_N (rtt a)
               + (d + Z.of_N (sleep_over a))
               + (geminiRateLimitDelay + Z.of_N over))%Z in
     ({| now := t; lastGeminiRequest := t |},
      [EvRateLimitSleep geminiRateLimitDelay; EvAccepted t])).
Proof.
  intros Hd. unfold spec.afterRetry.
  set (st0 := fst (enforceRateLimit (limiter_over a) st)).
  unfold enforceRateLimit, restamp, time_Sleep, advance. cbn [now lastGeminiRequest].
  set (n := (now st0 + Z.max 0 (Z.of_N (rtt a))
             + Z.max 0 (Z.max 0 d + Z.of_N (sleep_over a)))%Z).
  assert (Hsub : time_Sub n n = 0%Z).
  { unfold time_Sub, maxDuration, minDuration. replace (n - n)%Z with 0%Z by lia.
    reflexivity. }
  rewrite Hsub. change (0 <? geminiRateLimitDelay)%Z with true. cbv iota zeta.
  replace (geminiRateLimitDelay - 0)%Z with geminiRateLimitDelay by lia.
  assert (Ht : (n + Z.max 0 (Z.max 0 geminiRateLimitDelay + Z.of_N over))%Z
               = (now st0 + Z.of_N (rtt a) + (d + Z.of_N (sleep_over a))
                  + (geminiRateLimitDelay + Z.of_N over))%Z).
  { unfold n, geminiRateLimitDelay, Second. lia. }
  rewrite Ht. reflexivity.
Qed.

(** C2: a request that keeps receiving HTTP 503 is retried three times and
    no more.  After the first three answers the client sleeps 5, 10 and 20
    seconds (strictly increasing, each the double of the one before), each
    sleep right after its 503 answer and before the next request; the fourth
    503 is not retried: the call returns the error that carries the status
    and the body of that response.  The clock is followed through the call:
    every retry is stamped after its sleep, so the limiter holds each next
    request a further 35 seconds, and the requests start at [t0 .. t3], at
    least 40, 45 and 55 seconds apart. *)
Theorem analyzeDocument_503_backoff (c : GeminiClient) (script : list Attempt)
    (text : string) (source : DocumentSource) (st : Limiter) :
  Forall spec.is503 script -> (4 <= length script)%nat ->
  exists (a0 a1 a2 a3 : Attempt) (rest : list Attempt) (resp : HttpResponse),
    script = a0 :: a1 :: a2 :: a3 :: rest
    /\ outcome a3 = Response resp
    /\ let t0 := now (fst (enforceRateLimit (limiter_over a0) st)) in
       let t1 := (t0 + Z.of_N (rtt a0) + (5 * Second + Z.of_N (sleep_over a0))
                  + (geminiRateLimitDelay + Z.of_N (limiter_over a1)))%Z in
       let t2 := (t1 + Z.of_N (rtt a1) + (10 * Second + Z.of_N (sleep_over a1))
                  + (geminiRateLimitDelay + Z.of_N (limiter_over a2)))%Z in
       let t3 := (t2 + Z.of_N (rtt a2) + (20 * Second + Z.of_N (sleep_over a2))
                  + (geminiRateLimitDelay + Z.of_N (limiter_over a3)))%Z in
       AnalyzeDocument c script text source st
       = Some (inr ("gemini http error: " ++ Status resp ++ " - " ++ Body resp),
               {| now := t3 + Z.of_N (rtt a3); lastGeminiRequest := t3 |},
               (snd (enforceRateLimit (limiter_over a0) st)
                ++ [EvBackoffSleep (5 * Second);
                    EvRateLimitSleep geminiRateLimitDelay; EvAccepted t1;
                    EvBackoffSleep (10 * Second);
                    EvRateLimitSleep geminiRateLimitDelay; EvAccepted t2;
                    EvBackoffSleep (20 * Second);
                    EvRateLimitSleep geminiRateLimitDelay; EvAccepted t3])%list).
Proof.
  intros Hall Hlen.
  destruct script as [|a0 [|a1 [|a2 [|a3 rest]]]]; try (simpl in Hlen; lia).
  apply Forall_cons in Hall as [H0 Hall]. apply Forall_cons in Hall as [H1 Hall].
  apply Forall_cons in Hall as [H2 Hall]. apply Forall_cons in Hall as [H3 _].
  destruct H3 as (resp & Hout & Hcode).
  exists a0, a1, a2, a3, rest, resp. split; [reflexivity|]. split; [exact Hout|].
  cbv zeta. unfold AnalyzeDocument.
  rewrite (analyze_503_retry c a0 _ text source 0 st H0) by lia.
  rewrite (analyze_503_retry c a1 _ text source (0 + 1) _ H1) by lia.
  rewrite (analyze_503_retry c a2 _ text source (0 + 1 + 1) _ H2) by lia.
  rewrite (analyze_503_terminal c a3 rest text source (0 + 1 + 1 + 1) _ resp Hout Hcode)
    by lia.
  change (5 * Z.shiftl 1 0 * Second)%Z with (5 * Second)%Z.
  change (5 * Z.shiftl 1 (0 + 1) * Second)%Z with (10 * Second)%Z.
  change (5 * Z.shiftl 1 (0 + 1 + 1) * Second)%Z with (20 * Second)%Z.
  repeat (rewrite !enforceRateLimit_afterRetry by (unfold Second; lia);
          cbv zeta; cbn [fst snd now lastGeminiRequest]).
  cbn [app].
  unfold advance. cbn [now lastGeminiRequest].
  rewrite (Z.max_r 0 (Z.of_N (rtt a3))) by lia.
  reflexivity.
Qed.

End RetryFacts.

Lemma analyzeDocument_503_backoff_witness :
  let c := {| analysis.apiKey := "key"; analysis.model := "gemini-2.5-pro" |} in
  let script := [spec.unavailable; spec.unavailable; spec.unavailable; spec.unavailable;
                 spec.unavailable] in
  let st := {| analysis.now := 1000; analysis.lastGeminiRequest := 0 |} in
  Forall spec.is503 script
  /\ (4 <= length script)%nat
  /\ analysis.AnalyzeDocument (rt := spec.demoRuntime) c script "text"
       analysis.SourceEVNBill st
     = Some (inr "gemini http error: 503 Service Unavailable - overloaded",
             {| analysis.now := 175004000000;
                analysis.lastGeminiRequest := 175003000000 |},
             [analysis.EvRateLimitSleep 34999999000; analysis.EvAccepted 35000000000;
              analysis.EvBackoffSleep 5000000000;
              analysis.EvRateLimitSleep 35000000000; analysis.EvAccepted 75001000000;
              analysis.EvBackoffSleep 10000000000;
              analysis.EvRateLimitSleep 35000000000; analysis.EvAccepted 120002000000;
              analysis.EvBackoffSleep 20000000000;
              analysis.EvRateLimitSleep 35000000000; analysis.EvAccepted 175003000000]).
Proof.
  intros c script st.
  assert (H : Forall spec.is503 script).
  { repeat (apply Forall_cons; split; [eexists; split; reflexivity|]). apply Forall_nil. exact I. }
  assert (Hlen : (4 <= length script)%nat) by (simpl; lia).
  split; [exact H|]. split; [exact Hlen|].
  destruct (analyzeDocument_503_backoff (rt := spec.demoRuntime) c script "text"
              analysis.SourceEVNBill st H Hlen)
    as (a0 & a1 & a2 & a3 & rest & resp & Hs & Hout & Hrun).
  injection Hs as <- <- <- <- <-. injection Hout as <-.
  cbv zeta in Hrun. rewrite Hrun. vm_compute. reflexivity.
Defined.

(** ** Facts about the [strings] functions *)
Lemma sapp_cons (x : ascii) (a b : string) :
  (String x a ++ b)%string = String x (a ++ b).
Proof. reflexivity. Qed.

Lemma sapp_nil_l (b : string) : ("" ++ b)%string = b.
Proof. reflexivity. Qed.

(** [String.append] does not unfold under [simpl]: its two equations are
    rewritten instead. *)
Ltac ssimpl :=
  repeat first [rewrite sapp_cons | rewrite sapp_nil_l | progress simpl].

Ltac ssimpl_in H :=
  repeat first [rewrite sapp_cons in H | rewrite sapp_nil_l in H | progress simpl in H].

Section StringFacts.
Import strings.

Lemma sapp_assoc (a b c : string) : ((a ++ b) ++ c)%string = (a ++ (b ++ c))%string.
Proof. induction a as [|x a IH]; ssimpl; [reflexivity|]. now rewrite IH. Qed.

Lemma sapp_nil_r (a : string) : (a ++ "")%string = a.
Proof. induction a as [|x a IH]; ssimpl; [reflexivity|]. now rewrite IH. Qed.

Lemma length_sapp (a b : string) :
  String.length (a ++ b) = (String.length a + String.length b)%nat.
Proof. induction a as [|x a IH]; ssimpl; [reflexivity|]. now rewrite IH. Qed.

Lemma drop_sapp (a b : string) : drop (String.length a) (a ++ b) = b.
Proof. induction a as [|x a IH]; ssimpl; [now destruct b|exact IH]. Qed.

Lemma drop_sapp_le (k : nat) (a b : string) :
  (k <= String.length a)%nat -> drop k (a ++ b) = (drop k a ++ b)%string.
Proof.
  revert a. induction k as [|k IH]; intros a Hk; [reflexivity|].
  destruct a as [|x a]; [simpl in Hk; lia|]. ssimpl. apply IH. simpl in Hk. lia.
Qed.

Lemma drop_length (s : string) : drop (String.length s) s = "".
Proof. induction s; simpl; auto. Qed.

Lemma substring_sapp (a b : string) (m : nat) :
  substring (String.length a) m (a ++ b) = substring 0 m b.
Proof. induction a as [|x a IH]; ssimpl; [reflexivity|exact IH]. Qed.

Lemma substring_0_sapp (a b : string) : substring 0 (String.length a) (a ++ b) = a.
Proof.
  induction a as [|x a IH]; ssimpl; [now destruct b|]. now rewrite IH.
Qed.

Lemma substring_0_sapp_le (m : nat) (a b : string) :
  (m <= String.length a)%nat -> substring 0 m (a ++ b) = substring 0 m a.
Proof.
  revert a. induction m as [|m IH]; intros a Hm.
  - now destruct a, b.
  - destruct a as [|x a]; [simpl in Hm; lia|]. simpl in Hm. ssimpl.
    rewrite IH by lia. reflexivity.
Qed.

Lemma substring_0_sapp_ge (m : nat) (a b : string) :
  (String.length a <= m)%nat ->
  substring 0 m (a ++ b) = (a ++ substring 0 (m - String.length a) b)%string.
Proof.
  revert m. induction a as [|x a IH]; intros m Hm; simpl in Hm; ssimpl.
  - now rewrite Nat.sub_0_r.
  - destruct m as [|m]; [lia|]. ssimpl. rewrite IH by lia. reflexivity.
Qed.

Lemma prefix_nil (s : string) : String.prefix "" s = true.
Proof. now destruct s. Qed.

Lemma prefix_sapp (f a b : string) :
  String.prefix f a = true -> String.prefix f (a ++ b) = true.
Proof.
  revert a. induction f as [|x f IH]; intros a H; [apply prefix_nil|].
  destruct a as [|y a]; simpl in H; [discriminate|]. ssimpl.
  destruct (ascii_dec x y); [now apply IH|discriminate].
Qed.

Lemma prefix_length (f a : string) :
  String.prefix f a = true -> (String.length f <= String.length a)%nat.
Proof.
  revert a. induction f as [|x f IH]; intros a H; simpl; [lia|].
  destruct a as [|y a]; simpl in *; [discriminate|].
  destruct (ascii_dec x y); [apply IH in H; lia|discriminate].
Qed.

(** A prefix that does not contain [o] ends before the first [o]. *)
Lemma prefix_before (f a b : string) (o : ascii) :
  byteIn o f = false ->
  String.prefix f (a ++ String o b) = true -> String.prefix f a = true.
Proof.
  revert a. induction f as [|x f IH]; intros a Ho H; [apply prefix_nil|].
  unfold byteIn in Ho. simpl in Ho. apply orb_false_iff in Ho as [Hx Ho].
  destruct a as [|y a]; ssimpl_in H; ssimpl.
  - destruct (ascii_dec x o) as [->|_]; [|discriminate].
    rewrite Ascii.eqb_refl in Hx. discriminate.
  - destruct (ascii_dec x y); [|discriminate]. now apply IH.
Qed.

Lemma trimLeft_sapp (a b : string) (ch : ascii) :
  isSpace ch = false ->
  exists a', trimLeft (a ++ String ch b) = (a' ++ String ch b)%string
             /\ exists k, a' = drop k a.
Proof.
  intros Hch. induction a as [|x a IH]; ssimpl.
  - rewrite Hch. exists "". split; [reflexivity|]. now exists 0%nat.
  - destruct (isSpace x).
    + destruct IH as (a' & He & k & Hk). exists a'. split; [exact He|].
      exists (S k). exact Hk.
    + exists (String x a). split; [reflexivity|]. now exists 0%nat.
Qed.

Lemma trimRight_cons (ch : ascii) (s : string) :
  isSpace ch = false -> trimRight (String ch s) = String ch (trimRight s).
Proof. intros H. simpl. destruct (trimRight s); [now rewrite H|reflexivity]. Qed.

Lemma trimRight_sapp (a b : string) :
  trimRight b <> "" -> trimRight (a ++ b) = (a ++ trimRight b)%string.
Proof.
  intros Hb. induction a as [|x a IH]; ssimpl; [reflexivity|].
  rewrite IH. destruct (a ++ trimRight b)%string eqn:He; [|reflexivity].
  destruct a; ssimpl_in He; [congruence|discriminate].
Qed.

Lemma trimRight_block (a : string) (ch : ascii) :
  isSpace ch = false -> trimRight (a ++ String ch "") = (a ++ String ch "")%string.
Proof.
  intros Hch. rewrite trimRight_sapp; rewrite trimRight_cons by exact Hch; simpl;
    [reflexivity|discriminate].
Qed.

End StringFacts.

(** ** The JSON extraction of the Gemini client *)
Section ExtractFacts.
Import strings analysis.

Lemma bracketFree_drop (k : nat) (s : string) :
  spec.bracketFree s -> spec.bracketFree (drop k s).
Proof.
  revert s. induction k as [|k IH]; intros s H; [exact H|].
  destruct s as [|x s]; [exact I|]. simpl. apply IH. apply H.
Qed.

Lemma indexAnyFrom_block (pre X : string) (o : ascii) (i : Z) :
  spec.bracketFree pre -> (o = "{"%char \/ o = "["%char) ->
  indexAnyFrom (pre ++ String o X) "{[" i = (i + len pre)%Z.
Proof.
  intros Hfree Ho. revert i. induction pre as [|x pre IH]; intros i; ssimpl.
  - replace (byteIn o "{[") with true; [unfold len; simpl; lia|].
    destruct Ho as [-> | ->]; reflexivity.
  - destruct Hfree as (H1 & H2 & Hfree).
    replace (byteIn x "{[") with false.
    + rewrite IH by exact Hfree. unfold len. simpl String.length. lia.
    + unfold byteIn. simpl.
      destruct (Ascii.eqb_spec x "{"%char); [congruence|].
      destruct (Ascii.eqb_spec x "["%char); [congruence|]. reflexivity.
Qed.

Lemma get_sapp (pre X : string) (o : ascii) :
  String.get (String.length pre) (pre ++ String o X) = Some o.
Proof. induction pre as [|x pre IH]; ssimpl; [reflexivity|exact IH]. Qed.

Lemma byteIn_sapp (c : ascii) (X Y : string) : byteIn c (X ++ String c Y) = true.
Proof.
  unfold byteIn. induction X as [|x X IH]; ssimpl.
  - now rewrite Ascii.eqb_refl.
  - rewrite IH. apply orb_true_r.
Qed.

Lemma shape_TrimSpace (o c : ascii) (body content : string) :
  isSpace o = false -> isSpace c = false ->
  spec.shape o c body content -> spec.shape o c body (TrimSpace content).
Proof.
  intros Ho Hc (pre & rest & -> & Hfree). unfold TrimSpace.
  destruct (trimLeft_sapp pre (body ++ String c rest) o Ho) as (a' & -> & k & ->).
  exists (drop k pre), (trimRight rest). split; [|now apply bracketFree_drop].
  replace (drop k pre ++ String o (body ++ String c rest))%string
    with ((drop k pre ++ String o body) ++ String c rest)%string
    by (rewrite sapp_assoc; reflexivity).
  rewrite trimRight_sapp; rewrite trimRight_cons by exact Hc; [|discriminate].
  rewrite sapp_assoc. reflexivity.
Qed.

Lemma shape_TrimPrefix (o c : ascii) (body content f : string) :
  byteIn o f = false ->
  spec.shape o c body content -> spec.shape o c body (TrimPrefix content f).
Proof.
  intros Hf (pre & rest & -> & Hfree). unfold TrimPrefix, HasPrefix.
  destruct (String.prefix f (pre ++ String o (body ++ String c rest))) eqn:Hp.
  - apply prefix_before in Hp; [|exact Hf]. apply prefix_length in Hp.
    rewrite drop_sapp_le by exact Hp.
    exists (drop (String.length f) pre), rest. split; [reflexivity|].
    now apply bracketFree_drop.
  - exists pre, rest. split; [reflexivity|exact Hfree].
Qed.

Lemma shape_TrimSuffix (o c : ascii) (body content suf : string) :
  byteIn c suf = false ->
  spec.shape o c body content -> spec.shape o c body (TrimSuffix content suf).
Proof.
  intros Hsuf (pre & rest & -> & Hfree). unfold TrimSuffix, HasSuffix.
  set (s := (pre ++ String o (body ++ String c rest))%string).
  destruct (Nat.leb_spec (String.length suf) (String.length s)) as [Hle|Hlt];
    [|exists pre, rest; split; [reflexivity|exact Hfree]].
  destruct (String.eqb_spec (drop (String.length s - String.length suf) s) suf)
    as [Heq|Hne]; [|exists pre, rest; split; [reflexivity|exact Hfree]].
  simpl andb. cbv iota.
  assert (Hs : s = ((pre ++ String o body) ++ String c rest)%string)
    by (unfold s; rewrite sapp_assoc; reflexivity).
  assert (Hlen : String.length s
                 = (String.length (pre ++ String o body) + S (String.length rest))%nat)
    by (rewrite Hs, length_sapp; reflexivity).
  destruct (Nat.le_gt_cases (String.length suf) (String.length rest)) as [Hfit|Hover].
  - exists pre,
      (substring 0 (String.length rest - String.length suf) rest).
    split; [|exact Hfree].
    replace s with (((pre ++ String o body) ++ String c "") ++ rest)%string
      by (rewrite Hs, (sapp_assoc _ (String c "") rest); reflexivity).
    rewrite substring_0_sapp_ge.
    + rewrite !length_sapp. simpl String.length.
      replace (String.length pre + S (String.length body) + 1 + String.length rest
               - String.length suf
               - (String.length pre + S (String.length body) + 1))%nat
        with (String.length rest - String.length suf)%nat by lia.
      rewrite !sapp_assoc. reflexivity.
    + rewrite !length_sapp. simpl String.length. lia.
  - exfalso. rewrite Hs in Heq at 2.
    rewrite drop_sapp_le in Heq by lia.
    rewrite <- Heq in Hsuf. rewrite byteIn_sapp in Hsuf. discriminate.
Qed.

(** The loop of the scanner over the inside of a block, entered with
    [1 + d] brackets open. *)
Lemma matchClose_body (o c : ascii) (rest : string) :
  o <> c ->
  forall (body : string) (d i : Z),
    (forall q r, body = (q ++ r)%string -> (0 <= d + spec.depth o c q)%Z) ->
    (d + spec.depth o c body = 0)%Z ->
    matchClose (body ++ String c rest) o c i (1 + d) = (i + len body + 1)%Z.
Proof.
  intros Hoc. induction body as [|ch body IH]; intros d i Hpre Hzero; ssimpl.
  - simpl in Hzero.
    destruct (Ascii.eqb_spec c o) as [->|_]; [congruence|].
    rewrite Ascii.eqb_refl.
    replace (1 + d - 1 =? 0)%Z with true by (symmetry; apply Z.eqb_eq; lia).
    unfold len. simpl. lia.
  - simpl in Hzero.
    assert (Hstep : forall q r, body = (q ++ r)%string ->
                      (0 <= d + spec.depth o c (String ch "") + spec.depth o c q)%Z).
    { intros q r ->. specialize (Hpre (String ch q) r eq_refl).
      simpl in Hpre |- *. lia. }
    assert (Hone := Hpre (String ch "") body eq_refl).
    simpl in Hstep, Hone.
    replace (len (String ch body)) with (1 + len body)%Z
      by (unfold len; simpl String.length; lia).
    destruct (Ascii.eqb_spec ch o) as [->|Hno].
    + replace (1 + d + 1)%Z with (1 + (d + 1))%Z by lia.
      rewrite IH; [lia| |lia].
      intros q r Hq. specialize (Hstep q r Hq). lia.
    + destruct (Ascii.eqb_spec ch c) as [->|Hnc].
      * replace (1 + d - 1 =? 0)%Z with false by (symmetry; apply Z.eqb_neq; lia).
        replace (1 + d - 1)%Z with (1 + (d - 1))%Z by lia.
        rewrite IH; [lia| |lia].
        intros q r Hq. specialize (Hstep q r Hq). lia.
      * rewrite IH; [lia| |lia].
        intros q r Hq. specialize (Hstep q r Hq). lia.
Qed.

Lemma isSpace_bracket (o c : ascii) :
  spec.bracketPair o c -> isSpace o = false /\ isSpace c = false /\ o <> c.
Proof. intros [[-> ->]|[-> ->]]; repeat split; discriminate. Qed.

(** The scanner on a content of the shape above returns the block. *)
Lemma scan_shape (o c : ascii) (body content : string) :
  spec.bracketPair o c ->
  spec.depth o c body = 0%Z ->
  (forall q r, body = (q ++ r)%string -> (0 <= spec.depth o c q)%Z) ->
  spec.shape o c body content ->
  (let start := IndexAny content "{[" in
   if (start =? -1)%Z then ""
   else
     let '(openChar, closeChar) :=
       match byteAt content start with
       | Some "{"%char => ("{"%char, "}"%char)
       | _ => ("["%char, "]"%char)
       end in
     let end_ := matchClose (drop (Z.to_nat start) content) openChar closeChar start 0 in
     if (end_ =? 0)%Z then "" else TrimSpace (slice content start end_))
  = String o (body ++ String c "").
Proof.
  intros Hpair Hzero Hprefix (pre & rest & -> & Hfree).
  destruct (isSpace_bracket o c Hpair) as (Hso & Hsc & Hoc).
  cbv zeta. unfold IndexAny.
  rewrite indexAnyFrom_block;
    [|exact Hfree|destruct Hpair as [[-> _]|[-> _]]; [now left|now right]].
  replace (0 + len pre =? -1)%Z with false
    by (symmetry; apply Z.eqb_neq; unfold len; lia).
  unfold byteAt.
  replace (Z.to_nat (0 + len pre)) with (String.length pre) by (unfold len; lia).
  rewrite get_sapp, drop_sapp.
  assert (Hscan :
            matchClose (String o (body ++ String c rest)) o c (0 + len pre) 0
            = (0 + len pre + 1 + len body + 1)%Z).
  { cbn [matchClose]. rewrite Ascii.eqb_refl.
    replace (0 + 1)%Z with (1 + 0)%Z by lia.
    rewrite (matchClose_body o c rest Hoc body 0); [lia| |lia].
    intros q r Hq. specialize (Hprefix q r Hq). lia. }
  assert (Hsel :
            match Some o with
            | Some "{"%char => ("{"%char, "}"%char)
            | _ => ("["%char, "]"%char)
            end = (o, c))
    by (destruct Hpair as [[-> ->]|[-> ->]]; reflexivity).
  rewrite Hsel, Hscan.
  replace (0 + len pre + 1 + len body + 1 =? 0)%Z with false
    by (symmetry; apply Z.eqb_neq; unfold len; lia).
  unfold slice.
  replace (Z.to_nat (0 + len pre)) with (String.length pre) by (unfold len; lia).
  replace (Z.to_nat (0 + len pre + 1 + len body + 1 - (0 + len pre)))
    with (String.length (String o (body ++ String c "")))
    by (simpl String.length; rewrite length_sapp; simpl String.length; unfold len; lia).
  rewrite substring_sapp.
  replace (String o (body ++ String c rest))
    with (String o (body ++ String c "") ++ rest)%string
    by (rewrite sapp_cons, sapp_assoc; reflexivity).
  rewrite substring_0_sapp.
  unfold TrimSpace. simpl trimLeft. rewrite Hso.
  rewrite trimRight_cons by exact Hso. rewrite trimRight_block by exact Hsc.
  reflexivity.
Qed.

(** Any content that holds a balanced block after a bracket-free prefix:
    the scanner returns the block, whatever follows it. *)
Lemma extractJSONFromGemini_block (o c : ascii) (p pre rest : string) :
  spec.bracketPair o c -> spec.balancedBlock o c p -> spec.bracketFree pre ->
  extractJSONFromGemini (pre ++ p ++ rest) = p.
Proof.
  intros Hpair (body & -> & Hzero & Hprefix) Hfree.
  destruct (isSpace_bracket o c Hpair) as (Hso & Hsc & Hoc).
  assert (Hshape : spec.shape o c body (pre ++ String o (body ++ String c "") ++ rest)).
  { exists pre, rest. split; [|exact Hfree].
    rewrite sapp_cons, sapp_assoc. reflexivity. }
  apply (shape_TrimSpace o c body _ Hso Hsc) in Hshape.
  unfold extractJSONFromGemini.
  set (content := TrimSpace (pre ++ String o (body ++ String c "") ++ rest)) in *.
  assert (Hfence : forall f, byteIn o f = false ->
                     spec.shape o c body (TrimSuffix (TrimPrefix content f) "```")).
  { intros f Hf. apply shape_TrimSuffix;
      [destruct Hpair as [[_ ->]|[_ ->]]; reflexivity|].
    now apply shape_TrimPrefix. }
  assert (Hj : byteIn o "```json" = false)
    by (destruct Hpair as [[-> _]|[-> _]]; reflexivity).
  assert (Ht : byteIn o "```" = false)
    by (destruct Hpair as [[-> _]|[-> _]]; reflexivity).
  destruct (HasPrefix content "```json").
  - apply (scan_shape o c body _ Hpair Hzero Hprefix (Hfence _ Hj)).
  - destruct (HasPrefix content "```").
    + apply (scan_shape o c body _ Hpair Hzero Hprefix (Hfence _ Ht)).
    + apply (scan_shape o c body _ Hpair Hzero Hprefix Hshape).
Qed.

End ExtractFacts.

Section UnmarshalFacts.
Context `{rt : GoRuntime}.
Import strings analysis.

Lemma sapp_inj_l (a b c : string) : (a ++ b)%string = (a ++ c)%string -> b = c.
Proof.
  induction a as [|x a IH]; ssimpl; [trivial|]. intros H. injection H as H. now apply IH.
Qed.

Lemma itemKey_inj (i j : nat) : spec.itemKey i = spec.itemKey j -> i = j.
Proof. unfold spec.itemKey. intros H. apply sapp_inj_l in H. now apply (inj pretty). Qed.

Lemma wrapFrom_other (arr : list (JSON float64)) :
  forall (i : nat) (result : gmap string (JSON float64)) (k : string),
    (forall j, k <> spec.itemKey (i + j)) ->
    wrapFrom arr i result !! k = result !! k.
Proof.
  induction arr as [|item arr IH]; intros i result k Hk; simpl; [reflexivity|].
  rewrite IH.
  - apply lookup_insert_ne. specialize (Hk 0%nat). rewrite Nat.add_0_r in Hk.
    fold (spec.itemKey i). congruence.
  - intros j. specialize (Hk (S j)). now rewrite Nat.add_succ_r in Hk.
Qed.

Lemma wrapFrom_lookup (arr : list (JSON float64)) :
  forall (i : nat) (result : gmap string (JSON float64)) (j : nat),
    wrapFrom arr i result !! spec.itemKey (i + j)
    = match arr !! j with
      | Some v => Some v
      | None => result !! spec.itemKey (i + j)
      end.
Proof.
  induction arr as [|item arr IH]; intros i result j; simpl; [reflexivity|].
  fold (spec.itemKey i). destruct j as [|j]; simpl.
  - rewrite Nat.add_0_r. rewrite wrapFrom_other.
    + apply lookup_insert_eq.
    + intros j Hj. apply itemKey_inj in Hj. lia.
  - rewrite Nat.add_succ_r. change (S (i + j)) with (S i + j)%nat. rewrite IH.
    destruct (arr !! j); [reflexivity|].
    apply lookup_insert_ne. intros Hj. apply itemKey_inj in Hj. lia.
Qed.

Lemma wrapFrom_size (arr : list (JSON float64)) :
  forall (i : nat) (result : gmap string (JSON float64)),
    (forall j, result !! spec.itemKey (i + j) = None) ->
    size (wrapFrom arr i result) = (size result + length arr)%nat.
Proof.
  induction arr as [|item arr IH]; intros i result Hfresh; simpl; [lia|].
  fold (spec.itemKey i). rewrite IH.
  - rewrite map_size_insert_None; [lia|].
    specialize (Hfresh 0%nat). now rewrite Nat.add_0_r in Hfresh.
  - intros j. rewrite lookup_insert_ne.
    + specialize (Hfresh (S j)). now rewrite Nat.add_succ_r in Hfresh.
    + intros Hj. apply itemKey_inj in Hj. lia.
Qed.

(** C6 (amended): for a payload that is one block of balanced braces or of
    balanced square brackets under the scanner's own count (every byte
    counts, those inside a string literal too), the scanner returns the
    payload from a response that
    wraps it in a json fence, and from a response with any bracket-free
    prose before it (whatever follows it); a payload that unmarshals as an
    array becomes the map with the key item_i for the item at position i
    and no other key, a payload that unmarshals as an object is that map,
    and [decodeBody] returns this map for a response whose first part holds
    the payload. *)
Theorem extractJSONFromGemini_recovers_payload (openChar closeChar : ascii) (p : string) :
  spec.bracketPair openChar closeChar ->
  spec.balancedBlock openChar closeChar p ->
  extractJSONFromGemini ("```json" ++ spec.nl ++ p ++ spec.nl ++ "```") = p
  /\ (forall prose rest,
        spec.bracketFree prose -> extractJSONFromGemini (prose ++ p ++ rest) = p)
  /\ (forall items,
        json_Unmarshal p = inl (JArr items) ->
        exists result,
          unmarshalResult p = inl result
          /\ (forall i, result !! spec.itemKey i = items !! i)
          /\ size result = length items)
  /\ (forall fields, json_Unmarshal p = inl (JObj fields) -> unmarshalResult p = inl fields)
  /\ (forall body content parts candidates,
        json_GeminiResponse body = inl ("", (content :: parts) :: candidates) ->
        extractJSONFromGemini content = p ->
        decodeBody body = unmarshalResult p).
Proof.
  intros Hpair Hblock. split; [|split; [|split; [|split]]].
  - replace ("```json" ++ spec.nl ++ p ++ spec.nl ++ "```")%string
      with (("```json" ++ spec.nl) ++ p ++ (spec.nl ++ "```"))%string
      by (rewrite !sapp_assoc; reflexivity).
    apply (extractJSONFromGemini_block openChar closeChar); [exact Hpair|exact Hblock|].
    simpl. repeat split; discriminate.
  - intros prose rest Hfree.
    now apply (extractJSONFromGemini_block openChar closeChar).
  - intros items Hjson. exists (wrapFrom items 0 ∅).
    split; [unfold unmarshalResult; now rewrite Hjson|]. split.
    + intros i. pose proof (wrapFrom_lookup items 0 ∅ i) as Hl. simpl in Hl.
      rewrite Hl. destruct (items !! i); [reflexivity|apply lookup_empty].
    + rewrite wrapFrom_size; [now rewrite map_size_empty|].
      intros j. apply lookup_empty.
  - intros fields Hjson. unfold unmarshalResult. now rewrite Hjson.
  - intros body content parts candidates Hbody Hcontent. unfold decodeBody.
    rewrite Hbody, Hcontent. simpl.
    destruct Hblock as (inner & -> & _). reflexivity.
Qed.

End UnmarshalFacts.

Lemma extractJSONFromGemini_recovers_payload_witness :
  spec.bracketPair "[" "]"
  /\ spec.balancedBlock "[" "]" "[7, 8]"
  /\ analysis.extractJSONFromGemini ("```json" ++ spec.nl ++ "[7, 8]" ++ spec.nl ++ "```")
     = "[7, 8]"
  /\ analysis.extractJSONFromGemini ("Here are the values: " ++ "[7, 8]" ++ " as asked.")
     = "[7, 8]"
  /\ exists result,
       analysis.unmarshalResult (rt := spec.demoRuntime) "[7, 8]" = inl result
       /\ (forall i, result !! spec.itemKey i = [JNum 7%Z; JNum 8%Z] !! i)
       /\ size result = 2%nat.
Proof.
  assert (Hpair : spec.bracketPair "[" "]") by (right; split; reflexivity).
  assert (Hblock : spec.balancedBlock "[" "]" "[7, 8]").
  { exists "7, 8". split; [reflexivity|]. split; [reflexivity|].
    intros q r Hq.
    do 5 (destruct q as [|? q];
          [simpl; lia|rewrite sapp_cons in Hq; try discriminate Hq;
                      injection Hq as <- Hq]). }
  pose proof (extractJSONFromGemini_recovers_payload (rt := spec.demoRuntime)
                "[" "]" "[7, 8]" Hpair Hblock) as (Hfence & Hprose & Harr & _).
  split; [exact Hpair|]. split; [exact Hblock|]. split; [exact Hfence|].
  split; [apply Hprose; simpl; repeat split; discriminate|].
  apply (Harr [JNum 7%Z; JNum 8%Z]). reflexivity.
Defined.

(** C6, the claim as stated fails: the scanner counts the brackets inside
    string literals and starts at the first opening bracket of the response.
    A JSON object whose string holds a closing brace comes back cut at that
    brace, out of a json fence too; and with a bracket in the prose in front
    the scanner returns the piece of prose, not the payload. *)
Lemma extractJSONFromGemini_miscounts :
  let payload :=
    "{" ++ spec.quoted "note" ++ ":" ++ spec.quoted "see clause 3}" ++ "}" in
  analysis.extractJSONFromGemini ("```json" ++ spec.nl ++ payload ++ spec.nl ++ "```")
  = "{" ++ spec.quoted "note" ++ ":" ++ analysis.dq ++ "see clause 3}"
  /\ analysis.extractJSONFromGemini ("```json" ++ spec.nl ++ payload ++ spec.nl ++ "```")
     <> payload
  /\ analysis.extractJSONFromGemini ("Result [draft]: " ++ payload) = "[draft]"
  /\ analysis.extractJSONFromGemini ("Result [draft]: " ++ payload) <> payload.
Proof.
  cbv zeta. split; [vm_compute; reflexivity|]. split; [vm_compute; discriminate|].
  split; [vm_compute; reflexivity|vm_compute; discriminate].
Qed.

(** ** The merge under [checkMutex] *)
Section MergeFacts.
Context `{rt : GoRuntime}.
Import batch.

Implicit Types (tasks : list MergeTask) (st : MergeState) (i j : nat).

Lemma insert_lookup_case {A : Type} (l : list A) (i j : nat) (x y : A) :
  l !! i = Some y ->
  <[i := x]> l !! j = if decide (i = j) then Some x else l !! j.
Proof.
  intros Hi. destruct (decide (i = j)) as [->|Hne].
  - apply list_lookup_insert_eq. now apply lookup_lt_Some in Hi.
  - now apply list_lookup_insert_ne.
Qed.

Section Invariant.
Variable tasks : list MergeTask.
Variable present : nat -> models.CustomerCheck -> Prop.

Hypothesis sets_own :
  forall i task data check,
    tasks !! i = Some task -> m_analysis task = inl data ->
    present i (analysis.UpdateCustomerCheck check data (m_source task)).

Hypothesis keeps_others :
  forall i j task data check,
    i <> j -> tasks !! j = Some task -> m_analysis task = inl data ->
    present i check ->
    present i (analysis.UpdateCustomerCheck check data (m_source task)).

Lemma mergeInv_init (check : models.CustomerCheck) : spec.mergeInv present (mergeInit tasks check).
Proof.
  split; unfold mergeInit; simpl.
  - intros i pc Hi Hh. apply lookup_replicate in Hi as [-> _]. discriminate.
  - intros i Hi. discriminate.
  - intros i local Hi. apply lookup_replicate in Hi as [Hi _]. discriminate.
  - intros i pc Hi [->| ->]; apply lookup_replicate in Hi as [Hi _]; discriminate.
Qed.

Lemma mergeInv_step (st st' : MergeState) (i : nat) :
  spec.mergeInv present st -> mergeStep tasks st i = Some st' -> spec.mergeInv present st'.
Proof.
  intros [H1 H2 H3 H4] Hstep. unfold mergeStep in Hstep.
  destruct (tasks !! i) as [task|] eqn:Htask; [|discriminate].
  destruct (m_pcs st !! i) as [pc|] eqn:Hpc; [|discriminate].
  destruct pc as [| | |local| | |]; try discriminate.
  - (* AnalyzeDocument returns *)
    injection Hstep as <-. split; simpl.
    + intros j pc Hj Hh. rewrite (insert_lookup_case _ _ _ _ _ Hpc) in Hj.
      destruct (decide (i = j)) as [->|Hne]; [|now apply (H1 j pc)].
      injection Hj as <-. destruct (m_analysis task); discriminate.
    + intros j Hj. destruct (H2 j Hj) as (pc & Hl & Hh).
      exists pc. split; [|exact Hh]. rewrite (insert_lookup_case _ _ _ _ _ Hpc).
      destruct (decide (i = j)) as [->|Hne]; [|exact Hl].
      rewrite Hpc in Hl. injection Hl as <-. discriminate.
    + intros j local Hj. rewrite (insert_lookup_case _ _ _ _ _ Hpc) in Hj.
      destruct (decide (i = j)) as [->|Hne]; [|now apply (H3 j)].
      injection Hj as Hj. destruct (m_analysis task); discriminate.
    + intros j pc Hj Hm. rewrite (insert_lookup_case _ _ _ _ _ Hpc) in Hj.
      destruct (decide (i = j)) as [->|Hne]; [|now apply (H4 j pc)].
      injection Hj as <-. destruct (m_analysis task), Hm; discriminate.
  - (* Lock *)
    destruct (m_mutex st) as [holder|] eqn:Hmutex; [discriminate|].
    injection Hstep as <-. split; simpl.
    + intros j pc Hj Hh. rewrite (insert_lookup_case _ _ _ _ _ Hpc) in Hj.
      destruct (decide (i = j)) as [->|Hne]; [reflexivity|].
      specialize (H1 j pc Hj Hh). discriminate.
    + intros j Hj. injection Hj as <-. exists MLocked.
      split; [|reflexivity]. rewrite (insert_lookup_case _ _ _ _ _ Hpc).
      now destruct (decide (i = i)).
    + intros j local Hj. rewrite (insert_lookup_case _ _ _ _ _ Hpc) in Hj.
      destruct (decide (i = j)) as [->|Hne]; [discriminate|now apply (H3 j)].
    + intros j pc Hj Hm. rewrite (insert_lookup_case _ _ _ _ _ Hpc) in Hj.
      destruct (decide (i = j)) as [->|Hne]; [|now apply (H4 j pc)].
      injection Hj as <-. destruct Hm; discriminate.
  - (* the load of UpdateCustomerCheck *)
    injection Hstep as <-. split; simpl.
    + intros j pc Hj Hh. rewrite (insert_lookup_case _ _ _ _ _ Hpc) in Hj.
      destruct (decide (i = j)) as [->|Hne]; [|now apply (H1 j pc)].
      now apply (H1 j MLocked).
    + intros j Hj. destruct (H2 j Hj) as (pc & Hl & Hh).
      rewrite (insert_lookup_case _ _ _ _ _ Hpc).
      destruct (decide (i = j)) as [->|Hne]; [|now exists pc].
      now exists (MLoaded (m_check st)).
    + intros j local Hj. rewrite (insert_lookup_case _ _ _ _ _ Hpc) in Hj.
      destruct (decide (i = j)) as [->|Hne]; [|now apply (H3 j)].
      now injection Hj as <-.
    + intros j pc Hj Hm. rewrite (insert_lookup_case _ _ _ _ _ Hpc) in Hj.
      destruct (decide (i = j)) as [->|Hne]; [|now apply (H4 j pc)].
      injection Hj as <-. destruct Hm; discriminate.
  - (* the store of UpdateCustomerCheck *)
    destruct (m_analysis task) as [data|] eqn:Hdata; [|discriminate].
    injection Hstep as <-.
    assert (Hlocal : local = m_check st) by now apply (H3 i).
    assert (Hholder : m_mutex st = Some i) by now apply (H1 i (MLoaded local)).
    subst local. split; simpl.
    + intros j pc Hj Hh. rewrite (insert_lookup_case _ _ _ _ _ Hpc) in Hj.
      destruct (decide (i = j)) as [->|Hne]; [exact Hholder|now apply (H1 j pc)].
    + intros j Hj. destruct (H2 j Hj) as (pc & Hl & Hh).
      rewrite (insert_lookup_case _ _ _ _ _ Hpc).
      destruct (decide (i = j)) as [->|Hne]; [|now exists pc].
      now exists MStored.
    + intros j local Hj. rewrite (insert_lookup_case _ _ _ _ _ Hpc) in Hj.
      destruct (decide (i = j)) as [->|Hne]; [discriminate|].
      (* another thread between its load and its store would hold the mutex too *)
      specialize (H1 j (MLoaded local) Hj eq_refl). congruence.
    + intros j pc Hj Hm. rewrite (insert_lookup_case _ _ _ _ _ Hpc) in Hj.
      destruct (decide (i = j)) as [->|Hne].
      * now apply (sets_own j task data).
      * apply (keeps_others j i task data); [congruence|exact Htask|exact Hdata|].
        now apply (H4 j pc).
  - (* Unlock *)
    injection Hstep as <-.
    assert (Hholder : m_mutex st = Some i) by now apply (H1 i MStored).
    split; simpl.
    + intros j pc Hj Hh. rewrite (insert_lookup_case _ _ _ _ _ Hpc) in Hj.
      destruct (decide (i = j)) as [->|Hne]; [injection Hj as <-; discriminate|].
      specialize (H1 j pc Hj Hh). congruence.
    + intros j Hj. discriminate.
    + intros j local Hj. rewrite (insert_lookup_case _ _ _ _ _ Hpc) in Hj.
      destruct (decide (i = j)) as [->|Hne]; [discriminate|now apply (H3 j)].
    + intros j pc Hj Hm. rewrite (insert_lookup_case _ _ _ _ _ Hpc) in Hj.
      destruct (decide (i = j)) as [->|Hne]; [|now apply (H4 j pc)].
      now apply (H4 j MStored); [|left].
Qed.

Lemma mergeInv_run (sched : list nat) :
  forall st, spec.mergeInv present st -> spec.mergeInv present (mergeRun tasks sched st).
Proof.
  induction sched as [|i sched IH]; intros st Hinv; simpl; [exact Hinv|].
  destruct (mergeStep tasks st i) as [st'|] eqn:Hstep.
  - apply IH. now apply (mergeInv_step st st' i).
  - now apply IH.
Qed.

End Invariant.

(** C8: the merges of the tasks of a batch into the shared record, each a
    load and a store of the record between [checkMutex.Lock()] and
    [checkMutex.Unlock()], under every schedule.  At every point of the run
    the holder of the mutex is between its Lock and its Unlock - no task
    that awaits [client.AnalyzeDocument] holds it - and no two tasks are
    there at once.  If every merge sets a field of its own and keeps the
    fields of the others, then the field of every task that has returned
    from its merge is present in the record: no update is lost. *)
Theorem merge_under_mutex_no_lost_update
    (tasks : list MergeTask) (check0 : models.CustomerCheck)
    (present : nat -> models.CustomerCheck -> Prop) (sched : list nat) :
  (forall i task data check,
      tasks !! i = Some task -> m_analysis task = inl data ->
      present i (analysis.UpdateCustomerCheck check data (m_source task))) ->
  (forall i j task data check,
      i <> j -> tasks !! j = Some task -> m_analysis task = inl data ->
      present i check ->
      present i (analysis.UpdateCustomerCheck check data (m_source task))) ->
  (forall k,
      let st := mergeRun tasks (take k sched) (mergeInit tasks check0) in
      (forall i, m_mutex st = Some i ->
         exists pc, m_pcs st !! i = Some pc /\ holdsMutex pc = true /\ pc <> MAnalyzing)
      /\ (forall i j pci pcj,
            m_pcs st !! i = Some pci -> m_pcs st !! j = Some pcj ->
            holdsMutex pci = true -> holdsMutex pcj = true -> i = j))
  /\ (let st := mergeRun tasks sched (mergeInit tasks check0) in
      forall i, m_pcs st !! i = Some MFinished -> present i (m_check st)).
Proof.
  intros Hown Hothers. split.
  - intros k st.
    assert (Hinv : spec.mergeInv present st)
      by (apply (mergeInv_run tasks present Hown Hothers), mergeInv_init).
    destruct Hinv as [H1 H2 _ _]. split.
    + intros i Hi. destruct (H2 i Hi) as (pc & Hl & Hh). exists pc.
      repeat split; [exact Hl|exact Hh|]. intros ->. discriminate.
    + intros i j pci pcj Hi Hj Hhi Hhj.
      pose proof (H1 i pci Hi Hhi) as Ei. pose proof (H1 j pcj Hj Hhj) as Ej. congruence.
  - intros st i Hi.
    assert (Hinv : spec.mergeInv present st)
      by (apply (mergeInv_run tasks present Hown Hothers), mergeInv_init).
    destruct Hinv as [_ _ _ H4]. apply (H4 i MFinished Hi). now right.
Qed.

End MergeFacts.

Lemma merge_under_mutex_no_lost_update_witness :
  let tasks := spec.threeTasks in
  let sched := [0; 1; 2; 0; 1; 2; 0; 1; 0; 2; 0; 1; 1; 1; 1; 2; 2; 2; 2]%nat in
  let st :=
    batch.mergeRun (rt := spec.demoRuntime) tasks sched
      (batch.mergeInit tasks models.zeroCustomerCheck) in
  (forall i task data check,
      tasks !! i = Some task -> batch.m_analysis task = inl data ->
      spec.threePresent i
        (analysis.UpdateCustomerCheck check data (batch.m_source task)))
  /\ (forall i j task data check,
        i <> j -> tasks !! j = Some task -> batch.m_analysis task = inl data ->
        spec.threePresent i check ->
        spec.threePresent i
          (analysis.UpdateCustomerCheck check data (batch.m_source task)))
  /\ batch.m_pcs st = [batch.MFinished; batch.MFinished; batch.MFinished]
  /\ spec.threePresent 0 (batch.m_check st)
  /\ spec.threePresent 1 (batch.m_check st)
  /\ spec.threePresent 2 (batch.m_check st).
Proof.
  intros tasks sched st.
  assert (Hown : forall i task data check,
             tasks !! i = Some task -> batch.m_analysis task = inl data ->
             spec.threePresent i
               (analysis.UpdateCustomerCheck check data (batch.m_source task))).
  { intros i task data check Hi Hd.
    destruct i as [|[|[|i]]]; try discriminate Hi;
      injection Hi as <-; injection Hd as <-; vm_compute; reflexivity. }
  assert (Hothers : forall i j task data check,
             i <> j -> tasks !! j = Some task -> batch.m_analysis task = inl data ->
             spec.threePresent i check ->
             spec.threePresent i
               (analysis.UpdateCustomerCheck check data (batch.m_source task))).
  { intros i j task data check Hne Hj Hd Hp.
    destruct j as [|[|[|j]]]; try discriminate Hj;
      injection Hj as <-; injection Hd as <-;
      destruct i as [|[|[|i]]]; try congruence; try exact I;
      vm_compute in Hp |- *; exact Hp. }
  pose proof (merge_under_mutex_no_lost_update tasks models.zeroCustomerCheck
                spec.threePresent sched Hown Hothers) as [_ Hpresent].
  assert (Hpcs : batch.m_pcs st = [batch.MFinished; batch.MFinished; batch.MFinished])
    by (vm_compute; reflexivity).
  split; [exact Hown|]. split; [exact Hothers|]. split; [exact Hpcs|].
  repeat split; apply Hpresent; fold st; rewrite Hpcs; reflexivity.
Defined.

(** ** The extraction of one file *)
Section ExtractionFacts.
Context `{rt : GoRuntime}.
Import batch.

Lemma convert_calls_head (env : TaskEnv) (imagePath : string) :
  exists rest,
    snd (convertImageToStandardFormat env imagePath) = CallImageMagick imagePath :: rest.
Proof.
  unfold convertImageToStandardFormat.
  destruct (t_convert env); [destruct (t_ffmpeg env)|]; eexists; reflexivity.
Qed.

(** The image branch when every recovery step fails. *)
Lemma extractImage_all_fail
    (p : Processor) (env : TaskEnv) (localPath : string)
    (source : analysis.DocumentSource) (err0 err : string) :
  let conv := convertImageToStandardFormat env localPath in
  let retried :=
    match fst conv with
    | inl convertedPath => [CallVision convertedPath]
    | inr _ => []
    end in
  ocr.ExtractTextFromImageVision (t_ocr env) localPath (Lang p) = inr err0 ->
  strings.Contains err0 "Bad image data" = true ->
  match fst conv with
  | inl convertedPath =>
      convertedPath <> ""
      /\ ocr.ExtractTextFromImageVision (t_ocr env) convertedPath (Lang p) = inr err
  | inr _ => err = err0
  end ->
  match ocr.ExtractTextFromImageTesseract (t_ocr env) localPath (Lang p) with
  | inl tesseractText => strings.TrimSpace tesseractText = ""
  | inr _ => True
  end ->
  extractImage p env localPath source
  = (if String.eqb source analysis.SourceSiteVisitPhotos then sentinelText else "",
     if String.eqb source analysis.SourceSiteVisitPhotos then None
     else Some ("image file appears to be corrupted or in an unsupported format, tried multiple processing methods: "
                ++ err),
     ([CallVision localPath] ++ snd conv ++ retried ++ [CallTesseract localPath])%list).
Proof.
  intros conv retried Hvision Hbad Hretry Htess.
  unfold extractImage. rewrite Hvision. cbn [textErr]. rewrite Hbad. fold conv.
  unfold retried. destruct conv as [[convertedPath|cerr] clog]; cbn [fst snd] in *.
  - destruct Hretry as [Hpath Hretry].
    destruct (String.eqb_spec convertedPath "") as [?|_]; [congruence|].
    cbn [negb]. rewrite Hretry. cbn [textErr].
    destruct (ocr.ExtractTextFromImageTesseract (t_ocr env) localPath (Lang p))
      as [tesseractText|terr]; [rewrite Htess; cbn [String.eqb negb]|];
      destruct (String.eqb source analysis.SourceSiteVisitPhotos);
      rewrite <- ?app_assoc; reflexivity.
  - subst err.
    destruct (ocr.ExtractTextFromImageTesseract (t_ocr env) localPath (Lang p))
      as [tesseractText|terr]; [rewrite Htess; cbn [String.eqb negb]|];
      destruct (String.eqb source analysis.SourceSiteVisitPhotos);
      rewrite <- ?app_assoc; reflexivity.
Qed.

(** C3: an image task whose first Vision call fails with an error that
    contains "Bad image data".  The engine calls the converter (ImageMagick,
    then ffmpeg if that fails) and, when a converted file is there, Vision
    on it; then, the error still standing, Tesseract on the original file.
    When all of these fail (Tesseract fails when it returns an error or
    nothing but white space), a task of kind site_visit_photos gets the
    sentinel text and no extraction error (the only error its result can
    carry is one of the later analysis), and a task of any other kind gets
    the descriptive error wrapped around the last error, no text, and no
    merge into the aggregate. *)
Theorem corrupted_image_recovery
    (p : Processor) (env : TaskEnv) (input : string) (check : models.CustomerCheck)
    (source : analysis.DocumentSource) (err0 err : string) :
  let d := t_download env in
  let localPath := d_localPath d in
  let conv := convertImageToStandardFormat env localPath in
  let retried :=
    match fst conv with
    | inl convertedPath => [CallVision convertedPath]
    | inr _ => []
    end in
  d_err d = None ->
  taskFileType (d_filename d) (d_mediaType d) source = files.FileTypeImage ->
  ocr.ExtractTextFromImageVision (t_ocr env) localPath (Lang p) = inr err0 ->
  strings.Contains err0 "Bad image data" = true ->
  match fst conv with
  | inl convertedPath =>
      convertedPath <> ""
      /\ ocr.ExtractTextFromImageVision (t_ocr env) convertedPath (Lang p) = inr err
  | inr _ => err = err0
  end ->
  match ocr.ExtractTextFromImageTesseract (t_ocr env) localPath (Lang p) with
  | inl tesseractText => strings.TrimSpace tesseractText = ""
  | inr _ => True
  end ->
  forall res check' calls,
    processOneFileWithSource p env input check source = (res, check', calls) ->
    calls = ([CallVision localPath] ++ snd conv ++ retried ++ [CallTesseract localPath])%list
    /\ (exists rest, snd conv = CallImageMagick localPath :: rest)
    /\ (source = analysis.SourceSiteVisitPhotos ->
        types.ExtractedText res = sentinelText
        /\ types.Error res
           = if SkipAnalysis p then ""
             else
               match analysis.NewGeminiClient (t_getenv env) with
               | inr clientErr => "Gemini client initialization error: " ++ clientErr
               | inl client =>
                   match t_analyze env client sentinelText source with
                   | inr aerr => "Gemini analysis error: " ++ aerr
                   | inl _ => ""
                   end
               end)
    /\ (source <> analysis.SourceSiteVisitPhotos ->
        types.ExtractedText res = ""
        /\ types.Error res
           = "image file appears to be corrupted or in an unsupported format, tried multiple processing methods: "
             ++ err
        /\ check' = check).
Proof.
  intros d localPath conv retried Hd Hft Hvision Hbad Hretry Htess res check' calls.
  unfold processOneFileWithSource. fold d. rewrite Hd. fold localPath.
  rewrite Hft. unfold extractText. cbn [files.IsProcessableFileType negb].
  rewrite (extractImage_all_fail p env localPath source err0 err
             Hvision Hbad Hretry Htess).
  fold conv. fold retried.
  destruct (String.eqb_spec source analysis.SourceSiteVisitPhotos) as [Hsite|Hother].
  - assert (Hne : negb (String.eqb sentinelText "") = true) by reflexivity.
    rewrite Hne. cbn [andb]. subst source.
    destruct (SkipAnalysis p); cbn [negb].
    + intros [= <- _ <-].
      split; [reflexivity|]. split; [apply convert_calls_head|].
      split; [intros _; split; reflexivity|congruence].
    + destruct (analysis.NewGeminiClient (t_getenv env)) as [client|clientErr].
      * destruct (t_analyze env client sentinelText analysis.SourceSiteVisitPhotos);
          intros [= <- _ <-];
          (split; [reflexivity|]); (split; [apply convert_calls_head|]);
          (split; [intros _; split; reflexivity|congruence]).
      * intros [= <- _ <-].
        split; [reflexivity|]. split; [apply convert_calls_head|].
        split; [intros _; split; reflexivity|congruence].
  - cbn [String.eqb negb andb]. intros [= <- <- <-].
    split; [reflexivity|]. split; [apply convert_calls_head|].
    split; [congruence|]. intros _. repeat split; reflexivity.
Qed.

End ExtractionFacts.

Lemma corrupted_image_recovery_witness :
  let p := batch.NewProcessor 3 true "vie" 300 analysis.SourceSiteVisitPhotos in
  let env := spec.corruptTaskEnv in
  let localPath := batch.d_localPath (batch.t_download env) in
  let site :=
    batch.processOneFileWithSource p env "https://example.com/site.jpg"
      models.zeroCustomerCheck analysis.SourceSiteVisitPhotos in
  let bill :=
    batch.processOneFileWithSource p env "https://example.com/site.jpg"
      models.zeroCustomerCheck analysis.SourceEVNBill in
  (batch.d_err (batch.t_download env) = None
   /\ ocr.ExtractTextFromImageVision (batch.t_ocr env) localPath (batch.Lang p)
      = inr "vision error: Bad image data."
   /\ strings.Contains "vision error: Bad image data." "Bad image data" = true
   /\ ocr.ExtractTextFromImageTesseract (batch.t_ocr env) localPath (batch.Lang p)
      = inr "tesseract error: exit status 1, stderr: Error during processing.")
  /\ (types.ExtractedText (fst (fst site)) = batch.sentinelText
      /\ types.Error (fst (fst site)) = "")
  /\ (types.ExtractedText (fst (fst bill)) = ""
      /\ types.Error (fst (fst bill))
         = "image file appears to be corrupted or in an unsupported format, tried multiple processing methods: vision error: Bad image data."
      /\ snd (fst bill) = models.zeroCustomerCheck)
  /\ snd site
     = [batch.CallVision "/tmp/xfer-1.jpg"; batch.CallImageMagick "/tmp/xfer-1.jpg";
        batch.CallVision "/tmp/converted_xfer-1.jpg.png";
        batch.CallTesseract "/tmp/xfer-1.jpg"].
Proof.
  intros p env localPath site bill.
  assert (Hd : batch.d_err (batch.t_download env) = None) by reflexivity.
  assert (Hv : ocr.ExtractTextFromImageVision (batch.t_ocr env) localPath (batch.Lang p)
               = inr "vision error: Bad image data.") by (vm_compute; reflexivity).
  assert (Hb : strings.Contains "vision error: Bad image data." "Bad image data" = true)
    by (vm_compute; reflexivity).
  assert (Ht : ocr.ExtractTextFromImageTesseract (batch.t_ocr env) localPath (batch.Lang p)
               = inr "tesseract error: exit status 1, stderr: Error during processing.")
    by (vm_compute; reflexivity).
  assert (Ht' : match ocr.ExtractTextFromImageTesseract (batch.t_ocr env) localPath
                        (batch.Lang p) with
                | inl tesseractText => strings.TrimSpace tesseractText = ""
                | inr _ => True
                end) by (rewrite Ht; exact I).
  assert (Hr : match fst (batch.convertImageToStandardFormat env localPath) with
               | inl convertedPath =>
                   convertedPath <> ""
                   /\ ocr.ExtractTextFromImageVision (batch.t_ocr env) convertedPath
                        (batch.Lang p) = inr "vision error: Bad image data."
               | inr _ => "vision error: Bad image data." = "vision error: Bad image data."
               end)
    by (vm_compute; split; [discriminate|reflexivity]).
  assert (Hsite : batch.processOneFileWithSource p env "https://example.com/site.jpg"
                    models.zeroCustomerCheck analysis.SourceSiteVisitPhotos
                  = (fst (fst site), snd (fst site), snd site))
    by (unfold site; now destruct (batch.processOneFileWithSource _ _ _ _ _) as [[? ?] ?]).
  assert (Hbill : batch.processOneFileWithSource p env "https://example.com/site.jpg"
                    models.zeroCustomerCheck analysis.SourceEVNBill
                  = (fst (fst bill), snd (fst bill), snd bill))
    by (unfold bill; now destruct (batch.processOneFileWithSource _ _ _ _ _) as [[? ?] ?]).
  pose proof (corrupted_image_recovery p env "https://example.com/site.jpg"
                models.zeroCustomerCheck analysis.SourceSiteVisitPhotos
                _ _ Hd eq_refl Hv Hb Hr Ht' _ _ _ Hsite) as (Hcalls & _ & Hs & _).
  pose proof (corrupted_image_recovery p env "https://example.com/site.jpg"
                models.zeroCustomerCheck analysis.SourceEVNBill
                _ _ Hd eq_refl Hv Hb Hr Ht' _ _ _ Hbill) as (_ & _ & _ & Ho).
  split; [repeat split; assumption|].
  split; [exact (Hs eq_refl)|].
  split; [apply Ho; discriminate|].
  rewrite Hcalls. vm_compute. reflexivity.
Defined.

(** ** PDF extraction *)
Section PdfFacts.
Context `{rt : GoRuntime}.

(** The choice of [ExtractTextFromPDF]: the embedded text when [pdftotext]
    succeeds and the text, trimmed of the white space at its two ends, is
    longer than 10 bytes; the rasterized OCR otherwise, at the given
    resolution or at 300 when that is not positive. *)
Lemma ExtractTextFromPDF_choice (env : ocr.OcrEnv) (pdfPath lang : string) (dpi : Z) :
  ocr.ExtractTextFromPDF env pdfPath lang dpi
  = match ocr.runPdfToText env pdfPath with
    | inl txt =>
        if (10 <? strings.len (strings.TrimSpace txt))%Z then inl txt
        else ocr.ExtractTextFromPDFVision env pdfPath lang
               (if (dpi <=? 0)%Z then 300%Z else dpi)
    | inr _ =>
        ocr.ExtractTextFromPDFVision env pdfPath lang
          (if (dpi <=? 0)%Z then 300%Z else dpi)
    end.
Proof. reflexivity. Qed.

End PdfFacts.

(** C5, where the code leaves the claim (and its own comment, "more than 10
    non-whitespace chars"): [len(strings.TrimSpace(txt))] counts the bytes
    between the first and the last non-space byte, the spaces among them
    too.  The footer has 8 bytes that are not white space, its trimmed form
    is 11 bytes long, and [ExtractTextFromPDF] returns it without OCR, while
    the rasterized OCR of the same file reads the two pages. *)
Lemma ExtractTextFromPDF_accepts_sparse_text :
  spec.nonSpaceCount spec.footerText = 8%Z
  /\ strings.len (strings.TrimSpace spec.footerText) = 11%Z
  /\ ocr.ExtractTextFromPDF (rt := spec.demoRuntime) spec.scannedPdfEnv "/tmp/scan.pdf"
       "vie" 300
     = inl spec.footerText
  /\ ocr.ExtractTextFromPDFVision (rt := spec.demoRuntime) spec.scannedPdfEnv
       "/tmp/scan.pdf" "vie" 300
     = inl ("HOP DONG THUE DAT" ++ spec.nl ++ spec.nl ++ "Dieu 2. Thoi han thue").
Proof. repeat split; vm_compute; reflexivity. Qed.


(** ** The batch scheduler *)
Section SchedulerFacts.
Context `{rt : GoRuntime}.
Import batch.

Lemma sum_insert {A : Type} (f : A -> nat) (l : list A) :
  forall (i : nat) (x y : A),
    l !! i = Some x ->
    (sum_list (List.map f (<[i := y]> l)) + f x = sum_list (List.map f l) + f y)%nat.
Proof.
  induction l as [|a l IH]; intros i x y Hi; [discriminate|].
  destruct i as [|i]; simpl in *.
  - injection Hi as <-. lia.
  - specialize (IH i x y Hi). lia.
Qed.

Lemma sum_replicate {A : Type} (f : A -> nat) (n : nat) (x : A) :
  sum_list (List.map f (replicate n x)) = (n * f x)%nat.
Proof. induction n as [|n IH]; simpl; [reflexivity|]. rewrite IH. lia. Qed.

Lemma countStats_from (results : list types.FileResult) :
  forall (acc : Z * Z * Z),
    fold_left
      (fun '(processedFiles, failedFiles, skippedFiles) result =>
         if negb (String.eqb (types.Error result) "") then
           (processedFiles, failedFiles + 1, skippedFiles)%Z
         else if String.eqb (types.ExtractedText result) "" then
           (processedFiles, failedFiles, skippedFiles + 1)%Z
         else (processedFiles + 1, failedFiles, skippedFiles)%Z)
      results acc
    = (fst (fst acc) + Z.of_nat (length (List.filter spec.isProcessed results)),
       snd (fst acc) + Z.of_nat (length (List.filter spec.isFailed results)),
       snd acc + Z.of_nat (length (List.filter spec.isSkipped results)))%Z.
Proof.
  induction results as [|r results IH]; intros [[a b] c]; simpl.
  - rewrite !Z.add_0_r. reflexivity.
  - rewrite IH. unfold spec.isProcessed, spec.isFailed, spec.isSkipped.
    destruct (String.eqb (types.Error r) ""), (String.eqb (types.ExtractedText r) "");
      cbn [negb andb fst snd length];
      (apply pair_equal_spec; split; [apply pair_equal_spec; split|]); lia.
Qed.

(** The statistics are the sizes of three classes that partition the results. *)
Lemma countStats_partition (results : list types.FileResult) :
  countStats results
  = (Z.of_nat (length (List.filter spec.isProcessed results)),
     Z.of_nat (length (List.filter spec.isFailed results)),
     Z.of_nat (length (List.filter spec.isSkipped results)))
  /\ (length (List.filter spec.isProcessed results)
      + length (List.filter spec.isFailed results)
      + length (List.filter spec.isSkipped results) = length results)%nat.
Proof.
  split; [unfold countStats; now rewrite countStats_from|].
  induction results as [|r results IH]; simpl; [reflexivity|].
  unfold spec.isProcessed, spec.isFailed, spec.isSkipped in *.
  destruct (String.eqb (types.Error r) ""), (String.eqb (types.ExtractedText r) "");
    simpl; lia.
Qed.

Section Run.
Variables (p : Processor) (inputs : list string)
  (fileSources : option (gmap string analysis.DocumentSource))
  (envs : nat -> TaskEnv).

Lemma sendProgress_same (u : ProgressUpdate) (st st1 : Run) :
  sendProgress p u st = Some st1 ->
  r_pcs st1 = r_pcs st /\ r_results st1 = r_results st
  /\ r_delivered st1 = r_delivered st /\ r_semaphore st1 = r_semaphore st.
Proof.
  unfold sendProgress. destruct (ProgressChan p) as [cap|].
  - destruct (Nat.ltb _ cap); [|discriminate]. intros [= <-]. now repeat split.
  - intros [= <-]. now repeat split.
Qed.

Lemma resultsInv_step (st st' : Run) (a : Action) :
  spec.resultsInv inputs st ->
  step p inputs fileSources envs st a = Some st' ->
  spec.resultsInv inputs st'.
Proof.
  intros [Hres Hlen] Hstep. unfold spec.resultsInv. destruct a as [index|]; simpl in Hstep.
  - destruct (inputs !! index) as [inputURL|]; [|discriminate].
    destruct (r_pcs st !! index) as [pc|] eqn:Hpc; [|discriminate].
    destruct pc as [| | |result|].
    + destruct (_ <? _)%Z; [|discriminate]. injection Hstep as <-. simpl.
      rewrite length_insert. split; [|exact Hlen].
      pose proof (sum_insert spec.sentResults _ _ _ PcAcquired Hpc). simpl in *. lia.
    + destruct (sendProgress p _ st) as [st1|] eqn:Hsend; [|discriminate].
      injection Hstep as <-. apply sendProgress_same in Hsend as (Hp & Hr & _).
      simpl. rewrite length_insert, Hp, Hr. split; [|exact Hlen].
      pose proof (sum_insert spec.sentResults _ _ _ PcAnnounced Hpc). simpl in *. lia.
    + destruct (processOneFileWithSource p (envs index) inputURL (r_check st) _)
        as [[result check] calls].
      injection Hstep as <-. simpl. rewrite length_insert, length_app. simpl.
      split; [|exact Hlen].
      pose proof (sum_insert spec.sentResults _ _ _ (PcProcessed result) Hpc).
      simpl in *. lia.
    + destruct (sendProgress p _ st) as [st1|] eqn:Hsend; [|discriminate].
      injection Hstep as <-. apply sendProgress_same in Hsend as (Hp & Hr & _).
      simpl. rewrite length_insert, Hp, Hr. split; [|exact Hlen].
      pose proof (sum_insert spec.sentResults _ _ _ PcDone Hpc). simpl in *. lia.
    + discriminate.
  - destruct (r_progress st); [discriminate|]. injection Hstep as <-. simpl.
    split; assumption.
Qed.

Lemma resultsInv_run (sched : list Action) :
  forall st,
    spec.resultsInv inputs st ->
    spec.resultsInv inputs (run p inputs fileSources envs sched st).
Proof.
  induction sched as [|a sched IH]; intros st Hinv; simpl; [exact Hinv|].
  destruct (step p inputs fileSources envs st a) as [st'|] eqn:Hstep.
  - apply IH. now apply (resultsInv_step st st' a).
  - now apply IH.
Qed.

Lemma all_done_results (pcs : list Pc) :
  forallb isDone pcs = true -> sum_list (List.map spec.sentResults pcs) = length pcs.
Proof.
  induction pcs as [|pc pcs IH]; simpl; [reflexivity|].
  intros H. apply andb_true_iff in H as [Hd H]. rewrite IH by exact H.
  destruct pc; try discriminate. reflexivity.
Qed.

Lemma all_done_updates (pcs : list Pc) :
  forallb isDone pcs = true -> sum_list (List.map spec.sentUpdates pcs) = (2 * length pcs)%nat.
Proof.
  induction pcs as [|pc pcs IH]; simpl; [reflexivity|].
  intros H. apply andb_true_iff in H as [Hd H]. rewrite IH by exact H.
  destruct pc; try discriminate. simpl. lia.
Qed.

Lemma sendProgress_buffered (cap : nat) (u : ProgressUpdate) (st st1 : Run) :
  ProgressChan p = Some cap ->
  sendProgress p u st = Some st1 ->
  r_progress st1 = (r_progress st ++ [u])%list
  /\ (length (r_progress st) < cap)%nat.
Proof.
  intros Hcap. unfold sendProgress. rewrite Hcap.
  destruct (Nat.ltb_spec (length (r_progress st)) cap); [|discriminate].
  intros [= <-]. now split.
Qed.

Lemma progressInv_step (cap : nat) (st st' : Run) (a : Action) :
  ProgressChan p = Some cap ->
  spec.progressInv inputs cap st -> step p inputs fileSources envs st a = Some st' ->
  spec.progressInv inputs cap st'.
Proof.
  intros Hcap (Hsum & Hle & Hlen) Hstep. unfold spec.progressInv.
  destruct a as [index|]; simpl in Hstep.
  - destruct (inputs !! index) as [inputURL|]; [|discriminate].
    destruct (r_pcs st !! index) as [pc|] eqn:Hpc; [|discriminate].
    destruct pc as [| | |result|].
    + destruct (_ <? _)%Z; [|discriminate]. injection Hstep as <-. simpl.
      rewrite length_insert.
      pose proof (sum_insert spec.sentUpdates _ _ _ PcAcquired Hpc). simpl in *. lia.
    + destruct (sendProgress p _ st) as [st1|] eqn:Hsend; [|discriminate].
      injection Hstep as <-.
      pose proof (sendProgress_same _ _ _ Hsend) as (Hp & _ & Hdel & _).
      apply (sendProgress_buffered cap) in Hsend as [Hbuf Hroom]; [|exact Hcap].
      simpl. rewrite length_insert, Hp, Hbuf, Hdel, length_app. simpl.
      pose proof (sum_insert spec.sentUpdates _ _ _ PcAnnounced Hpc). simpl in *. lia.
    + destruct (processOneFileWithSource p (envs index) inputURL (r_check st) _)
        as [[result check] calls].
      injection Hstep as <-. simpl. rewrite length_insert.
      pose proof (sum_insert spec.sentUpdates _ _ _ (PcProcessed result) Hpc).
      simpl in *. lia.
    + destruct (sendProgress p _ st) as [st1|] eqn:Hsend; [|discriminate].
      injection Hstep as <-.
      pose proof (sendProgress_same _ _ _ Hsend) as (Hp & _ & Hdel & _).
      apply (sendProgress_buffered cap) in Hsend as [Hbuf Hroom]; [|exact Hcap].
      simpl. rewrite length_insert, Hp, Hbuf, Hdel, length_app. simpl.
      pose proof (sum_insert spec.sentUpdates _ _ _ PcDone Hpc). simpl in *. lia.
    + discriminate.
  - destruct (r_progress st) as [|u rest] eqn:Hbuf; [discriminate|].
    injection Hstep as <-. simpl in *. rewrite length_app. simpl. lia.
Qed.

(** Without a reader nothing is delivered. *)
Lemma no_reader_step (st st' : Run) (a : Action) :
  a <> Recv -> r_delivered st = [] ->
  step p inputs fileSources envs st a = Some st' -> r_delivered st' = [].
Proof.
  intros Ha Hdel Hstep. destruct a as [index|]; [|congruence]. simpl in Hstep.
  destruct (inputs !! index) as [inputURL|]; [|discriminate].
  destruct (r_pcs st !! index) as [pc|]; [|discriminate].
  destruct pc as [| | |result|].
  - destruct (_ <? _)%Z; [|discriminate]. now injection Hstep as <-.
  - destruct (sendProgress p _ st) as [st1|] eqn:Hsend; [|discriminate].
    injection Hstep as <-. apply sendProgress_same in Hsend as (_ & _ & Hd & _).
    simpl. congruence.
  - destruct (processOneFileWithSource p (envs index) inputURL (r_check st) _)
      as [[result check] calls].
    now injection Hstep as <-.
  - destruct (sendProgress p _ st) as [st1|] eqn:Hsend; [|discriminate].
    injection Hstep as <-. apply sendProgress_same in Hsend as (_ & _ & Hd & _).
    simpl. congruence.
  - discriminate.
Qed.

Lemma no_reader_run (cap : nat) (sched : list Action) :
  ProgressChan p = Some cap ->
  Forall (fun a => a <> Recv) sched ->
  forall st,
    spec.progressInv inputs cap st -> r_delivered st = [] ->
    spec.progressInv inputs cap (run p inputs fileSources envs sched st)
    /\ r_delivered (run p inputs fileSources envs sched st) = [].
Proof.
  intros Hcap. induction sched as [|a sched IH]; intros Hall st Hinv Hdel; simpl;
    [now split|].
  apply Forall_cons in Hall as [Ha Hall].
  destruct (step p inputs fileSources envs st a) as [st'|] eqn:Hstep.
  - apply (IH Hall).
    + now apply (progressInv_step cap st st' a).
    + now apply (no_reader_step st st' a).
  - now apply (IH Hall).
Qed.

End Run.

(** Whenever [ProcessFilesWithSources] returns, it returns one result per
    input, and the three statistics are the sizes of the classes "error",
    "no error and no text" and "no error and text", which add up to the
    number of inputs. *)
Lemma ProcessFilesWithSources_partition
    (p : Processor) (inputs : list string)
    (fileSources : option (gmap string analysis.DocumentSource))
    (envs : nat -> TaskEnv) (cmp : analysis.CompareEnv)
    (startTime now_ endTime : Z) (sched : list Action) (br : types.BatchResult) :
  ProcessFilesWithSources p inputs fileSources envs cmp startTime now_ endTime sched
  = Some br ->
  length (types.Results br) = length inputs
  /\ types.TotalFiles br = Z.of_nat (length inputs)
  /\ types.FailedFiles br
     = Z.of_nat (length (List.filter spec.isFailed (types.Results br)))
  /\ types.SkippedFiles br
     = Z.of_nat (length (List.filter spec.isSkipped (types.Results br)))
  /\ types.ProcessedFiles br
     = Z.of_nat (length (List.filter spec.isProcessed (types.Results br)))
  /\ (types.ProcessedFiles br + types.FailedFiles br + types.SkippedFiles br
      = Z.of_nat (length inputs))%Z.
Proof.
  unfold ProcessFilesWithSources.
  set (st := run p inputs fileSources envs sched (initialRun (length inputs) now_)).
  destruct (forallb isDone (r_pcs st)) eqn:Hdone; [|discriminate].
  assert (Hinv : spec.resultsInv inputs st).
  { apply resultsInv_run. unfold spec.resultsInv, initialRun. simpl.
    rewrite length_replicate, sum_replicate. simpl. split; [lia|reflexivity]. }
  destruct Hinv as [Hres Hlen]. rewrite (all_done_results _ Hdone), Hlen in Hres.
  destruct (countStats_partition (r_results st)) as [Hstats Hsum].
  rewrite Hstats. intros [= <-]. simpl. repeat split; try reflexivity; try exact Hres.
  lia.
Qed.

(** C1, where the code leaves the claim: the progress channel has room for
    [cap] updates and every task sends two.  With no reader on the channel
    and more than [cap / 2] inputs, some goroutine stays blocked on its
    send under every schedule: [wg.Wait()] does not return and neither does
    [ProcessFilesWithSources]. *)
Lemma ProcessFilesWithSources_blocks_without_reader
    (p : Processor) (inputs : list string)
    (fileSources : option (gmap string analysis.DocumentSource))
    (envs : nat -> TaskEnv) (cmp : analysis.CompareEnv)
    (startTime now_ endTime : Z) (sched : list Action) (cap : nat) :
  ProgressChan p = Some cap ->
  (cap < 2 * length inputs)%nat ->
  Forall (fun a => a <> Recv) sched ->
  ProcessFilesWithSources p inputs fileSources envs cmp startTime now_ endTime sched
  = None.
Proof.
  intros Hcap Hmany Hsched. unfold ProcessFilesWithSources.
  set (st := run p inputs fileSources envs sched (initialRun (length inputs) now_)).
  destruct (forallb isDone (r_pcs st)) eqn:Hdone; [exfalso|reflexivity].
  assert (Hinit : spec.progressInv inputs cap (initialRun (length inputs) now_)).
  { unfold spec.progressInv, initialRun. simpl.
    rewrite length_replicate, sum_replicate. simpl. repeat split; lia. }
  destruct (no_reader_run p inputs fileSources envs cap sched Hcap Hsched _ Hinit eq_refl)
    as [(Hsum & Hle & Hlen) Hdel].
  fold st in Hsum, Hle, Hlen, Hdel.
  rewrite (all_done_updates _ Hdone), Hdel, Hlen in Hsum. simpl in Hsum. lia.
Qed.

End SchedulerFacts.

Lemma ProcessFilesWithSources_partition_witness :
  exists br,
    batch.ProcessFilesWithSources (rt := spec.demoRuntime) spec.defaultProcessor
      spec.manyInputs (Some spec.oneBill) (fun _ => spec.corruptTaskEnv)
      spec.offlineCompareEnv 0 0 0 (batch.sequentialSchedule 0 51)
    = Some br
    /\ (length (types.Results br) = length spec.manyInputs
        /\ types.TotalFiles br = Z.of_nat (length spec.manyInputs)
        /\ types.FailedFiles br
           = Z.of_nat (length (List.filter spec.isFailed (types.Results br)))
        /\ types.SkippedFiles br
           = Z.of_nat (length (List.filter spec.isSkipped (types.Results br)))
        /\ types.ProcessedFiles br
           = Z.of_nat (length (List.filter spec.isProcessed (types.Results br)))
        /\ (types.ProcessedFiles br + types.FailedFiles br + types.SkippedFiles br
            = Z.of_nat (length spec.manyInputs))%Z)
    /\ (types.ProcessedFiles br, types.FailedFiles br, types.SkippedFiles br)
       = (50, 1, 0)%Z.
Proof.
  destruct (batch.ProcessFilesWithSources (rt := spec.demoRuntime) spec.defaultProcessor
              spec.manyInputs (Some spec.oneBill) (fun _ => spec.corruptTaskEnv)
              spec.offlineCompareEnv 0 0 0 (batch.sequentialSchedule 0 51))
    as [br|] eqn:E; [|vm_compute in E; discriminate].
  exists br. split; [reflexivity|]. split.
  - exact (ProcessFilesWithSources_partition (rt := spec.demoRuntime) _ _ _ _ _ _ _ _ _ _ E).
  - vm_compute in E. injection E as <-. reflexivity.
Defined.

Lemma ProcessFilesWithSources_blocks_without_reader_witness :
  batch.ProgressChan spec.defaultProcessor = Some 100%nat
  /\ (100 < 2 * length spec.manyInputs)%nat
  /\ Forall (fun a => a <> batch.Recv) spec.noReaderSchedule
  /\ batch.ProcessFilesWithSources (rt := spec.demoRuntime) spec.defaultProcessor
       spec.manyInputs None (fun _ => spec.corruptTaskEnv) spec.offlineCompareEnv
       0 0 0 spec.noReaderSchedule
     = None
  /\ length
       (List.filter batch.isDone
          (batch.r_pcs
             (batch.run (rt := spec.demoRuntime) spec.defaultProcessor spec.manyInputs
                None (fun _ => spec.corruptTaskEnv) spec.noReaderSchedule
                (batch.initialRun 51 0)))) = 50%nat.
Proof.
  assert (H : Forall (fun a => a <> batch.Recv) spec.noReaderSchedule).
  { apply Forall_forall. intros a Ha. apply list_elem_of_In in Ha.
    apply in_flat_map in Ha as (i & _ & Hi). simpl in Hi.
    intuition (subst; discriminate). }
  split; [reflexivity|]. split; [vm_compute; lia|]. split; [exact H|]. split.
  - apply (ProcessFilesWithSources_blocks_without_reader (rt := spec.demoRuntime)
             spec.defaultProcessor spec.manyInputs None (fun _ => spec.corruptTaskEnv)
             spec.offlineCompareEnv 0 0 0 spec.noReaderSchedule 100);
      [reflexivity|vm_compute; lia|exact H].
  - vm_compute. reflexivity.
Defined.

(** ** The batch scheduler: a schedule under which the batch ends *)
Section SchedulerProgress.
Context `{rt : GoRuntime}.
Import batch.
Variables (p : Processor) (inputs : list string)
  (fileSources : option (gmap string analysis.DocumentSource))
  (envs : nat -> TaskEnv).
Hypothesis Hslots : (0 < MaxConcurrency p)%Z.
Hypothesis Hroom : forall cap, ProgressChan p = Some cap -> (1 <= cap)%nat.

Lemma sendProgress_empty (u : ProgressUpdate) (st : Run) :
  r_progress st = [] ->
  exists st1,
    sendProgress p u st = Some st1
    /\ r_pcs st1 = r_pcs st /\ r_semaphore st1 = r_semaphore st
    /\ (length (r_progress st1) <= 1)%nat.
Proof.
  intros Hempty. unfold sendProgress.
  destruct (ProgressChan p) as [cap|] eqn:Hcap.
  - rewrite Hempty. specialize (Hroom cap eq_refl).
    destruct (Nat.ltb_spec (length (@nil ProgressUpdate)) cap) as [_|Hbad];
      [|simpl in Hbad; lia].
    eexists. split; [reflexivity|]. simpl. repeat split; lia.
  - exists st. rewrite Hempty. simpl. repeat split; lia.
Qed.

Lemma step_acquire (index : nat) (inputURL : string) (st : Run) :
  inputs !! index = Some inputURL ->
  r_pcs st !! index = Some PcSpawned ->
  r_semaphore st = 0%nat ->
  exists st',
    step p inputs fileSources envs st (Go index) = Some st'
    /\ r_pcs st' = <[index := PcAcquired]> (r_pcs st)
    /\ r_semaphore st' = 1%nat /\ r_progress st' = r_progress st.
Proof.
  intros Hin Hpc Hsem. cbn [step]. rewrite Hin, Hpc, Hsem.
  replace (Z.of_nat 0 <? MaxConcurrency p)%Z with true
    by (symmetry; apply Z.ltb_lt; lia).
  eexists. split; [reflexivity|]. now repeat split.
Qed.

Lemma step_announce (index : nat) (inputURL : string) (st : Run) :
  inputs !! index = Some inputURL ->
  r_pcs st !! index = Some PcAcquired ->
  r_progress st = [] ->
  exists st',
    step p inputs fileSources envs st (Go index) = Some st'
    /\ r_pcs st' = <[index := PcAnnounced]> (r_pcs st)
    /\ r_semaphore st' = r_semaphore st /\ (length (r_progress st') <= 1)%nat.
Proof.
  intros Hin Hpc Hbuf. cbn [step]. rewrite Hin, Hpc.
  match goal with
  | |- context [sendProgress p ?u st] =>
      destruct (sendProgress_empty u st Hbuf) as (st1 & -> & Hp & Hs & Hl)
  end.
  eexists. split; [reflexivity|]. simpl. rewrite Hp, Hs. now repeat split.
Qed.

Lemma step_process (index : nat) (inputURL : string) (st : Run) :
  inputs !! index = Some inputURL ->
  r_pcs st !! index = Some PcAnnounced ->
  exists st' result,
    step p inputs fileSources envs st (Go index) = Some st'
    /\ r_pcs st' = <[index := PcProcessed result]> (r_pcs st)
    /\ r_semaphore st' = r_semaphore st /\ r_progress st' = r_progress st.
Proof.
  intros Hin Hpc. cbn [step]. rewrite Hin, Hpc.
  destruct (processOneFileWithSource p (envs index) inputURL (r_check st) _)
    as [[result check] calls].
  eexists. exists result. split; [reflexivity|]. now repeat split.
Qed.

Lemma step_complete (index : nat) (inputURL : string) (result : types.FileResult)
    (st : Run) :
  inputs !! index = Some inputURL ->
  r_pcs st !! index = Some (PcProcessed result) ->
  r_progress st = [] ->
  exists st',
    step p inputs fileSources envs st (Go index) = Some st'
    /\ r_pcs st' = <[index := PcDone]> (r_pcs st)
    /\ r_semaphore st' = pred (r_semaphore st)
    /\ (length (r_progress st') <= 1)%nat.
Proof.
  intros Hin Hpc Hbuf. cbn [step]. rewrite Hin, Hpc.
  match goal with
  | |- context [sendProgress p ?u st] =>
      destruct (sendProgress_empty u st Hbuf) as (st1 & -> & Hp & Hs & Hl)
  end.
  eexists. split; [reflexivity|]. simpl. rewrite Hp, Hs. now repeat split.
Qed.

(** The reader takes what there is. *)
Lemma run_receive (sched : list Action) (st : Run) :
  (length (r_progress st) <= 1)%nat ->
  exists st',
    run p inputs fileSources envs (Recv :: sched) st
    = run p inputs fileSources envs sched st'
    /\ r_pcs st' = r_pcs st /\ r_semaphore st' = r_semaphore st
    /\ r_progress st' = [].
Proof.
  intros Hl. cbn [run step]. destruct (r_progress st) as [|u rest] eqn:Hbuf.
  - exists st. now repeat split.
  - eexists. split; [reflexivity|]. simpl. repeat split.
    destruct rest; [reflexivity|simpl in Hl; lia].
Qed.

(** One goroutine run from its start to its end while the others wait. *)
Lemma sequential_task (index : nat) (sched : list Action) (st : Run) :
  (index < length inputs)%nat ->
  r_pcs st !! index = Some PcSpawned ->
  r_semaphore st = 0%nat -> r_progress st = [] ->
  exists st',
    run p inputs fileSources envs
      ([Go index; Go index; Recv; Go index; Go index; Recv] ++ sched) st
    = run p inputs fileSources envs sched st'
    /\ r_pcs st' = <[index := PcDone]> (r_pcs st)
    /\ r_semaphore st' = 0%nat /\ r_progress st' = [].
Proof.
  intros Hidx Hpc Hsem Hbuf.
  destruct (lookup_lt_is_Some_2 inputs index Hidx) as [inputURL Hin].
  assert (Hlt : (index < length (r_pcs st))%nat) by (apply lookup_lt_is_Some; eauto).
  destruct (step_acquire index inputURL st Hin Hpc Hsem) as (st1 & E1 & Hp1 & Hs1 & Hb1).
  assert (Hpc1 : r_pcs st1 !! index = Some PcAcquired)
    by (rewrite Hp1; apply list_lookup_insert_eq; exact Hlt).
  rewrite Hbuf in Hb1.
  destruct (step_announce index inputURL st1 Hin Hpc1 Hb1) as (st2 & E2 & Hp2 & Hs2 & Hb2).
  destruct (run_receive ([Go index; Go index; Recv] ++ sched)%list st2 Hb2)
    as (st3 & E3 & Hp3 & Hs3 & Hb3).
  assert (Hpc3 : r_pcs st3 !! index = Some PcAnnounced).
  { rewrite Hp3, Hp2. apply list_lookup_insert_eq. now rewrite Hp1, length_insert. }
  destruct (step_process index inputURL st3 Hin Hpc3)
    as (st4 & result & E4 & Hp4 & Hs4 & Hb4).
  assert (Hpc4 : r_pcs st4 !! index = Some (PcProcessed result)).
  { rewrite Hp4. apply list_lookup_insert_eq.
    now rewrite Hp3, Hp2, Hp1, !length_insert. }
  rewrite Hb3 in Hb4.
  destruct (step_complete index inputURL result st4 Hin Hpc4 Hb4)
    as (st5 & E5 & Hp5 & Hs5 & Hb5).
  destruct (run_receive sched st5 Hb5) as (st6 & E6 & Hp6 & Hs6 & Hb6).
  exists st6. split.
  - change (([Go index; Go index; Recv; Go index; Go index; Recv] ++ sched)%list)
      with (Go index :: Go index :: ([Recv] ++ [Go index; Go index; Recv] ++ sched))%list.
    cbn [run]. rewrite E1, E2.
    change ([Recv] ++ [Go index; Go index; Recv] ++ sched)%list
      with (Recv :: ([Go index; Go index; Recv] ++ sched))%list.
    rewrite E3. cbn [run app]. rewrite E4, E5. exact E6.
  - rewrite Hp6, Hp5, Hp4, Hp3, Hp2, Hp1, !list_insert_insert_eq.
    repeat split; [|exact Hb6].
    rewrite Hs6, Hs5, Hs4, Hs3, Hs2, Hs1. reflexivity.
Qed.

Lemma sequentialSchedule_run (n : nat) :
  forall (from : nat) (st : Run),
    length inputs = (from + n)%nat ->
    r_pcs st = (replicate from PcDone ++ replicate n PcSpawned)%list ->
    r_semaphore st = 0%nat -> r_progress st = [] ->
    r_pcs (run p inputs fileSources envs (sequentialSchedule from n) st)
    = replicate (from + n) PcDone.
Proof.
  induction n as [|n IH]; intros from st Hlen Hpcs Hsem Hbuf.
  - simpl. rewrite Hpcs, Nat.add_0_r. apply app_nil_r.
  - cbn [sequentialSchedule].
    assert (Hpc : r_pcs st !! from = Some PcSpawned).
    { rewrite Hpcs, lookup_app_r by (rewrite length_replicate; lia).
      rewrite length_replicate, Nat.sub_diag. reflexivity. }
    destruct (sequential_task from (sequentialSchedule (S from) n) st
                ltac:(lia) Hpc Hsem Hbuf) as (st' & -> & Hp' & Hs' & Hb').
    replace (from + S n)%nat with (S from + n)%nat by lia.
    apply (IH (S from) st'); [lia| |exact Hs'|exact Hb'].
    rewrite Hp', Hpcs.
    rewrite insert_app_r_alt by (rewrite length_replicate; lia).
    rewrite length_replicate, Nat.sub_diag.
    change (<[0%nat := PcDone]> (replicate (S n) PcSpawned))
      with (PcDone :: replicate n PcSpawned).
    rewrite (cons_middle PcDone), app_assoc. f_equal.
    change [PcDone] with (replicate 1 PcDone). rewrite <- replicate_add.
    f_equal. lia.
Qed.

End SchedulerProgress.

(** With at least one slot and a progress channel that is nil or has room
    for one update and a reader, [ProcessFilesWithSources] returns under the
    sequential schedule. *)
Lemma ProcessFilesWithSources_returns `{rt : GoRuntime}
    (p : batch.Processor) (inputs : list string)
    (fileSources : option (gmap string analysis.DocumentSource))
    (envs : nat -> batch.TaskEnv) (cmp : analysis.CompareEnv)
    (startTime now_ endTime : Z) :
  (0 < batch.MaxConcurrency p)%Z ->
  (forall cap, batch.ProgressChan p = Some cap -> (1 <= cap)%nat) ->
  exists br,
    batch.ProcessFilesWithSources p inputs fileSources envs cmp startTime now_ endTime
      (batch.sequentialSchedule 0 (length inputs))
    = Some br.
Proof.
  intros Hslots Hroom. unfold batch.ProcessFilesWithSources.
  rewrite (sequentialSchedule_run p inputs fileSources envs Hslots Hroom
             (length inputs) 0 (batch.initialRun (length inputs) now_)
             eq_refl eq_refl eq_refl eq_refl).
  replace (forallb batch.isDone (replicate (0 + length inputs) batch.PcDone)) with true.
  - destruct (batch.countStats _) as [[a b] c]. eexists. reflexivity.
  - symmetry. apply forallb_forall. intros pc Hpc.
    apply list_elem_of_In, elem_of_replicate in Hpc as [-> _]. reflexivity.
Qed.

Lemma ProcessFilesWithSources_returns_witness :
  (0 < batch.MaxConcurrency spec.defaultProcessor)%Z
  /\ batch.ProgressChan spec.defaultProcessor = Some 100%nat
  /\ exists br,
       batch.ProcessFilesWithSources (rt := spec.demoRuntime) spec.defaultProcessor
         spec.manyInputs None (fun _ => spec.corruptTaskEnv) spec.offlineCompareEnv
         0 0 0 (batch.sequentialSchedule 0 (length spec.manyInputs))
       = Some br.
Proof.
  split; [reflexivity|]. split; [reflexivity|].
  apply (ProcessFilesWithSources_returns (rt := spec.demoRuntime)).
  - reflexivity.
  - intros cap [= <-]. simpl. lia.
Defined.

(** ** The loop of [normalizeAddress] ends *)

Lemma prefix_two_spaces (s : string) :
  String.prefix "  " s = true -> exists r, s = String " " (String " " r).
Proof.
  intros H. apply prefix_correct in H.
  destruct s as [|c [|d r]]; simpl in H; try discriminate.
  injection H as -> ->. now exists r.
Qed.

Lemma replace_spaces_le (s : string) :
  (String.length (strings.replaceFrom s "  " " " 0) <= String.length s)%nat
  /\ (String.length (strings.replaceFrom s "  " " " 1) <= String.length s - 1)%nat.
Proof.
  induction s as [|c r [IH0 IH1]]; [split; reflexivity|]. split.
  - cbn [strings.replaceFrom]. destruct (String.prefix "  " (String c r)).
    + rewrite length_sapp. simpl. lia.
    + simpl. lia.
  - cbn [strings.replaceFrom]. simpl. lia.
Qed.

Lemma replace_spaces_lt (s : string) :
  strings.Contains s "  " = true ->
  (String.length (strings.ReplaceAll s "  " " ") < String.length s)%nat.
Proof.
  unfold strings.ReplaceAll. induction s as [|c r IH]; [discriminate|].
  cbn [strings.Contains strings.replaceFrom].
  destruct (String.prefix "  " (String c r)) eqn:Hpre.
  - intros _. rewrite length_sapp.
    destruct (prefix_two_spaces _ Hpre) as [r' [= -> ->]].
    pose proof (proj2 (replace_spaces_le (String " " r'))). simpl in *. lia.
  - simpl. intros H. specialize (IH H). lia.
Qed.

(** [len(normalized)] turns are enough: no double space is left. *)
Lemma collapseSpaces_done (fuel : nat) :
  forall normalized : string,
    (String.length normalized <= fuel)%nat ->
    strings.Contains (analysis.collapseSpaces fuel normalized) "  " = false.
Proof.
  induction fuel as [|fuel IH]; intros normalized Hlen.
  - destruct normalized; [reflexivity|simpl in Hlen; lia].
  - cbn [analysis.collapseSpaces].
    destruct (strings.Contains normalized "  ") eqn:Hc; [|exact Hc].
    apply IH. pose proof (replace_spaces_lt normalized Hc). lia.
Qed.

Lemma collapseSpaces_done_witness :
  analysis.collapseSpaces 12 "12   le  loi" = "12 le loi"
  /\ strings.Contains (analysis.collapseSpaces 12 "12   le  loi") "  " = false.
Proof.
  split; [vm_compute; reflexivity|].
  apply (collapseSpaces_done 12 "12   le  loi"). vm_compute. lia.
Defined.

(** ** The aggregator: frames, missing keys, repeated merges *)
Section AggregatorLaws.
Context `{rt : GoRuntime}.
Import analysis models.

Ltac unfold_sources :=
  unfold SourceBusinessLicense, SourceEVNBill, SourceLandCertificate, SourceIDCheck,
    SourceSiteVisitPhotos, SourceFinancialStatement, SourceCICReport in *.

Ltac by_source source :=
  unfold UpdateCustomerCheck; unfold_sources;
  repeat
    match goal with
    | |- context [String.eqb source ?k] => destruct (String.eqb_spec source k) as [->|?]
    end.

(** Each section of the record is written by the update of its own kind
    only, and three fields by none: the completion stamp, the relationship
    background and the history description. *)
Theorem UpdateCustomerCheck_frame
    (check : CustomerCheck) (data : gmap string (JSON float64)) (source : DocumentSource) :
  let check' := UpdateCustomerCheck check data source in
  CheckCompletedAt check' = CheckCompletedAt check
  /\ Relationship (Corporate check') = Relationship (Corporate check)
  /\ HistoryDescription (History (Corporate check'))
     = HistoryDescription (History (Corporate check))
  /\ (source <> SourceBusinessLicense ->
      General (Corporate check') = General (Corporate check)
      /\ History (Corporate check') = History (Corporate check)
      /\ OwnersName (Ownership (Corporate check')) = OwnersName (Ownership (Corporate check))
      /\ OwnershipCategory (Ownership (Corporate check'))
         = OwnershipCategory (Ownership (Corporate check)))
  /\ (source <> SourceIDCheck ->
      CompanyDirectorName (Ownership (Corporate check'))
      = CompanyDirectorName (Ownership (Corporate check)))
  /\ (source <> SourceBusinessLicense -> source <> SourceIDCheck ->
      Corporate check' = Corporate check)
  /\ (source <> SourceEVNBill -> EVN (Land check') = EVN (Land check))
  /\ (source <> SourceLandCertificate ->
      LandOwnership (Land check') = LandOwnership (Land check))
  /\ (source <> SourceFinancialStatement ->
      FinancialStatementDate (Financial check') = FinancialStatementDate (Financial check)
      /\ PL (Financial check') = PL (Financial check)
      /\ BalanceSheet (Financial check') = BalanceSheet (Financial check))
  /\ (source <> SourceCICReport -> Loans (Financial check') = Loans (Financial check))
  /\ (source <> SourceSiteVisitPhotos -> Additional check' = Additional check).
Proof.
  cbv zeta. by_source source;
    try (unfold updateFromCICReport; destruct (asSlice (data !! "loans")));
    cbn -[String.eqb];
    repeat split; intros; try reflexivity; try congruence;
    destruct check as [? [? ? ? ?] ? ? ?]; reflexivity.
Qed.

Lemma update_agree
    (check : CustomerCheck) (data1 data2 : gmap string (JSON float64))
    (source : DocumentSource) :
  (forall k, In k (spec.keysRead source) -> data1 !! k = data2 !! k) ->
  UpdateCustomerCheck check data1 source = UpdateCustomerCheck check data2 source.
Proof.
  intros Hagree. revert Hagree. by_source source; intros Hagree; [..|reflexivity];
    cbv [spec.keysRead switchOr List.find fst snd String.eqb Ascii.eqb Bool.eqb] in Hagree;
    unfold updateFromBusinessLicense, updateFromEVNBill, updateFromLandCertificate,
      updateFromIDCheck, updateFromSiteVisit, updateFromFinancialStatement,
      updateFromCICReport;
    repeat
      match goal with
      | |- context [data1 !! ?k] => rewrite (Hagree k) by (simpl; tauto)
      end;
    reflexivity.
Qed.

(** The update of a kind looks at the keys of [spec.keysRead] and at no
    other: two maps that agree on them give the same record.  In particular
    an entry under any other key is ignored. *)
Theorem UpdateCustomerCheck_reads_only
    (check : CustomerCheck) (data1 data2 : gmap string (JSON float64))
    (source : DocumentSource) :
  (forall k, In k (spec.keysRead source) -> data1 !! k = data2 !! k) ->
  UpdateCustomerCheck check data1 source = UpdateCustomerCheck check data2 source.
Proof. exact (update_agree check data1 data2 source). Qed.

(** A map that holds none of the keys of a kind (the empty map, or a reply
    about something else) leaves the record as it is, except for a land
    certificate: its update puts the situation to unknown when the key is
    missing, and changes nothing else. *)
Theorem UpdateCustomerCheck_no_key
    (check : CustomerCheck) (data : gmap string (JSON float64)) (source : DocumentSource) :
  (forall k, In k (spec.keysRead source) -> data !! k = None) ->
  (source <> SourceLandCertificate -> UpdateCustomerCheck check data source = check)
  /\ (source = SourceLandCertificate ->
      UpdateCustomerCheck check data source
      = withLand check
          {| EVN := EVN (Land check);
             LandOwnership :=
               {| Situation := Unknown;
                  LandownerIsSignatory := LandownerIsSignatory (LandOwnership (Land check));
                  LeaseExpirationDate := LeaseExpirationDate (LandOwnership (Land check));
                  OwnedDocsComplete := OwnedDocsComplete (LandOwnership (Land check)) |} |}).
Proof.
  intros Hnone.
  rewrite (update_agree check data ∅ source)
    by (intros k Hk; rewrite (Hnone k Hk); symmetry; apply lookup_empty).
  clear Hnone. by_source source; (split; [intros Hne|intros Heq]);
    try congruence; try discriminate Heq; try reflexivity;
    unfold updateFromBusinessLicense, updateFromEVNBill, updateFromLandCertificate,
      updateFromIDCheck, updateFromSiteVisit, updateFromFinancialStatement,
      updateFromCICReport, updateMoney5;
    rewrite ?lookup_empty; cbn [asString asFloat asSlice];
    destruct check as [? [[] [] [] []] [[] []] [? [] [] ?] [[]]]; reflexivity.
Qed.

Lemma switchOr_again {A : Type} (cases : list (string * A)) (s : string) (old : A) :
  switchOr cases s (switchOr cases s old) = switchOr cases s old.
Proof. unfold switchOr. destruct (List.find _ cases); reflexivity. Qed.

Lemma assignMoney_length (vs : list (JSON float64)) :
  forall (i : nat) (arr : list MoneyVND), length (assignMoney vs i arr) = length arr.
Proof.
  induction vs as [|v vs IH]; intros i arr; [reflexivity|]. cbn [assignMoney].
  rewrite IH. destruct v; try reflexivity. apply length_insert.
Qed.

(** The loop over the array, entry by entry: position [j] takes the number
    at its place in the array when there is one, and keeps its value else. *)
Lemma assignMoney_lookup (vs : list (JSON float64)) :
  forall (i : nat) (arr : list MoneyVND) (j : nat),
    assignMoney vs i arr !! j
    = match (if decide (i <= j)%nat then vs !! (j - i)%nat else None) with
      | Some (JNum amount) =>
          if decide (j < length arr)%nat then Some (float64_to_int64 amount) else None
      | _ => arr !! j
      end.
Proof.
  induction vs as [|v vs IH]; intros i arr j.
  - cbn [assignMoney]. rewrite lookup_nil. now destruct (decide (i <= j)%nat).
  - cbn [assignMoney]. rewrite IH.
    destruct (decide (S i <= j)%nat) as [Hlt|Hge].
    + destruct (decide (i <= j)%nat) as [_|?]; [|lia].
      replace (j - i)%nat with (S (j - S i)) by lia. cbn [lookup list_lookup].
      change (list_lookup (j - S i) vs) with (vs !! (j - S i)%nat).
      destruct v; try reflexivity.
      rewrite length_insert, list_lookup_insert_ne by lia. reflexivity.
    + destruct (decide (i <= j)%nat) as [Hij|Hji].
      * assert (j = i) by lia. subst j. rewrite Nat.sub_diag. cbn [lookup list_lookup].
        destruct v; try reflexivity.
        destruct (decide (i < length arr)%nat) as [Hin|Hout].
        -- now apply list_lookup_insert_eq.
        -- apply lookup_ge_None. rewrite length_insert. unfold MoneyVND in *. lia.
      * destruct v; try reflexivity. apply list_lookup_insert_ne. lia.
Qed.

Lemma assignMoney_again (vs : list (JSON float64)) (arr : list MoneyVND) :
  assignMoney vs 0 (assignMoney vs 0 arr) = assignMoney vs 0 arr.
Proof.
  apply list_eq. intros j. rewrite !assignMoney_lookup, assignMoney_length.
  destruct (decide (0 <= j)%nat) as [_|?]; [|lia].
  destruct (vs !! (j - 0)%nat) as [[]|]; reflexivity.
Qed.

Lemma updateMoney5_again (v : option (JSON float64)) (arr : list MoneyVND) :
  updateMoney5 v (updateMoney5 v arr) = updateMoney5 v arr.
Proof.
  unfold updateMoney5. destruct (asSlice v) as [vs|]; [|reflexivity].
  destruct (Nat.eqb (length vs) 5); [apply assignMoney_again|reflexivity].
Qed.

(** Merging the same data a second time changes nothing, for every kind
    but the CIC report (whose update appends its loans once more). *)
Theorem UpdateCustomerCheck_idempotent
    (check : CustomerCheck) (data : gmap string (JSON float64)) (source : DocumentSource) :
  source <> SourceCICReport ->
  UpdateCustomerCheck (UpdateCustomerCheck check data source) data source
  = UpdateCustomerCheck check data source.
Proof.
  intros Hne. revert Hne. by_source source; intros Hne; try congruence; try reflexivity;
    unfold withCorporate, withLand, withFinancial, withAdditional,
      updateFromBusinessLicense, updateFromEVNBill, updateFromLandCertificate,
      updateFromIDCheck, updateFromSiteVisit, updateFromFinancialStatement;
    cbn [CheckCompletedAt Corporate Land Financial Additional General History Relationship
         Ownership EVN LandOwnership PL BalanceSheet Loans SiteVisit_
         ClientName ClientType_ TaxCodeMST BusinessLicenseGPKD BusinessAddress
         RegisteredShareCapital CustomerType_ BusinessOperations IncorporationDate
         HistoryDescription OwnersName OwnershipCategory CompanyDirectorName
         KeyDecisionMaker BillingAddress BillingAddressMatchesClient BillingAmount
         BilledAmountsMatchExpenses Situation LandownerIsSignatory LeaseExpirationDate
         OwnedDocsComplete FinancialStatementDate TotalRevenues TotalCosts
         TotalEnergyCosts TotalAssets TotalDebt CompanySignboard];
    rewrite ?updateMoney5_again;
    repeat f_equal;
    repeat
      match goal with
      | |- context [asString ?v] => destruct (asString v)
      | |- context [asFloat ?v] => destruct (asFloat v)
      end;
    rewrite ?switchOr_again; try reflexivity;
    repeat
      match goal with
      | |- context [if ?b then _ else _] => destruct b
      | |- context [time_Parse ?l ?d] => destruct (time_Parse l d)
      end;
    reflexivity.
Qed.

Lemma in_by_eqb (values : list string) (v : string) :
  existsb (String.eqb v) values = true -> In v values.
Proof.
  intros H. apply existsb_exists in H as (w & Hin & Heq).
  apply String.eqb_eq in Heq. now subst.
Qed.

Lemma cases_in (values : list string) (cases : list (string * string)) :
  forallb (fun p => existsb (String.eqb (snd p)) values) cases = true ->
  forall p, In p cases -> In (snd p) values.
Proof.
  intros H p Hp. rewrite forallb_forall in H. apply in_by_eqb, H, Hp.
Qed.

Lemma switchOr_in (values : list string) (cases : list (string * string))
    (s : string) (default : string) :
  forallb (fun p => existsb (String.eqb (snd p)) values) cases = true ->
  In default values ->
  In (switchOr cases s default) values.
Proof.
  intros Hcases Hd. unfold switchOr.
  destruct (List.find _ cases) as [p|] eqn:Hfind; [|exact Hd].
  apply find_some in Hfind as [Hin _]. now apply (cases_in values cases).
Qed.

Lemma switchOr_zeroOr (values : list string) (cases : list (string * string))
    (s : string) (default : string) :
  forallb (fun p => existsb (String.eqb (snd p)) values) cases = true ->
  spec.zeroOr values default ->
  spec.zeroOr values (switchOr cases s default).
Proof.
  intros Hcases Hd. unfold switchOr.
  destruct (List.find _ cases) as [p|] eqn:Hfind; [|exact Hd].
  apply find_some in Hfind as [Hin _]. right. now apply (cases_in values cases).
Qed.

Lemma loanFromMap_complete (loanMap : gmap string (JSON float64)) :
  spec.loanComplete (loanFromMap loanMap).
Proof.
  unfold spec.loanComplete, loanFromMap, loanAmount.
  cbn [LoanType_ DebtClassification_ OutstandingAmount AnnualInterestCost
       AnnualAmortization].
  repeat split.
  - destruct (asString (loanMap !! "loan_type"));
      [apply switchOr_in; [reflexivity|]|]; apply in_by_eqb; reflexivity.
  - destruct (asString (loanMap !! "debt_classification"));
      [apply switchOr_in; [reflexivity|]|]; apply in_by_eqb; reflexivity.
  - destruct (asFloat _) as [a|]; [destruct (float64_pos a)|]; discriminate.
  - destruct (asFloat _) as [a|]; [destruct (float64_pos a)|]; discriminate.
  - destruct (asFloat _) as [a|]; [destruct (float64_pos a)|]; discriminate.
Qed.

Lemma cic_fold (loansData : list (JSON float64)) :
  forall loans : list LoanInfo,
    fold_left
      (fun loans loanData =>
         match loanData with
         | JObj loanMap => (loans ++ [loanFromMap loanMap])%list
         | _ => loans
         end)
      loansData loans
    = (loans ++ List.map loanFromMap (spec.objectsOf loansData))%list.
Proof.
  induction loansData as [|v l IH]; intros loans; cbn [fold_left spec.objectsOf].
  - symmetry. apply app_nil_r.
  - destruct v; rewrite IH; try reflexivity.
    cbn [List.map]. now rewrite <- app_assoc.
Qed.

(** A CIC report appends: the loans already in the record stay where they
    are, and one loan is added for every object of the [loans] array, in the
    order of the array (entries that are no objects are passed over).  Every
    loan added has a type and a debt group out of the constants and its
    three amounts set. *)
Theorem UpdateCustomerCheck_cic_appends
    (check : CustomerCheck) (data : gmap string (JSON float64)) :
  let added :=
    List.map loanFromMap
      (spec.objectsOf
         match asSlice (data !! "loans") with
         | Some loansData => loansData
         | None => []
         end) in
  Loans (Financial (UpdateCustomerCheck check data SourceCICReport))
  = (Loans (Financial check) ++ added)%list
  /\ Forall spec.loanComplete added.
Proof.
  cbv zeta. split.
  - unfold UpdateCustomerCheck. cbn [String.eqb Ascii.eqb Bool.eqb SourceCICReport
      SourceBusinessLicense SourceEVNBill SourceLandCertificate SourceIDCheck
      SourceSiteVisitPhotos SourceFinancialStatement].
    unfold updateFromCICReport.
    destruct (asSlice (data !! "loans")) as [loansData|]; cbn [Loans Financial withFinancial].
    + apply cic_fold.
    + symmetry. apply app_nil_r.
  - apply Forall_forall. intros loan Hin. apply list_elem_of_In, in_map_iff in Hin.
    destruct Hin as (m & <- & _). apply loanFromMap_complete.
Qed.

(** Whatever the reply holds, an update leaves the enumerated fields at
    their zero value or at a constant of their type, the loans complete and
    the five-period arrays five long. *)
Theorem UpdateCustomerCheck_enumsLegal
    (check : CustomerCheck) (data : gmap string (JSON float64)) (source : DocumentSource) :
  spec.enumsLegal check -> spec.enumsLegal (UpdateCustomerCheck check data source).
Proof.
  intros Hlegal. revert Hlegal. unfold spec.enumsLegal. cbv zeta.
  intros (H1 & H2 & H3 & H4 & H5 & H6 & H7 & H8 & H9 & H10 & H11 & L1 & L2 & L3 & L4 & L5).
  by_source source;
    try match goal with
        | |- context [updateFromCICReport] =>
            unfold updateFromCICReport;
            destruct (asSlice (data !! "loans")) as [loansData|]
        end;
    unfold withCorporate, withLand, withFinancial, withAdditional,
      updateFromBusinessLicense, updateFromEVNBill, updateFromLandCertificate,
      updateFromIDCheck, updateFromSiteVisit, updateFromFinancialStatement;
    cbn [CheckCompletedAt Corporate Land Financial Additional General History Relationship
         Ownership EVN LandOwnership PL BalanceSheet Loans SiteVisit_
         ClientName ClientType_ TaxCodeMST BusinessLicenseGPKD BusinessAddress
         RegisteredShareCapital CustomerType_ BusinessOperations IncorporationDate
         HistoryDescription OwnersName OwnershipCategory CompanyDirectorName
         KeyDecisionMaker BillingAddress BillingAddressMatchesClient BillingAmount
         BilledAmountsMatchExpenses Situation LandownerIsSignatory LeaseExpirationDate
         OwnedDocsComplete FinancialStatementDate TotalRevenues TotalCosts
         TotalEnergyCosts TotalAssets TotalDebt CompanySignboard];
    repeat
      match goal with
      | |- _ /\ _ => split
      end;
    try assumption;
    try (match goal with
         | |- spec.zeroOr _ match asString ?v with _ => _ end =>
             destruct (asString v);
             [|first [assumption|left; reflexivity|right; apply in_by_eqb; reflexivity]]
         end;
         apply switchOr_zeroOr;
         [reflexivity|first [assumption|left; reflexivity|right; apply in_by_eqb; reflexivity]]);
    try (unfold updateMoney5;
         match goal with
         | |- context [asSlice ?v] => destruct (asSlice v) as [vs|]; [|assumption]
         end;
         destruct (Nat.eqb (length vs) 5); [rewrite assignMoney_length|]; assumption).
  - rewrite cic_fold. apply Forall_app. split; [exact H11|].
    apply Forall_forall. intros loan Hin. apply list_elem_of_In, in_map_iff in Hin.
    destruct Hin as (m & <- & _). apply loanFromMap_complete.
Qed.

End AggregatorLaws.

Lemma UpdateCustomerCheck_reads_only_witness :
  analysis.UpdateCustomerCheck (rt := spec.demoRuntime) models.zeroCustomerCheck
    (<[ "remark" := JStr "see annex" ]> {[ "client_name" := JStr "ACME" ]})
    analysis.SourceBusinessLicense
  = analysis.UpdateCustomerCheck (rt := spec.demoRuntime) models.zeroCustomerCheck
      {[ "client_name" := JStr "ACME" ]} analysis.SourceBusinessLicense.
Proof.
  apply UpdateCustomerCheck_reads_only. intros k Hk. apply lookup_insert_ne.
  intros <-. vm_compute in Hk. intuition discriminate.
Defined.

Lemma UpdateCustomerCheck_no_key_witness :
  analysis.UpdateCustomerCheck (rt := spec.demoRuntime)
    (spec.checkWithAddresses "12 Le Loi" "12 Le Loi")
    {[ "client_name" := JStr "ACME" ]} analysis.SourceEVNBill
  = spec.checkWithAddresses "12 Le Loi" "12 Le Loi"
  /\ models.Situation
       (models.LandOwnership
          (models.Land
             (analysis.UpdateCustomerCheck (rt := spec.demoRuntime)
                models.zeroCustomerCheck ∅ analysis.SourceLandCertificate)))
     = models.Unknown.
Proof.
  split.
  - apply (UpdateCustomerCheck_no_key (rt := spec.demoRuntime)); [|discriminate].
    intros k Hk. apply lookup_singleton_ne. intros <-. vm_compute in Hk.
    intuition discriminate.
  - rewrite (proj2 (UpdateCustomerCheck_no_key (rt := spec.demoRuntime)
                      models.zeroCustomerCheck ∅ analysis.SourceLandCertificate
                      (fun k _ => lookup_empty k)) eq_refl).
    reflexivity.
Defined.

Lemma UpdateCustomerCheck_idempotent_witness :
  let data : gmap string (JSON Z) :=
    {[ "total_revenues" := JArr [JNum 5%Z; JStr "n/a"; JNum 7%Z; JNull; JNum 9%Z] ]} in
  let once :=
    analysis.UpdateCustomerCheck (rt := spec.demoRuntime) models.zeroCustomerCheck data
      analysis.SourceFinancialStatement in
  models.TotalRevenues (models.PL (models.Financial once)) = [5; 0; 7; 0; 9]%Z
  /\ analysis.UpdateCustomerCheck (rt := spec.demoRuntime) once data
       analysis.SourceFinancialStatement = once.
Proof.
  intros data once. split; [vm_compute; reflexivity|].
  apply (UpdateCustomerCheck_idempotent (rt := spec.demoRuntime)). discriminate.
Defined.

Lemma UpdateCustomerCheck_enumsLegal_witness :
  spec.enumsLegal models.zeroCustomerCheck
  /\ spec.enumsLegal
       (analysis.UpdateCustomerCheck (rt := spec.demoRuntime) models.zeroCustomerCheck
          {[ "billing_address_matches_client" := JStr "probably" ]}
          analysis.SourceEVNBill).
Proof.
  assert (H : spec.enumsLegal models.zeroCustomerCheck).
  { unfold spec.enumsLegal. cbv zeta. simpl.
    repeat split; try (left; reflexivity); constructor. }
  split; [exact H|].
  exact (UpdateCustomerCheck_enumsLegal (rt := spec.demoRuntime) _ _ _ H).
Defined.

(** ** The address cross-check: what it writes, and the order of the map *)
Section CompareLaws.
Context `{rt : GoRuntime}.
Import analysis models.

(** [CompareAddresses] writes the match flag of the EVN block and nothing
    else.  With either address missing it writes nothing at all; with both
    present the flag ends as yes or no, and when the semantic comparison
    answers, its answer alone decides (the word comparison is not asked). *)
Theorem CompareAddresses_writes_flag_only (env : CompareEnv) (check : CustomerCheck) :
  let business := BusinessAddress (General (Corporate check)) in
  let billing := BillingAddress (EVN (Land check)) in
  let check' := CompareAddresses env check in
  let flag := BillingAddressMatchesClient (EVN (Land check')) in
  (CheckCompletedAt check' = CheckCompletedAt check
   /\ Corporate check' = Corporate check
   /\ Financial check' = Financial check
   /\ Additional check' = Additional check
   /\ LandOwnership (Land check') = LandOwnership (Land check)
   /\ BillingAddress (EVN (Land check')) = billing
   /\ BillingAmount (EVN (Land check')) = BillingAmount (EVN (Land check))
   /\ BilledAmountsMatchExpenses (EVN (Land check'))
      = BilledAmountsMatchExpenses (EVN (Land check)))
  /\ (business = "" \/ billing = "" -> check' = check)
  /\ (business <> "" -> billing <> "" -> flag = Yes \/ flag = No)
  /\ (business <> "" -> billing <> "" ->
      forall answer,
        compareAddressesWithGemini env business billing = inl answer ->
        flag = if answer then Yes else No).
Proof.
  cbv zeta. unfold CompareAddresses.
  destruct (String.eqb_spec (BusinessAddress (General (Corporate check))) "") as [E1|N1];
    [|destruct (String.eqb_spec (BillingAddress (EVN (Land check))) "") as [E2|N2]];
    cbn [negb andb].
  - repeat split; try reflexivity; try congruence.
  - repeat split; try reflexivity; try congruence.
  - destruct (compareAddressesWithGemini env _ _) as [answer|err].
    + destruct answer; cbn; repeat split; try reflexivity; try tauto;
        intros; try (intuition congruence);
        match goal with
        | H : inl _ = inl ?a |- _ => injection H as <-; reflexivity
        end.
    + destruct (addressesMatch _ _ _ _); cbn; repeat split; try reflexivity; try tauto;
        intros; try (intuition congruence); discriminate.
Qed.

End CompareLaws.

(** The answer of [addressesMatch] depends on the order in which Go visits
    the replacement map of [normalizeAddress]: with the order of the literal
    ["ho chi minh city"] becomes ["hcmc"] and the two addresses have one
    normal form; with the reverse order ["ho chi minh"] is replaced first,
    the word ["city"] stays, and the addresses do not match. *)
Theorem addressesMatch_depends_on_map_order `{rt : GoRuntime} :
  exists (order1 order2 : list (string * string)) (a b : string),
    Permutation order1 analysis.replacements
    /\ Permutation order2 analysis.replacements
    /\ analysis.addressesMatch order1 order1 a b = true
    /\ analysis.addressesMatch order2 order2 a b = false.
Proof.
  exists analysis.replacements, (rev analysis.replacements),
    "Ho Chi Minh City 12 Abc", "HCMC 12 Abc".
  split; [reflexivity|]. split; [symmetry; apply Permutation_rev|].
  split; vm_compute; reflexivity.
Qed.

(** ** The Gemini client: retries without a bound, one counter for two causes *)
Section RetryLaws.
Context `{rt : GoRuntime}.
Import analysis.

Lemma retryAfterSleeps_app (ev1 ev2 : list Event) :
  spec.retryAfterSleeps (ev1 ++ ev2)%list
  = (spec.retryAfterSleeps ev1 ++ spec.retryAfterSleeps ev2)%list.
Proof.
  induction ev1 as [|e ev1 IH]; simpl; [reflexivity|].
  destruct e; simpl; rewrite IH; reflexivity.
Qed.

Lemma enforceRateLimit_no_retry_event (over : N) (st : Limiter) :
  spec.retryAfterSleeps (snd (enforceRateLimit over st)) = [].
Proof.
  unfold enforceRateLimit.
  destruct (time_Sub (now st) (lastGeminiRequest st) <? geminiRateLimitDelay)%Z;
    reflexivity.
Qed.

(** One 429 with a retry delay: the request is made again after the sleep. *)
Lemma analyze_429_retry (c : GeminiClient) (a : Attempt) (script : list Attempt)
    (text : string) (source : DocumentSource) (retryCount : Z) (st : Limiter) (d : Z) :
  spec.is429 a d ->
  analyzeDocumentWithRetry c (a :: script) text source retryCount st
  = match
      analyzeDocumentWithRetry c script text source (retryCount + 1)
        (spec.afterRetry a d st)
    with
    | Some (r, st', ev') =>
        Some (r, st',
              (snd (enforceRateLimit (limiter_over a) st) ++ EvRetryAfterSleep d :: ev')%list)
    | None => None
    end.
Proof.
  intros (resp & Hout & Hcode & Hdelay). cbn [analyzeDocumentWithRetry].
  unfold spec.afterRetry.
  destruct (enforceRateLimit (limiter_over a) st) as [st1 ev]. cbn [fst snd].
  rewrite Hout, Hcode. cbn [Z.ltb Z.leb Z.eqb Z.compare Pos.compare Pos.compare_cont
                            Pos.eqb orb andb].
  rewrite Hdelay. reflexivity.
Qed.

(** A run of 429 answers in front of a script: each is slept out and
    retried, and the rest of the script is met with the retry count moved
    up by their number. *)
Lemma enforceRateLimit_clock (over : N) (st : Limiter) :
  (now st <= now (fst (enforceRateLimit over st)))%Z.
Proof.
  unfold enforceRateLimit, restamp, time_Sleep, advance.
  destruct (time_Sub (now st) (lastGeminiRequest st) <? geminiRateLimitDelay)%Z;
    cbn [fst now]; lia.
Qed.

Lemma afterRetry_clock (a : Attempt) (d : Z) (st : Limiter) :
  (now st + Z.max 0 d <= now (spec.afterRetry a d st))%Z.
Proof.
  pose proof (enforceRateLimit_clock (limiter_over a) st) as Hle.
  unfold spec.afterRetry, restamp, time_Sleep, advance. cbn [now]. lia.
Qed.

Lemma analyze_429_prefix (c : GeminiClient) (text : string) (source : DocumentSource)
    (retries : list Attempt) (delays : list Z) :
  Forall2 spec.is429 retries delays ->
  forall (retryCount : Z) (st : Limiter),
  exists (st1 : Limiter) (ev1 : list Event),
    spec.retryAfterSleeps ev1 = delays
    /\ backoffSleeps ev1 = []
    /\ length (acceptedStamps ev1) = length retries
    /\ (now st + spec.slept delays <= now st1)%Z
    /\ forall rest,
         analyzeDocumentWithRetry c (retries ++ rest)%list text source retryCount st
         = match
             analyzeDocumentWithRetry c rest text source
               (retryCount + Z.of_nat (length retries)) st1
           with
           | Some (r, st', ev') => Some (r, st', (ev1 ++ ev')%list)
           | None => None
           end.
Proof.
  induction 1 as [|a d retries delays Ha Hall IH]; intros retryCount st.
  - exists st, []. repeat split; try reflexivity; [simpl; lia|]. intros rest.
    cbn [app length]. rewrite Z.add_0_r.
    destruct (analyzeDocumentWithRetry c rest text source retryCount st)
      as [[[r st'] ev']|]; reflexivity.
  - destruct (IH (retryCount + 1)%Z (spec.afterRetry a d st))
      as (st1 & ev1 & Hs & Hb & Hacc & Hclock & Hrun).
    pose proof (afterRetry_clock a d st) as Hstep.
    exists st1, (snd (enforceRateLimit (limiter_over a) st) ++ EvRetryAfterSleep d :: ev1)%list.
    destruct (enforceRateLimit_events (limiter_over a) st) as [Hb0 Ha0].
    pose proof (enforceRateLimit_no_retry_event (limiter_over a) st) as Hr0.
    rewrite retryAfterSleeps_app, backoffSleeps_app, acceptedStamps_app, length_app,
      Hr0, Hb0, Ha0.
    cbn [spec.retryAfterSleeps backoffSleeps acceptedStamps app length].
    rewrite Hs, Hb, Hacc. repeat split; try reflexivity; [simpl; lia|]. intros rest.
    change ((a :: retries) ++ rest)%list with (a :: (retries ++ rest))%list.
    rewrite (analyze_429_retry c a _ text source retryCount st d Ha), Hrun.
    replace (retryCount + 1 + Z.of_nat (length retries))%Z
      with (retryCount + Z.of_nat (S (length retries)))%Z by lia.
    destruct (analyzeDocumentWithRetry c rest text source _ st1) as [[[r st'] ev']|];
      [|reflexivity].
    now rewrite <- app_assoc.
Qed.

(** The 429 branch has no cap: however many 429 answers with a retry delay
    come first, each is slept out for its delay and the request made again,
    and the call returns what the first answer of another kind - here a 2xx -
    gives.  The sleeps take their time: the clock has moved on by at least
    the sum of the delays when the call returns. *)
Theorem analyzeDocument_429_unbounded (c : GeminiClient) (text : string)
    (source : DocumentSource) (retries : list Attempt) (delays : list Z)
    (final : Attempt) (resp : HttpResponse) (rest : list Attempt) (st : Limiter) :
  Forall2 spec.is429 retries delays ->
  outcome final = Response resp ->
  (200 <= StatusCode resp < 300)%Z ->
  exists (st' : Limiter) (events : list Event),
    AnalyzeDocument c (retries ++ final :: rest)%list text source st
    = Some (decodeBody (Body resp), st', events)
    /\ spec.retryAfterSleeps events = delays
    /\ backoffSleeps events = []
    /\ length (acceptedStamps events) = S (length retries)
    /\ (now st + spec.slept delays <= now st')%Z.
Proof.
  intros Hall Hout Hcode. unfold AnalyzeDocument.
  destruct (analyze_429_prefix c text source retries delays Hall 0%Z st)
    as (st1 & ev1 & Hs & Hb & Hacc & Hclock & Hrun).
  rewrite Hrun. cbn [analyzeDocumentWithRetry].
  destruct (enforceRateLimit_events (limiter_over final) st1) as [Hb0 Ha0].
  pose proof (enforceRateLimit_no_retry_event (limiter_over final) st1) as Hr0.
  pose proof (enforceRateLimit_clock (limiter_over final) st1) as Hc0.
  destruct (enforceRateLimit (limiter_over final) st1) as [st2 ev2]. cbn [fst snd] in *.
  rewrite Hout.
  replace ((StatusCode resp <? 200)%Z || (300 <=? StatusCode resp)%Z) with false
    by (symmetry; apply orb_false_iff; split; [apply Z.ltb_ge|apply Z.leb_gt]; lia).
  eexists. eexists. split; [reflexivity|].
  rewrite retryAfterSleeps_app, backoffSleeps_app, acceptedStamps_app, length_app,
    Hs, Hb, Hacc, Hr0, Hb0, Ha0.
  repeat split; [apply app_nil_r|lia|unfold advance; cbn [now]; lia].
Qed.

(** The two retry branches share one counter: after three or more 429
    retries a 503 is not retried at all - no backoff sleep is made and the
    call returns the error of that response. *)
Theorem analyzeDocument_503_after_429s (c : GeminiClient) (text : string)
    (source : DocumentSource) (retries : list Attempt) (delays : list Z)
    (a : Attempt) (resp : HttpResponse) (rest : list Attempt) (st : Limiter) :
  Forall2 spec.is429 retries delays ->
  (3 <= length retries)%nat ->
  outcome a = Response resp -> StatusCode resp = 503%Z ->
  exists (st' : Limiter) (events : list Event),
    AnalyzeDocument c (retries ++ a :: rest)%list text source st
    = Some (inr ("gemini http error: " ++ Status resp ++ " - " ++ Body resp), st', events)
    /\ backoffSleeps events = []
    /\ spec.retryAfterSleeps events = delays.
Proof.
  intros Hall Hlen Hout Hcode. unfold AnalyzeDocument.
  destruct (analyze_429_prefix c text source retries delays Hall 0%Z st)
    as (st1 & ev1 & Hs & Hb & Hacc & _ & Hrun).
  rewrite Hrun.
  rewrite (analyze_503_terminal c a rest text source _ st1 resp Hout Hcode) by lia.
  eexists. eexists. split; [reflexivity|].
  destruct (enforceRateLimit_events (limiter_over a) st1) as [Hb0 _].
  rewrite retryAfterSleeps_app, backoffSleeps_app, Hs, Hb, Hb0,
    enforceRateLimit_no_retry_event.
  split; [reflexivity|apply app_nil_r].
Qed.

(** Every request passes the limiter, the retried ones too: a call that
    returns has made one request more than it has slept out retries, each
    stamped by [enforceRateLimit], and no more requests than the script has
    answers. *)
Theorem analyzeDocument_requests (c : GeminiClient) (text : string)
    (source : DocumentSource) (script : list Attempt) :
  forall (retryCount : Z) (st st' : Limiter) r (events : list Event),
    analyzeDocumentWithRetry c script text source retryCount st = Some (r, st', events) ->
    length (acceptedStamps events) = S (spec.retrySleeps events)
    /\ (length (acceptedStamps events) <= length script)%nat.
Proof.
  unfold spec.retrySleeps.
  induction script as [|a script IH]; intros retryCount st st' r events Hrun;
    [discriminate|].
  cbn [analyzeDocumentWithRetry] in Hrun.
  destruct (enforceRateLimit_events (limiter_over a) st) as [Hb0 Ha0].
  pose proof (enforceRateLimit_no_retry_event (limiter_over a) st) as Hr0.
  destruct (enforceRateLimit (limiter_over a) st) as [st1 ev]. cbn [fst snd] in *.
  assert (Hone : forall x s, Some (x, s, ev) = Some (r, st', events) ->
                 length (acceptedStamps events)
                 = S (length (spec.retryAfterSleeps events) + length (backoffSleeps events))
                 /\ (length (acceptedStamps events) <= length (a :: script))%nat).
  { intros x s [= _ _ <-]. rewrite Hr0, Hb0, Ha0. cbn [length]. split; lia. }
  assert (Hmore : forall rc s d e,
             (spec.retryAfterSleeps [e] ++ backoffSleeps [e])%list = [d] ->
             acceptedStamps [e] = [] ->
             match analyzeDocumentWithRetry c script text source rc s with
             | Some (r0, st0, ev') => Some (r0, st0, (ev ++ e :: ev')%list)
             | None => None
             end = Some (r, st', events) ->
             length (acceptedStamps events)
             = S (length (spec.retryAfterSleeps events) + length (backoffSleeps events))
             /\ (length (acceptedStamps events) <= length (a :: script))%nat).
  { intros rc s d e He Hacc Hrec.
    destruct (analyzeDocumentWithRetry c script text source rc s)
      as [[[r0 st0] ev']|] eqn:Hsub; [|discriminate].
    injection Hrec as _ _ <-. destruct (IH _ _ _ _ _ Hsub) as [Hcount Hle].
    change (e :: ev') with ([e] ++ ev')%list.
    rewrite !retryAfterSleeps_app, !backoffSleeps_app, !acceptedStamps_app, !length_app,
      Hr0, Hb0, Ha0, Hacc.
    apply (f_equal (@length Z)) in He. rewrite length_app in He.
    cbn [length app] in *. split; lia. }
  destruct (outcome a) as [err|err|err|resp]; try (now apply (Hone _ _ Hrun)).
  destruct ((StatusCode resp <? 200)%Z || (300 <=? StatusCode resp)%Z);
    [|now apply (Hone _ _ Hrun)].
  destruct (if (StatusCode resp =? 429)%Z then retryAfter (Body resp) else None)
    as [duration|].
  - now apply (Hmore _ _ duration (EvRetryAfterSleep duration) eq_refl eq_refl Hrun).
  - destruct ((StatusCode resp =? 503)%Z && (retryCount <? 3)%Z).
    + now apply (Hmore _ _ _ (EvBackoffSleep _) eq_refl eq_refl Hrun).
    + now apply (Hone _ _ Hrun).
Qed.

End RetryLaws.

Lemma analyzeDocument_429_unbounded_witness :
  let c := {| analysis.apiKey := "key"; analysis.model := "gemini-2.5-pro" |} in
  let st := {| analysis.now := 1000; analysis.lastGeminiRequest := 0 |} in
  let retries := [spec.tooMany; spec.tooMany; spec.tooMany; spec.tooMany; spec.tooMany] in
  let delays := List.map (fun _ => (7 * analysis.Second)%Z) retries in
  Forall2 (spec.is429 (rt := spec.retryRuntime)) retries delays
  /\ exists st' events,
       analysis.AnalyzeDocument (rt := spec.retryRuntime) c
         (retries ++ [spec.answered])%list "text" analysis.SourceEVNBill st
       = Some (inl ∅, st', events)
       /\ spec.retryAfterSleeps events = delays
       /\ length (analysis.acceptedStamps events) = 6%nat
       /\ (1000 + 35 * analysis.Second <= analysis.now st')%Z.
Proof.
  intros c st retries delays.
  assert (H : Forall2 (spec.is429 (rt := spec.retryRuntime)) retries delays).
  { repeat (apply Forall2_cons; split;
            [eexists; split; [reflexivity|]; split; reflexivity|]).
    apply Forall2_nil. exact I. }
  split; [exact H|].
  destruct (analyzeDocument_429_unbounded (rt := spec.retryRuntime) c "text"
              analysis.SourceEVNBill retries delays spec.answered _ [] st H eq_refl)
    as (st' & events & Hrun & Hs & _ & Hacc & Hclock); [simpl; lia|].
  exists st', events. split; [exact Hrun|]. split; [exact Hs|]. split; [exact Hacc|].
  exact Hclock.
Defined.

Lemma analyzeDocument_503_after_429s_witness :
  let c := {| analysis.apiKey := "key"; analysis.model := "gemini-2.5-pro" |} in
  let st := {| analysis.now := 1000; analysis.lastGeminiRequest := 0 |} in
  let retries := [spec.tooMany; spec.tooMany; spec.tooMany] in
  let delays := List.map (fun _ => (7 * analysis.Second)%Z) retries in
  Forall2 (spec.is429 (rt := spec.retryRuntime)) retries delays
  /\ exists st' events,
       analysis.AnalyzeDocument (rt := spec.retryRuntime) c
         (retries ++ [spec.unavailable; spec.answered])%list "text"
         analysis.SourceEVNBill st
       = Some (inr "gemini http error: 503 Service Unavailable - overloaded", st', events)
       /\ analysis.backoffSleeps events = [].
Proof.
  intros c st retries delays.
  assert (H : Forall2 (spec.is429 (rt := spec.retryRuntime)) retries delays).
  { repeat (apply Forall2_cons; split;
            [eexists; split; [reflexivity|]; split; reflexivity|]).
    apply Forall2_nil. exact I. }
  split; [exact H|].
  destruct (analyzeDocument_503_after_429s (rt := spec.retryRuntime) c "text"
              analysis.SourceEVNBill retries delays spec.unavailable _ [spec.answered] st
              H (le_n 3) eq_refl eq_refl)
    as (st' & events & Hrun & Hb & _).
  exists st', events. split; [exact Hrun|exact Hb].
Defined.

Lemma analyzeDocument_requests_witness :
  let c := {| analysis.apiKey := "key"; analysis.model := "gemini-2.5-pro" |} in
  let st := {| analysis.now := 1000; analysis.lastGeminiRequest := 0 |} in
  exists r st' events,
    analysis.analyzeDocumentWithRetry (rt := spec.retryRuntime) c
      [spec.tooMany; spec.unavailable; spec.answered; spec.answered] "text"
      analysis.SourceEVNBill 0 st
    = Some (r, st', events)
    /\ length (analysis.acceptedStamps events) = 3%nat
    /\ spec.retrySleeps events = 2%nat.
Proof.
  intros c st.
  destruct (analysis.analyzeDocumentWithRetry (rt := spec.retryRuntime) c
              [spec.tooMany; spec.unavailable; spec.answered; spec.answered] "text"
              analysis.SourceEVNBill 0 st) as [[[r st'] events]|] eqn:Hrun;
    [|vm_compute in Hrun; discriminate].
  exists r, st', events. split; [reflexivity|].
  destruct (analyzeDocument_requests (rt := spec.retryRuntime) c "text"
              analysis.SourceEVNBill _ _ _ _ _ _ Hrun) as [Hcount _].
  assert (Hacc : length (analysis.acceptedStamps events) = 3%nat)
    by (vm_compute in Hrun; injection Hrun as _ _ <-; reflexivity).
  split; [exact Hacc|]. rewrite Hacc in Hcount. lia.
Defined.

(** ** The limiter: how long a batch of calls takes *)
Section LimiterLaws.
Import analysis.

Lemma spaced_span (gap : Z) (stamps : list Z) :
  forall s0 : Z,
    spaced gap (s0 :: stamps) ->
    (gap * Z.of_nat (length stamps) <= List.last stamps s0 - s0)%Z.
Proof.
  induction stamps as [|s1 stamps IH]; intros s0 Hsp.
  - simpl. lia.
  - destruct Hsp as [Hgap Hsp]. specialize (IH s1 Hsp).
    replace (List.last (s1 :: stamps) s0) with (List.last stamps s1)
      by (clear; revert s1; induction stamps as [|s2 stamps IH]; intros s1;
          [reflexivity|]; cbn [List.last] in *; destruct stamps; [reflexivity|apply IH]).
    rewrite length_cons, Nat2Z.inj_succ. lia.
Qed.

(** The limiter bounds the rate of a whole run: under every interleaving
    of callers, retry re-stamps and clock ticks, [n] accepted calls span at
    least [n - 1] times 35 seconds from the first stamp to the last. *)
Theorem enforceRateLimit_span (actions : list LimiterAction) (st : Limiter)
    (first : Z) (rest : list Z) :
  (lastGeminiRequest st <= now st)%Z ->
  acceptedStamps (snd (limiterRun actions st)) = first :: rest ->
  (35 * Second * Z.of_nat (length rest) <= List.last rest first - first)%Z.
Proof.
  intros Hle Hstamps.
  pose proof (limiterRun_spaced actions st (lastGeminiRequest st) Hle (Z.le_refl _)) as Hsp.
  rewrite Hstamps in Hsp. apply spaced_tail in Hsp.
  exact (spaced_span geminiRateLimitDelay rest first Hsp).
Qed.

End LimiterLaws.

Lemma enforceRateLimit_span_witness :
  let st := {| analysis.now := 1000; analysis.lastGeminiRequest := 0 |} in
  let actions :=
    [analysis.Enforce 0; analysis.Tick 5000000000; analysis.Enforce 7;
     analysis.Restamp; analysis.Enforce 0] in
  analysis.acceptedStamps (snd (analysis.limiterRun actions st))
  = [35000000000; 70000000007; 105000000007]%Z
  /\ (35 * analysis.Second * 2 <= 105000000007 - 35000000000)%Z.
Proof.
  intros st actions.
  assert (H : analysis.acceptedStamps (snd (analysis.limiterRun actions st))
              = [35000000000; 70000000007; 105000000007]%Z) by (vm_compute; reflexivity).
  split; [exact H|].
  exact (enforceRateLimit_span actions st _ _ ltac:(simpl; lia) H).
Defined.

(** ** One task: where text comes from and when the aggregate is written *)
Section TaskLaws.
Context `{rt : GoRuntime}.
Import batch.

Lemma textErr_error (r : string + string) (text err : string) :
  textErr r = (text, Some err) -> text = "".
Proof. destruct r; intros [= <- _]; reflexivity || discriminate. Qed.

Lemma extractImage_error_no_text (p : Processor) (env : TaskEnv) (localPath : string)
    (source : analysis.DocumentSource) (text err : string) (log : list Call) :
  extractImage p env localPath source = (text, Some err, log) -> text = "".
Proof.
  unfold extractImage.
  destruct (ocr.ExtractTextFromImageVision (t_ocr env) localPath (Lang p)) as [t0|err0];
    cbn [textErr]; [intros [= _ ?]; discriminate|].
  destruct (strings.Contains err0 "Bad image data"); [|now intros [= <- _ _]].
  destruct (convertImageToStandardFormat env localPath) as [[convertedPath|cerr] clog].
  - destruct (negb (String.eqb convertedPath "")).
    + destruct (ocr.ExtractTextFromImageVision (t_ocr env) convertedPath (Lang p))
        as [t1|err1]; cbn [textErr]; [intros [= _ ?]; discriminate|].
      destruct (ocr.ExtractTextFromImageTesseract (t_ocr env) localPath (Lang p))
        as [tt|terr];
        [destruct (negb (String.eqb (strings.TrimSpace tt) ""));
         [intros [= _ ?]; discriminate|]|];
        destruct (String.eqb source analysis.SourceSiteVisitPhotos);
        intros [= <- _ _] || (intros [= _ ?]; discriminate); reflexivity.
    + destruct (ocr.ExtractTextFromImageTesseract (t_ocr env) localPath (Lang p))
        as [tt|terr];
        [destruct (negb (String.eqb (strings.TrimSpace tt) ""));
         [intros [= _ ?]; discriminate|]|];
        destruct (String.eqb source analysis.SourceSiteVisitPhotos);
        intros [= <- _ _] || (intros [= _ ?]; discriminate); reflexivity.
  - destruct (ocr.ExtractTextFromImageTesseract (t_ocr env) localPath (Lang p))
      as [tt|terr];
      [destruct (negb (String.eqb (strings.TrimSpace tt) ""));
       [intros [= _ ?]; discriminate|]|];
      destruct (String.eqb source analysis.SourceSiteVisitPhotos);
      intros [= <- _ _] || (intros [= _ ?]; discriminate); reflexivity.
Qed.

(** An extraction that ends in an error has no text. *)
Lemma extractText_error_no_text (p : Processor) (env : TaskEnv) (localPath : string)
    (ft : files.FileType) (source : analysis.DocumentSource)
    (text err : string) (log : list Call) :
  extractText p env localPath ft source = (text, Some err, log) -> text = "".
Proof.
  unfold extractText. destruct ft; cbn [files.IsProcessableFileType negb];
    try (now intros [= <- _ _]).
  - apply extractImage_error_no_text.
  - destruct (t_readfile env); [intros [= _ ?]; discriminate|now intros [= <- _ _]].
  - destruct (ocr.ExtractTextFromPDF _ _ _ _); cbn [textErr];
      [intros [= _ ?]; discriminate|now intros [= <- _ _]].
Qed.

(** Text is extracted from images, text files and PDFs only. *)
Lemma extractText_text_kinds (p : Processor) (env : TaskEnv) (localPath : string)
    (ft : files.FileType) (source : analysis.DocumentSource)
    (text : string) (extractErr : option string) (log : list Call) :
  extractText p env localPath ft source = (text, extractErr, log) -> text <> "" ->
  ft = files.FileTypeImage \/ ft = files.FileTypeText \/ ft = files.FileTypePDF.
Proof.
  unfold extractText. destruct ft; cbn [files.IsProcessableFileType negb];
    try (intros [= <- _ _] Hne; congruence); tauto.
Qed.

Lemma task_merge
    (p : Processor) (env : TaskEnv) (input : string) (check : models.CustomerCheck)
    (source : analysis.DocumentSource)
    (res : types.FileResult) (check' : models.CustomerCheck) (calls : list Call) :
  processOneFileWithSource p env input check source = (res, check', calls) ->
  (types.Error res <> "" -> check' = check)
  /\ (types.ExtractedText res = "" -> check' = check)
  /\ (SkipAnalysis p = true -> check' = check)
  /\ (check' = check
      \/ exists client extractedData,
           analysis.NewGeminiClient (t_getenv env) = inl client
           /\ t_analyze env client (types.ExtractedText res) source = inl extractedData
           /\ check' = analysis.UpdateCustomerCheck check extractedData source
           /\ types.Error res = "" /\ types.ExtractedText res <> ""
           /\ SkipAnalysis p = false).
Proof.
  unfold processOneFileWithSource.
  destruct (d_err (t_download env)) as [err|].
  { intros [= <- <- _]. cbn. repeat split; try reflexivity. now left. }
  destruct (extractText p env _ _ source) as [[text extractErr] log] eqn:Hext.
  destruct (String.eqb_spec text "") as [->|Hne]; cbn [negb andb].
  { intros [= <- <- _]. cbn. repeat split; try reflexivity. now left. }
  destruct (SkipAnalysis p) eqn:Hskip; cbn [negb].
  { intros [= <- <- _]. cbn. repeat split; try reflexivity. now left. }
  destruct (analysis.NewGeminiClient (t_getenv env)) as [client|clientErr] eqn:Hclient.
  2:{ intros [= <- <- _]. cbn. repeat split; try reflexivity; try discriminate. now left. }
  destruct (t_analyze env client text source) as [extractedData|aerr] eqn:Han.
  2:{ intros [= <- <- _]. cbn. repeat split; try reflexivity; try discriminate. now left. }
  assert (Hnoerr : extractErr = None).
  { destruct extractErr as [err|]; [|reflexivity].
    apply extractText_error_no_text in Hext. congruence. }
  subst extractErr. intros [= <- <- _]. cbn.
  split; [congruence|]. split; [congruence|]. split; [discriminate|].
  right. exists client, extractedData. repeat split; assumption.
Qed.

(** When the aggregate is written.  A task writes to the shared record
    only through one merge, and only when text was extracted without an
    error, analysis is on, the client could be made and the analysis
    returned data: then the record is the merge of that data and the result
    has no error.  In every other case - a failed download or extraction, no
    text, analysis skipped or failed - the record is left as it was. *)
Theorem processOneFileWithSource_merge
    (p : Processor) (env : TaskEnv) (input : string) (check : models.CustomerCheck)
    (source : analysis.DocumentSource)
    (res : types.FileResult) (check' : models.CustomerCheck) (calls : list Call) :
  processOneFileWithSource p env input check source = (res, check', calls) ->
  (types.Error res <> "" -> check' = check)
  /\ (types.ExtractedText res = "" -> check' = check)
  /\ (SkipAnalysis p = true -> check' = check)
  /\ (check' = check
      \/ exists client extractedData,
           analysis.NewGeminiClient (t_getenv env) = inl client
           /\ t_analyze env client (types.ExtractedText res) source = inl extractedData
           /\ check' = analysis.UpdateCustomerCheck check extractedData source
           /\ types.Error res = "" /\ types.ExtractedText res <> ""
           /\ SkipAnalysis p = false).
Proof. exact (task_merge p env input check source res check' calls). Qed.

(** A result with text comes from a download that succeeded and from a
    file processed as an image, a text file or a PDF. *)
Lemma task_text_kinds
    (p : Processor) (env : TaskEnv) (input : string) (check : models.CustomerCheck)
    (source : analysis.DocumentSource)
    (res : types.FileResult) (check' : models.CustomerCheck) (calls : list Call) :
  processOneFileWithSource p env input check source = (res, check', calls) ->
  types.ExtractedText res <> "" ->
  let d := t_download env in
  let ft := taskFileType (d_filename d) (d_mediaType d) source in
  d_err d = None
  /\ (ft = files.FileTypeImage \/ ft = files.FileTypeText \/ ft = files.FileTypePDF)
  /\ types.FileType res = files.FileType_String ft.
Proof.
  cbv zeta. unfold processOneFileWithSource.
  destruct (d_err (t_download env)) as [err|].
  { intros [= <- _ _] Hne. cbn in Hne. congruence. }
  destruct (extractText p env _ _ source) as [[text extractErr] log] eqn:Hext.
  intros Hrun Htext.
  assert (Hres : types.ExtractedText res = text
                 /\ types.FileType res
                    = files.FileType_String
                        (taskFileType (d_filename (t_download env))
                           (d_mediaType (t_download env)) source)).
  { destruct (negb (String.eqb text "") && negb (SkipAnalysis p));
      [destruct (analysis.NewGeminiClient _);
       [destruct (t_analyze env _ text source)|]|];
      injection Hrun as <- _ _; split; reflexivity. }
  destruct Hres as [Ht Hft]. split; [reflexivity|]. split; [|exact Hft].
  apply (extractText_text_kinds p env _ _ source text extractErr log Hext). congruence.
Qed.

(** A result carries text only when the download succeeded and
    [DetectFileType] took the file for an image, a text file or a PDF - or
    did not recognise it at all while the source is site_visit_photos, the
    one source for which an unrecognised file is processed as an image.  The
    result names the detected type, and [image] for such a photo.  Archives,
    audio, video and office documents never yield text, nor does an
    unrecognised file of any other source. *)
Theorem processOneFileWithSource_text_kinds
    (p : Processor) (env : TaskEnv) (input : string) (check : models.CustomerCheck)
    (source : analysis.DocumentSource)
    (res : types.FileResult) (check' : models.CustomerCheck) (calls : list Call) :
  processOneFileWithSource p env input check source = (res, check', calls) ->
  types.ExtractedText res <> "" ->
  let d := t_download env in
  let detected := files.DetectFileType (d_filename d) (d_mediaType d) in
  d_err d = None
  /\ (detected = files.FileTypeImage \/ detected = files.FileTypeText
      \/ detected = files.FileTypePDF
      \/ (detected = files.FileTypeUnknown /\ source = analysis.SourceSiteVisitPhotos))
  /\ (detected <> files.FileTypeUnknown ->
      types.FileType res = files.FileType_String detected)
  /\ (detected = files.FileTypeUnknown -> types.FileType res = "image").
Proof.
  intros Hrun Htext.
  destruct (task_text_kinds p env input check source res check' calls Hrun Htext)
    as (Hd & Hkind & Hft).
  cbv zeta in *. unfold taskFileType in Hkind, Hft.
  destruct (files.DetectFileType (d_filename (t_download env))
              (d_mediaType (t_download env))) eqn:Hdet;
    try (destruct Hkind as [?|[?|?]]; discriminate);
    try (split; [exact Hd|]; split; [tauto|]; split; [intros _; exact Hft|discriminate]).
  destruct (String.eqb_spec source analysis.SourceSiteVisitPhotos) as [Hs|Hs];
    [|destruct Hkind as [?|[?|?]]; discriminate].
  split; [exact Hd|]. split; [do 3 right; now split|].
  split; [congruence|intros _; exact Hft].
Qed.

End TaskLaws.

Lemma processOneFileWithSource_merge_witness :
  let run :=
    batch.processOneFileWithSource spec.analysingProcessor spec.licenceTaskEnv
      "https://example.com/licence.txt" models.zeroCustomerCheck
      analysis.SourceBusinessLicense in
  types.Error (fst (fst run)) = ""
  /\ models.ClientName (models.General (models.Corporate (snd (fst run)))) = "ACME"
  /\ (snd (fst run) = models.zeroCustomerCheck
      \/ exists client extractedData,
           analysis.NewGeminiClient (batch.t_getenv spec.licenceTaskEnv) = inl client
           /\ batch.t_analyze spec.licenceTaskEnv client
                (types.ExtractedText (fst (fst run))) analysis.SourceBusinessLicense
              = inl extractedData
           /\ snd (fst run)
              = analysis.UpdateCustomerCheck models.zeroCustomerCheck extractedData
                  analysis.SourceBusinessLicense
           /\ types.Error (fst (fst run)) = ""
           /\ types.ExtractedText (fst (fst run)) <> ""
           /\ batch.SkipAnalysis spec.analysingProcessor = false).
Proof.
  intros run.
  assert (Hrun : batch.processOneFileWithSource spec.analysingProcessor
                   spec.licenceTaskEnv "https://example.com/licence.txt"
                   models.zeroCustomerCheck analysis.SourceBusinessLicense
                 = (fst (fst run), snd (fst run), snd run))
    by (unfold run; now destruct (batch.processOneFileWithSource _ _ _ _ _) as [[? ?] ?]).
  split; [vm_compute; reflexivity|]. split; [vm_compute; reflexivity|].
  exact (proj2 (proj2 (proj2 (processOneFileWithSource_merge _ _ _ _ _ _ _ _ Hrun)))).
Defined.

Lemma processOneFileWithSource_text_kinds_witness :
  let run :=
    batch.processOneFileWithSource spec.analysingProcessor spec.unknownPhotoEnv
      "https://example.com/photo.bin" models.zeroCustomerCheck
      analysis.SourceSiteVisitPhotos in
  files.DetectFileType "photo.bin" "application/octet-stream" = files.FileTypeUnknown
  /\ types.ExtractedText (fst (fst run))
     = "No signboard visible or signboard unclear in site visit photos"
  /\ types.FileType (fst (fst run)) = "image".
Proof.
  intros run.
  assert (Hrun : batch.processOneFileWithSource spec.analysingProcessor
                   spec.unknownPhotoEnv "https://example.com/photo.bin"
                   models.zeroCustomerCheck analysis.SourceSiteVisitPhotos
                 = (fst (fst run), snd (fst run), snd run))
    by (unfold run; now destruct (batch.processOneFileWithSource _ _ _ _ _) as [[? ?] ?]).
  assert (Htext : types.ExtractedText (fst (fst run))
                  = "No signboard visible or signboard unclear in site visit photos")
    by (vm_compute; reflexivity).
  assert (Hdet : files.DetectFileType "photo.bin" "application/octet-stream"
                 = files.FileTypeUnknown) by (vm_compute; reflexivity).
  split; [exact Hdet|]. split; [exact Htext|].
  destruct (processOneFileWithSource_text_kinds _ _ _ _ _ _ _ _ Hrun
              ltac:(rewrite Htext; discriminate))
    as (_ & _ & _ & Hft).
  exact (Hft Hdet).
Defined.

(** ** The batch scheduler: slots, the aggregate, the progress updates *)
Section SchedulerLaws.
Context `{rt : GoRuntime}.
Import batch.
Variables (p : Processor) (inputs : list string)
  (fileSources : option (gmap string analysis.DocumentSource))
  (envs : nat -> TaskEnv).

Lemma sendProgress_check (u : ProgressUpdate) (st st1 : Run) :
  sendProgress p u st = Some st1 ->
  r_check st1 = r_check st /\ r_calls st1 = r_calls st.
Proof.
  unfold sendProgress. destruct (ProgressChan p) as [cap|].
  - destruct (Nat.ltb _ cap); [|discriminate]. intros [= <-]. now split.
  - intros [= <-]. now split.
Qed.

(** *** Slots *)
Lemma slotsInv_step (st st' : Run) (a : Action) :
  spec.slotsInv p st -> step p inputs fileSources envs st a = Some st' ->
  spec.slotsInv p st'.
Proof.
  intros [Hsum Hle] Hstep. unfold spec.slotsInv. destruct a as [index|]; simpl in Hstep.
  - destruct (inputs !! index) as [inputURL|]; [|discriminate].
    destruct (r_pcs st !! index) as [pc|] eqn:Hpc; [|discriminate].
    destruct pc as [| | |result|].
    + destruct (Z.ltb_spec (Z.of_nat (r_semaphore st)) (MaxConcurrency p)) as [Hlt|];
        [|discriminate].
      injection Hstep as <-. simpl.
      pose proof (sum_insert spec.holdsSlot _ _ _ PcAcquired Hpc). simpl in *. lia.
    + destruct (sendProgress p _ st) as [st1|] eqn:Hsend; [|discriminate].
      injection Hstep as <-. apply sendProgress_same in Hsend as (Hp & _ & _ & Hs).
      simpl. rewrite Hp, Hs.
      pose proof (sum_insert spec.holdsSlot _ _ _ PcAnnounced Hpc). simpl in *. lia.
    + destruct (processOneFileWithSource p (envs index) inputURL (r_check st) _)
        as [[result check] calls].
      injection Hstep as <-. simpl.
      pose proof (sum_insert spec.holdsSlot _ _ _ (PcProcessed result) Hpc).
      simpl in *. lia.
    + destruct (sendProgress p _ st) as [st1|] eqn:Hsend; [|discriminate].
      injection Hstep as <-. apply sendProgress_same in Hsend as (Hp & _ & _ & Hs).
      simpl. rewrite Hp, Hs.
      pose proof (sum_insert spec.holdsSlot _ _ _ PcDone Hpc). simpl in *. lia.
    + discriminate.
  - destruct (r_progress st); [discriminate|]. injection Hstep as <-. simpl.
    split; assumption.
Qed.

(** At every point of every schedule the slots taken are the goroutines
    between acquiring and releasing the semaphore, and there are never more
    of them than [MaxConcurrency]: no more files than that are in work at
    once. *)
Theorem semaphore_bounds_running (sched : list Action) (now_ : Z) :
  let st := run p inputs fileSources envs sched (initialRun (length inputs) now_) in
  sum_list (List.map spec.holdsSlot (r_pcs st)) = r_semaphore st
  /\ (Z.of_nat (sum_list (List.map spec.holdsSlot (r_pcs st)))
      <= Z.max 0 (MaxConcurrency p))%Z.
Proof.
  cbv zeta.
  assert (Hinv : forall sched st, spec.slotsInv p st ->
                   spec.slotsInv p (run p inputs fileSources envs sched st)).
  { clear sched. induction sched as [|a sched IH]; intros st Hst; simpl; [exact Hst|].
    destruct (step p inputs fileSources envs st a) as [st'|] eqn:Hstep.
    - apply IH. now apply (slotsInv_step st st' a).
    - now apply IH. }
  destruct (Hinv sched (initialRun (length inputs) now_)) as [Hsum Hle].
  { unfold spec.slotsInv, initialRun. simpl. rewrite sum_replicate. simpl. lia. }
  rewrite <- Hsum. split; [reflexivity|exact Hle].
Qed.

(** *** The aggregate *)

(** The result of a task does not depend on the aggregate it is given. *)
Lemma task_result_any_check (env : TaskEnv) (input : string)
    (check1 check2 : models.CustomerCheck) (source : analysis.DocumentSource) :
  fst (fst (processOneFileWithSource p env input check1 source))
  = fst (fst (processOneFileWithSource p env input check2 source)).
Proof.
  unfold processOneFileWithSource.
  destruct (d_err (t_download env)); [reflexivity|].
  destruct (extractText p env _ _ source) as [[text extractErr] log].
  destruct (negb (String.eqb text "") && negb (SkipAnalysis p)); [|reflexivity].
  destruct (analysis.NewGeminiClient _) as [client|]; [|reflexivity].
  destruct (t_analyze env client text source); reflexivity.
Qed.

Lemma mergedFrom_step (check0 : models.CustomerCheck) (st st' : Run) (a : Action) :
  spec.mergedFrom p inputs fileSources envs check0 (r_check st) ->
  step p inputs fileSources envs st a = Some st' ->
  spec.mergedFrom p inputs fileSources envs check0 (r_check st').
Proof.
  intros Hm Hstep. destruct a as [index|]; simpl in Hstep.
  - destruct (inputs !! index) as [inputURL|] eqn:Hin; [|discriminate].
    destruct (r_pcs st !! index) as [pc|] eqn:Hpc; [|discriminate].
    destruct pc as [| | |result|].
    + destruct (_ <? _)%Z; [|discriminate]. now injection Hstep as <-.
    + destruct (sendProgress p _ st) as [st1|] eqn:Hsend; [|discriminate].
      injection Hstep as <-. apply sendProgress_check in Hsend as [Hc _].
      simpl. now rewrite Hc.
    + destruct (processOneFileWithSource p (envs index) inputURL (r_check st) _)
        as [[result check] calls] eqn:Hone.
      injection Hstep as <-. simpl.
      assert (Htext :
                types.ExtractedText
                  (fst (fst (processOneFileWithSource p (envs index) inputURL check0
                               (fileSourceOf p fileSources inputURL))))
                = types.ExtractedText result)
        by (rewrite (task_result_any_check (envs index) inputURL check0 (r_check st)),
              Hone; reflexivity).
      destruct (task_merge _ _ _ _ _ _ _ _ Hone)
        as (_ & _ & _ & [->|(client & data & Hclient & Hreply & -> & _ & _ & Hskip)]);
        [exact Hm|].
      destruct Hm as (merges & -> & Hall & Hnone).
      exists (merges ++ [(data, fileSourceOf p fileSources inputURL)])%list.
      split; [|split].
      * unfold spec.applyMerges. now rewrite fold_left_app.
      * apply Forall_app. split; [exact Hall|].
        apply Forall_cons. split; [|apply Forall_nil; exact I].
        exists index, inputURL, client. cbn [fst snd].
        split; [exact Hin|]. split; [reflexivity|]. split; [exact Hclient|].
        rewrite Htext. exact Hreply.
      * intros Hs. congruence.
    + destruct (sendProgress p _ st) as [st1|] eqn:Hsend; [|discriminate].
      injection Hstep as <-. apply sendProgress_check in Hsend as [Hc _].
      simpl. now rewrite Hc.
    + discriminate.
  - destruct (r_progress st); [discriminate|]. now injection Hstep as <-.
Qed.

Lemma mergedFrom_run (check0 : models.CustomerCheck) (sched : list Action) :
  forall st,
    spec.mergedFrom p inputs fileSources envs check0 (r_check st) ->
    spec.mergedFrom p inputs fileSources envs check0
      (r_check (run p inputs fileSources envs sched st)).
Proof.
  induction sched as [|a sched IH]; intros st Hm; simpl; [exact Hm|].
  destruct (step p inputs fileSources envs st a) as [st'|] eqn:Hstep.
  - apply IH. now apply (mergedFrom_step check0 st st' a).
  - now apply IH.
Qed.

Lemma update_keeps_stamp (check : models.CustomerCheck)
    (data : gmap string (JSON float64)) (source : analysis.DocumentSource) :
  models.CheckCompletedAt (analysis.UpdateCustomerCheck check data source)
  = models.CheckCompletedAt check.
Proof.
  unfold analysis.UpdateCustomerCheck.
  repeat
    match goal with
    | |- context [String.eqb source ?k] => destruct (String.eqb source k)
    end;
    try reflexivity.
  unfold analysis.updateFromCICReport.
  destruct (analysis.asSlice (data !! "loans")); reflexivity.
Qed.

Lemma compare_keeps_stamp (cmp : analysis.CompareEnv) (check : models.CustomerCheck) :
  models.CheckCompletedAt (analysis.CompareAddresses cmp check)
  = models.CheckCompletedAt check.
Proof.
  unfold analysis.CompareAddresses.
  destruct (negb _ && negb _); [|reflexivity].
  destruct (analysis.compareAddressesWithGemini cmp _ _) as [[]|];
    [| |destruct (analysis.addressesMatch _ _ _ _)]; reflexivity.
Qed.

Lemma update_unmapped (check : models.CustomerCheck)
    (data : gmap string (JSON float64)) (source : analysis.DocumentSource) :
  ~ In source spec.mappedKinds ->
  analysis.UpdateCustomerCheck check data source = check.
Proof.
  intros Hnot. unfold analysis.UpdateCustomerCheck.
  repeat
    match goal with
    | |- context [String.eqb source ?k] =>
        destruct (String.eqb_spec source k) as [->|_];
        [exfalso; apply Hnot; unfold spec.mappedKinds; simpl; tauto|]
    end.
  reflexivity.
Qed.

(** What a batch returns as its aggregate: the record that starts with
    the completion stamp alone, after the merges of replies of the analysis
    - each the map [AnalyzeDocument] returned for one of the inputs, on the
    text extracted from it and for its source - and the address comparison
    at the end.
    The stamp is still the one set at the start.  With the analysis skipped,
    or with no input whose source is one of the seven mapped kinds (the
    command's default source is "unknown"), the aggregate is the record as
    it started, whatever the documents hold. *)
Theorem ProcessFilesWithSources_aggregate
    (cmp : analysis.CompareEnv) (startTime now_ endTime : Z) (sched : list Action)
    (br : types.BatchResult) :
  let check0 := r_check (initialRun (length inputs) now_) in
  ProcessFilesWithSources p inputs fileSources envs cmp startTime now_ endTime sched
  = Some br ->
  (exists check,
      spec.mergedFrom p inputs fileSources envs check0 check
      /\ types.CustomerCheck br = analysis.CompareAddresses cmp check)
  /\ models.CheckCompletedAt (types.CustomerCheck br) = Some now_
  /\ (SkipAnalysis p = true
      \/ (forall index inputURL,
            inputs !! index = Some inputURL ->
            ~ In (fileSourceOf p fileSources inputURL) spec.mappedKinds) ->
      types.CustomerCheck br = check0).
Proof.
  cbv zeta. unfold ProcessFilesWithSources.
  set (st := run p inputs fileSources envs sched (initialRun (length inputs) now_)).
  destruct (forallb isDone (r_pcs st)); [|discriminate].
  destruct (countStats (r_results st)) as [[a b] c]. intros [= <-]. cbn [types.CustomerCheck].
  assert (Hm : spec.mergedFrom p inputs fileSources envs
                 (r_check (initialRun (length inputs) now_)) (r_check st)).
  { apply mergedFrom_run. exists []. split; [reflexivity|].
    split; [apply Forall_nil; exact I|reflexivity]. }
  split; [exists (r_check st); now split|].
  destruct Hm as (merges & Hcheck & Hall & Hnone).
  assert (Hstamp : forall merges check,
             models.CheckCompletedAt (spec.applyMerges merges check)
             = models.CheckCompletedAt check).
  { clear. induction merges as [|m merges IH]; intros check; [reflexivity|].
    unfold spec.applyMerges in *. cbn [fold_left]. rewrite IH.
    apply update_keeps_stamp. }
  split.
  - rewrite compare_keeps_stamp, Hcheck, Hstamp. reflexivity.
  - intros Hcase.
    assert (Hsame : r_check st = r_check (initialRun (length inputs) now_)).
    { rewrite Hcheck. destruct Hcase as [Hskip|Hunmapped]; [now rewrite (Hnone Hskip)|].
      clear Hcheck Hnone. induction merges as [|m merges IH] using rev_ind;
        [reflexivity|].
      apply Forall_app in Hall as [Hall Hm]. apply Forall_cons in Hm as [Hm _].
      destruct Hm as (index & inputURL & _ & Hin & Hsrc & _).
      unfold spec.applyMerges in *. rewrite fold_left_app. cbn [fold_left].
      rewrite (IH Hall), Hsrc. apply update_unmapped. now apply (Hunmapped index). }
    rewrite Hsame. reflexivity.
Qed.

(** *** The progress updates *)
Lemma sendProgress_updates (u : ProgressUpdate) (st st1 : Run) :
  sendProgress p u st = Some st1 ->
  spec.updateOK (length inputs) u ->
  Forall (spec.updateOK (length inputs)) (r_delivered st ++ r_progress st)%list ->
  Forall (spec.updateOK (length inputs)) (r_delivered st1 ++ r_progress st1)%list.
Proof.
  unfold sendProgress. destruct (ProgressChan p) as [cap|].
  - destruct (Nat.ltb _ cap); [|discriminate]. intros [= <-] Hu Hall. simpl.
    rewrite app_assoc. apply Forall_app. split; [exact Hall|].
    apply Forall_cons. split; [exact Hu|apply Forall_nil; exact I].
  - now intros [= <-] _ Hall.
Qed.

Lemma updates_step (st st' : Run) (a : Action) :
  Forall (spec.updateOK (length inputs)) (r_delivered st ++ r_progress st)%list ->
  step p inputs fileSources envs st a = Some st' ->
  Forall (spec.updateOK (length inputs)) (r_delivered st' ++ r_progress st')%list.
Proof.
  intros Hall Hstep. destruct a as [index|]; simpl in Hstep.
  - destruct (inputs !! index) as [inputURL|] eqn:Hin; [|discriminate].
    assert (Hidx : (index < length inputs)%nat) by (apply lookup_lt_is_Some; eauto).
    destruct (r_pcs st !! index) as [pc|] eqn:Hpc; [|discriminate].
    destruct pc as [| | |result|].
    + destruct (_ <? _)%Z; [|discriminate]. now injection Hstep as <-.
    + destruct (sendProgress p _ st) as [st1|] eqn:Hsend; [|discriminate].
      injection Hstep as <-. simpl.
      apply (sendProgress_updates _ _ _ Hsend); [|exact Hall].
      unfold spec.updateOK. simpl. split; [lia|]. split; [reflexivity|]. left. now split.
    + destruct (processOneFileWithSource p (envs index) inputURL (r_check st) _)
        as [[result check] calls].
      now injection Hstep as <-.
    + destruct (sendProgress p _ st) as [st1|] eqn:Hsend; [|discriminate].
      injection Hstep as <-. simpl.
      apply (sendProgress_updates _ _ _ Hsend); [|exact Hall].
      unfold spec.updateOK, completionUpdate. simpl. split; [lia|]. split; [reflexivity|].
      destruct (negb (String.eqb (types.Error result) ""));
        [right; right; split; [reflexivity|discriminate]|right; left; now split].
    + discriminate.
  - destruct (r_progress st) as [|u rest] eqn:Hbuf; [discriminate|].
    injection Hstep as <-. simpl. now rewrite <- app_assoc.
Qed.

(** Every update that reaches the channel of a batch of K files carries a
    file number between 1 and K and the total K, and is a start
    ("processing"), a completion ("completed") or a failure ("failed", the
    only kind with an error).  When the batch has ended and the processor
    has a channel, exactly two updates were sent per file. *)
Theorem progress_updates_well_formed (sched : list Action) (now_ : Z) :
  let st := run p inputs fileSources envs sched (initialRun (length inputs) now_) in
  Forall (spec.updateOK (length inputs)) (r_delivered st ++ r_progress st)%list
  /\ (forall cap,
        ProgressChan p = Some cap -> forallb isDone (r_pcs st) = true ->
        length (r_delivered st ++ r_progress st)%list = (2 * length inputs)%nat).
Proof.
  cbv zeta. split.
  - assert (Hinv : forall sched st,
               Forall (spec.updateOK (length inputs)) (r_delivered st ++ r_progress st)%list ->
               Forall (spec.updateOK (length inputs))
                 (r_delivered (run p inputs fileSources envs sched st)
                  ++ r_progress (run p inputs fileSources envs sched st))%list).
    { clear sched. induction sched as [|a sched IH]; intros st Hst; simpl; [exact Hst|].
      destruct (step p inputs fileSources envs st a) as [st'|] eqn:Hstep.
      - apply IH. now apply (updates_step st st' a).
      - now apply IH. }
    apply Hinv. apply Forall_nil. exact I.
  - intros cap Hcap Hdone.
    assert (Hinv : forall sched st,
               spec.progressInv inputs cap st ->
               spec.progressInv inputs cap (run p inputs fileSources envs sched st)).
    { clear sched Hdone. induction sched as [|a sched IH]; intros st Hst; simpl;
        [exact Hst|].
      destruct (step p inputs fileSources envs st a) as [st'|] eqn:Hstep.
      - apply IH. now apply (progressInv_step p inputs fileSources envs cap st st' a).
      - now apply IH. }
    destruct (Hinv sched (initialRun (length inputs) now_)) as (Hsum & _ & Hlen).
    { unfold spec.progressInv, initialRun. simpl.
      rewrite length_replicate, sum_replicate. simpl. repeat split; lia. }
    rewrite (all_done_updates _ Hdone), Hlen in Hsum. rewrite length_app. lia.
Qed.

End SchedulerLaws.

Lemma ProcessFilesWithSources_aggregate_witness :
  exists br,
    batch.ProcessFilesWithSources (rt := spec.demoRuntime) spec.analysingProcessor
      ["https://example.com/licence.txt"] None (fun _ => spec.licenceTaskEnv)
      spec.offlineCompareEnv 0 5 9 (batch.sequentialSchedule 0 1)
    = Some br
    /\ (exists check,
          spec.mergedFrom (rt := spec.demoRuntime) spec.analysingProcessor
            ["https://example.com/licence.txt"] None (fun _ => spec.licenceTaskEnv)
            (batch.r_check (batch.initialRun 1 5)) check
          /\ types.CustomerCheck br
             = analysis.CompareAddresses spec.offlineCompareEnv check)
    /\ models.CheckCompletedAt (types.CustomerCheck br) = Some 5%Z
    /\ models.ClientName (models.General (models.Corporate (types.CustomerCheck br)))
       = "ACME".
Proof.
  destruct (batch.ProcessFilesWithSources (rt := spec.demoRuntime)
              spec.analysingProcessor ["https://example.com/licence.txt"] None
              (fun _ => spec.licenceTaskEnv) spec.offlineCompareEnv 0 5 9
              (batch.sequentialSchedule 0 1)) as [br|] eqn:E;
    [|vm_compute in E; discriminate].
  exists br. split; [reflexivity|].
  pose proof (ProcessFilesWithSources_aggregate (rt := spec.demoRuntime)
                _ _ _ _ _ _ _ _ _ _ E) as (Hmerged & Hstamp & _).
  split; [exact Hmerged|]. split; [exact Hstamp|].
  vm_compute in E. injection E as <-. reflexivity.
Defined.

(** ** The OCR package *)
(** ** The OCR package: languages, page texts *)
Section OcrLaws.
Context `{rt : GoRuntime}.















End OcrLaws.

Lemma tesseract_language_examples :
  ocr.tesseractLang "VIE+eng" = "vie"
  /\ ocr.tesseractLang "klingon" = "eng"
  /\ ocr.tesseractLangToBCP47Hints " vie+ENG, klingon; zho pt " = ["vi"; "en"; "zh"; "pt"].
Proof. repeat split; vm_compute; reflexivity. Qed.


(** ** The JSON scanner, read backwards *)
Section ScannerLaws.
Import strings analysis.

Lemma bracketFree_sapp (a b : string) :
  spec.bracketFree a -> spec.bracketFree b -> spec.bracketFree (a ++ b).
Proof.
  intros Ha Hb. induction a as [|x a IH]; ssimpl; [exact Hb|].
  destruct Ha as (H1 & H2 & Ha). repeat split; auto.
Qed.

Lemma trimLeft_split (s : string) :
  exists a, s = (a ++ trimLeft s)%string /\ spec.bracketFree a.
Proof.
  induction s as [|x s (a & He & Ha)]; [now exists ""|]. simpl.
  destruct (isSpace x) eqn:Hx; [|now exists ""].
  exists (String x a). ssimpl. split; [now rewrite <- He|].
  repeat split; [intros -> ..|exact Ha]; discriminate.
Qed.

Lemma trimRight_split (s : string) : exists b, s = (trimRight s ++ b)%string.
Proof.
  induction s as [|x s (b & He)]; [now exists ""|]. simpl.
  destruct (trimRight s) as [|y r] eqn:Hr.
  - destruct (isSpace x); [now exists (String x s)|].
    exists b. rewrite sapp_cons. f_equal. exact He.
  - exists b. rewrite sapp_cons. f_equal. exact He.
Qed.

Lemma prefix_split (f s : string) :
  String.prefix f s = true -> s = (f ++ drop (String.length f) s)%string.
Proof.
  revert s. induction f as [|x f IH]; intros s H; [now destruct s|].
  destruct s as [|y s]; simpl in H; [discriminate|].
  destruct (ascii_dec x y) as [->|]; [|discriminate]. ssimpl. now rewrite <- IH.
Qed.

Lemma substring_0_split (k : nat) (s : string) :
  exists b, s = (substring 0 k s ++ b)%string.
Proof.
  revert s. induction k as [|k IH]; intros s.
  - exists s. now destruct s.
  - destruct s as [|x s]; [now exists ""|]. destruct (IH s) as (b & He).
    exists b. ssimpl. now rewrite <- He.
Qed.

(** What the fence stripping leaves is a part of the content, and what it
    removes in front opens no bracket. *)
Lemma fence_split (content f : string) :
  spec.bracketFree f ->
  exists a b,
    content = (a ++ TrimSuffix (TrimPrefix content f) "```" ++ b)%string
    /\ spec.bracketFree a.
Proof.
  intros Hf. unfold TrimPrefix, HasPrefix.
  destruct (String.prefix f content) eqn:Hp.
  - apply prefix_split in Hp. set (d := drop (String.length f) content) in *.
    unfold TrimSuffix. destruct (HasSuffix d "```").
    + destruct (substring_0_split (String.length d - String.length "```") d) as (b & Hb).
      exists f, b. split; [|exact Hf]. now rewrite <- Hb.
    + exists f, "". split; [|exact Hf]. now rewrite sapp_nil_r.
  - unfold TrimSuffix. destruct (HasSuffix content "```").
    + destruct (substring_0_split (String.length content - String.length "```") content)
        as (b & Hb).
      exists "", b. split; [|exact I]. ssimpl. exact Hb.
    + exists "", "". split; [|exact I]. ssimpl. now rewrite sapp_nil_r.
Qed.

(** A string opens no bracket, or has a first byte that opens one. *)
Lemma first_bracket (s : string) :
  spec.bracketFree s
  \/ exists pre o X,
       s = (pre ++ String o X)%string /\ spec.bracketFree pre
       /\ (o = "{"%char \/ o = "["%char).
Proof.
  induction s as [|x s IH]; [now left|].
  destruct (Ascii.eqb_spec x "{"%char) as [->|H1];
    [right; exists "", "{"%char, s; repeat split; now left|].
  destruct (Ascii.eqb_spec x "["%char) as [->|H2];
    [right; exists "", "["%char, s; repeat split; now right|].
  destruct IH as [Hfree|(pre & o & X & -> & Hfree & Ho)].
  - left. now repeat split.
  - right. exists (String x pre), o, X. ssimpl. repeat split; auto.
Qed.

Lemma indexAnyFrom_free (s : string) (i : Z) :
  spec.bracketFree s -> indexAnyFrom s "{[" i = (-1)%Z.
Proof.
  revert i. induction s as [|x s IH]; intros i Hfree; [reflexivity|].
  destruct Hfree as (H1 & H2 & Hfree). simpl.
  replace (byteIn x "{[") with false; [now apply IH|].
  unfold byteIn. simpl.
  destruct (Ascii.eqb_spec x "{"%char); [congruence|].
  destruct (Ascii.eqb_spec x "["%char); [congruence|]. reflexivity.
Qed.

(** The loop of the scanner, read backwards: when it is left by [break]
    with [n] brackets open at its start, the bytes it passed close exactly
    these [n] brackets, the last one with its last byte. *)
Lemma matchClose_sound (o c : ascii) :
  o <> c ->
  forall (rest : string) (i n : Z),
    (0 <= i)%Z -> (1 <= n)%Z ->
    matchClose rest o c i n <> 0%Z ->
    exists q r,
      rest = (q ++ String c r)%string
      /\ matchClose rest o c i n = (i + len q + 1)%Z
      /\ (n - 1 + spec.depth o c q = 0)%Z
      /\ forall q1 q2, q = (q1 ++ q2)%string -> (0 <= n - 1 + spec.depth o c q1)%Z.
Proof.
  intros Hoc. induction rest as [|ch rest IH]; intros i n Hi Hn He;
    [now contradiction He|].
  cbn [matchClose] in He |- *.
  assert (Hcons : forall d q r,
             rest = (q ++ String c r)%string ->
             (n - 1 + d + spec.depth o c q = 0)%Z ->
             (0 <= n - 1)%Z ->
             spec.depth o c (String ch "") = d ->
             (forall q1 q2, q = (q1 ++ q2)%string ->
                            (0 <= n - 1 + d + spec.depth o c q1)%Z) ->
             String ch rest = (String ch q ++ String c r)%string
             /\ (n - 1 + spec.depth o c (String ch q) = 0)%Z
             /\ forall q1 q2, String ch q = (q1 ++ q2)%string ->
                              (0 <= n - 1 + spec.depth o c q1)%Z).
  { intros d q r -> Hz Hn' Hd Hpre. simpl in Hd. split; [now ssimpl|]. split.
    - simpl. lia.
    - intros [|y q1] q2 Hq; ssimpl_in Hq; [simpl; lia|].
      injection Hq as <- Hq. specialize (Hpre q1 q2 Hq). simpl. lia. }
  destruct (Ascii.eqb_spec ch o) as [->|Hno].
  - destruct (IH (i + 1)%Z (n + 1)%Z ltac:(lia) ltac:(lia) He)
      as (q & r & Hrest & Hend & Hz & Hpre).
    exists (String o q), r.
    destruct (Hcons 1%Z q r Hrest) as (H1 & H2 & H3);
      [lia|lia|simpl; now rewrite Ascii.eqb_refl
      |intros q1 q2 Hq; specialize (Hpre q1 q2 Hq); lia|].
    repeat split; [exact H1| |exact H2|exact H3].
    rewrite Hend. unfold len. simpl String.length. lia.
  - destruct (Ascii.eqb_spec ch c) as [->|Hnc].
    + destruct (Z.eqb_spec (n - 1) 0) as [Hone|Hmore].
      * exists "", rest. repeat split; [unfold len; simpl; lia|simpl; lia|].
        intros [|y q1] q2 Hq; ssimpl_in Hq; [simpl; lia|discriminate].
      * destruct (IH (i + 1)%Z (n - 1)%Z ltac:(lia) ltac:(lia) He)
          as (q & r & Hrest & Hend & Hz & Hpre).
        exists (String c q), r.
        assert (Hd : spec.depth o c (String c "") = (-1)%Z).
        { simpl. destruct (Ascii.eqb_spec c o); [congruence|].
          now rewrite Ascii.eqb_refl. }
        destruct (Hcons (-1)%Z q r Hrest) as (H1 & H2 & H3);
          [lia|lia|exact Hd
          |intros q1 q2 Hq; specialize (Hpre q1 q2 Hq); lia|].
        repeat split; [exact H1| |exact H2|exact H3].
        rewrite Hend. unfold len. simpl String.length. lia.
    + destruct (IH (i + 1)%Z n ltac:(lia) Hn He)
        as (q & r & Hrest & Hend & Hz & Hpre).
      exists (String ch q), r.
      assert (Hd : spec.depth o c (String ch "") = 0%Z).
      { simpl. destruct (Ascii.eqb_spec ch o); [congruence|].
        destruct (Ascii.eqb_spec ch c); [congruence|]. reflexivity. }
      destruct (Hcons 0%Z q r Hrest) as (H1 & H2 & H3);
        [lia|lia|exact Hd
        |intros q1 q2 Hq; specialize (Hpre q1 q2 Hq); lia|].
      repeat split; [exact H1| |exact H2|exact H3].
      rewrite Hend. unfold len. simpl String.length. lia.
Qed.

(** The scan of a content, after the fences are stripped. *)
Lemma scan_sound (content : string) :
  let result :=
    let start := IndexAny content "{[" in
    if (start =? -1)%Z then ""
    else
      let '(openChar, closeChar) :=
        match byteAt content start with
        | Some "{"%char => ("{"%char, "}"%char)
        | _ => ("["%char, "]"%char)
        end in
      let end_ := matchClose (drop (Z.to_nat start) content) openChar closeChar start 0 in
      if (end_ =? 0)%Z then "" else TrimSpace (slice content start end_) in
  (spec.bracketFree content -> result = "")
  /\ (result = ""
      \/ exists o c pre rest,
           spec.bracketPair o c /\ spec.balancedBlock o c result
           /\ content = (pre ++ result ++ rest)%string /\ spec.bracketFree pre).
Proof.
  destruct (first_bracket content) as [Hfree|(pre & o & X & -> & Hfree & Ho)].
  - assert (Hr : (let start := IndexAny content "{[" in
                  if (start =? -1)%Z then ""
                  else
                    let '(openChar, closeChar) :=
                      match byteAt content start with
                      | Some "{"%char => ("{"%char, "}"%char)
                      | _ => ("["%char, "]"%char)
                      end in
                    let end_ :=
                      matchClose (drop (Z.to_nat start) content) openChar closeChar start 0 in
                    if (end_ =? 0)%Z then "" else TrimSpace (slice content start end_)) = "").
    { cbv zeta. unfold IndexAny. now rewrite indexAnyFrom_free. }
    cbv zeta in Hr |- *. rewrite Hr. split; [reflexivity|now left].
  - assert (Hpair : exists c, spec.bracketPair o c
                              /\ match Some o with
                                 | Some "{"%char => ("{"%char, "}"%char)
                                 | _ => ("["%char, "]"%char)
                                 end = (o, c)).
    { destruct Ho as [-> | ->];
        [exists "}"%char; split; [now left|reflexivity]
        |exists "]"%char; split; [now right|reflexivity]]. }
    destruct Hpair as (c & Hpair & Hsel).
    destruct (isSpace_bracket o c Hpair) as (Hso & Hsc & Hoc).
    assert (Hnot : ~ spec.bracketFree (pre ++ String o X)).
    { clear -Ho. induction pre as [|x pre IH]; ssimpl.
      - intros (H1 & H2 & _). destruct Ho; congruence.
      - intros (_ & _ & H). now apply IH. }
    destruct (Z.eqb_spec (matchClose X o c (0 + len pre + 1) 1) 0) as [Hz|Hnz].
    + assert (Hr : (let content := (pre ++ String o X)%string in
                    let start := IndexAny content "{[" in
                    if (start =? -1)%Z then ""
                    else
                      let '(openChar, closeChar) :=
                        match byteAt content start with
                        | Some "{"%char => ("{"%char, "}"%char)
                        | _ => ("["%char, "]"%char)
                        end in
                      let end_ :=
                        matchClose (drop (Z.to_nat start) content) openChar closeChar start 0 in
                      if (end_ =? 0)%Z then "" else TrimSpace (slice content start end_)) = "").
      { cbv zeta. unfold IndexAny. rewrite indexAnyFrom_block by assumption.
        replace (0 + len pre =? -1)%Z with false
          by (symmetry; apply Z.eqb_neq; unfold len; lia).
        unfold byteAt.
        replace (Z.to_nat (0 + len pre)) with (String.length pre) by (unfold len; lia).
        rewrite get_sapp, drop_sapp, Hsel. cbn [matchClose]. rewrite Ascii.eqb_refl.
        replace (0 + 1)%Z with 1%Z by lia. rewrite Hz. reflexivity. }
      cbv zeta in Hr |- *. rewrite Hr. split; [reflexivity|now left].
    + destruct (matchClose_sound o c Hoc X (0 + len pre + 1)%Z 1%Z
                  ltac:(unfold len; lia) ltac:(lia) Hnz)
        as (q & r & -> & _ & Hzero & Hprefix).
      assert (Hshape : spec.shape o c q (pre ++ String o (q ++ String c r)))
        by (exists pre, r; split; [reflexivity|exact Hfree]).
      assert (Hr := scan_shape o c q _ Hpair ltac:(lia)
                      ltac:(intros q1 q2 Hq; specialize (Hprefix q1 q2 Hq); lia) Hshape).
      cbv zeta in Hr |- *. rewrite Hr. split; [intros Hf; now destruct (Hnot Hf)|].
      right. exists o, c, pre, r. repeat split; [exact Hpair| |  |exact Hfree].
      * exists q. repeat split; [lia|].
        intros q1 q2 Hq. specialize (Hprefix q1 q2 Hq). lia.
      * ssimpl. now rewrite sapp_assoc.
Qed.

(** Whatever the response holds, [extractJSONFromGemini] returns nothing, or
    one block of balanced braces or of balanced square brackets that stands
    in the response at its first opening bracket; a response without a brace
    and without a square bracket gives nothing. *)
Theorem extractJSONFromGemini_sound (content : string) :
  (spec.bracketFree content -> extractJSONFromGemini content = "")
  /\ (extractJSONFromGemini content = ""
      \/ exists openChar closeChar pre rest,
           spec.bracketPair openChar closeChar
           /\ spec.balancedBlock openChar closeChar (extractJSONFromGemini content)
           /\ content = (pre ++ extractJSONFromGemini content ++ rest)%string
           /\ spec.bracketFree pre).
Proof.
  assert (Hmain :
            extractJSONFromGemini content = ""
            \/ exists openChar closeChar pre rest,
                 spec.bracketPair openChar closeChar
                 /\ spec.balancedBlock openChar closeChar (extractJSONFromGemini content)
                 /\ content = (pre ++ extractJSONFromGemini content ++ rest)%string
                 /\ spec.bracketFree pre).
  { destruct (trimLeft_split content) as (a0 & Hl & Ha0).
    destruct (trimRight_split (trimLeft content)) as (b0 & Hr).
    fold (TrimSpace content) in Hr.
    assert (Hsplit : exists content' a b,
               content = (a ++ content' ++ b)%string /\ spec.bracketFree a
               /\ extractJSONFromGemini content
                  = (let start := IndexAny content' "{[" in
                     if (start =? -1)%Z then ""
                     else
                       let '(openChar, closeChar) :=
                         match byteAt content' start with
                         | Some "{"%char => ("{"%char, "}"%char)
                         | _ => ("["%char, "]"%char)
                         end in
                       let end_ :=
                         matchClose (drop (Z.to_nat start) content') openChar closeChar
                           start 0 in
                       if (end_ =? 0)%Z then "" else TrimSpace (slice content' start end_))).
    { unfold extractJSONFromGemini. cbv zeta.
      assert (Hfence : forall f, spec.bracketFree f ->
                 exists a b,
                   content
                   = (a ++ TrimSuffix (TrimPrefix (TrimSpace content) f) "```" ++ b)%string
                   /\ spec.bracketFree a).
      { intros f Hf. destruct (fence_split (TrimSpace content) f Hf) as (a & b & He & Ha).
        exists (a0 ++ a)%string, (b ++ b0)%string. split; [|now apply bracketFree_sapp].
        rewrite Hl at 1. rewrite Hr at 1. rewrite He at 1.
        now rewrite !sapp_assoc. }
      destruct (HasPrefix (TrimSpace content) "```json").
      - destruct (Hfence "```json") as (a & b & He & Ha);
          [repeat split; discriminate|].
        exists (TrimSuffix (TrimPrefix (TrimSpace content) "```json") "```"), a, b.
        repeat split; [exact He|exact Ha].
      - destruct (HasPrefix (TrimSpace content) "```").
        + destruct (Hfence "```") as (a & b & He & Ha);
            [repeat split; discriminate|].
          exists (TrimSuffix (TrimPrefix (TrimSpace content) "```") "```"), a, b.
          repeat split; [exact He|exact Ha].
        + exists (TrimSpace content), a0, b0. repeat split; [|exact Ha0].
          rewrite Hl at 1. now rewrite Hr at 1. }
    destruct Hsplit as (content' & a & b & He & Ha & ->).
    destruct (scan_sound content') as (_ & [Hempty|Hblock]); [now left|].
    cbv zeta in Hblock. destruct Hblock as (o & c & pre & rest & Hpair & Hb & Hc & Hfree).
    right. exists o, c, (a ++ pre)%string, (rest ++ b)%string.
    repeat split; [exact Hpair|exact Hb| |now apply bracketFree_sapp].
    rewrite He at 1. rewrite Hc at 1. now rewrite !sapp_assoc. }
  split; [|exact Hmain].
  intros Hfree. destruct Hmain as [He|(o & c & pre & rest & Hpair & (body & Hb & _) & Hc & _)];
    [exact He|].
  exfalso. rewrite Hb in Hc. rewrite Hc in Hfree. clear -Hfree Hpair.
  induction pre as [|x pre IH]; ssimpl_in Hfree.
  - destruct Hfree as (H1 & H2 & _). destruct Hpair as [[-> _]|[-> _]]; congruence.
  - destruct Hfree as (_ & _ & H). now apply IH.
Qed.

End ScannerLaws.
